(** * eRPC: fault injection, API restrictions and the applications' batching
      and continuation code, embedded and verified.

    Sources embedded here:
    - [src/rpc_impl/rpc_fault_inject.cc]   (module [ERpc])
    - [tests/test_api_restrictions.cc]     (module [TestApiRestrictions])
    - [apps/consensus/client.h]            (module [Consensus])
    - [apps/persistent_kv/persistent_kv.cc] (module [PersistentKv])

    The class [Rpc<TTr>] itself (rpc.h and the rest of rpc_impl/) is not among
    the sources; the parts of it that the code above calls are modelled from
    the specification and are marked as such.

    The first half of the file holds the definitions, the second half the
    theorems, one module of facts per embedded source. *)

From Stdlib Require Import ZArith Bool Lia.
From stdpp Require Import base numbers option list strings.

Local Open Scope Z_scope.

(** ** Outcomes of a C++ call and the state-and-outcome monad *)

(** [std::runtime_error(what)]. *)
Inductive exn : Type :=
| runtime_error (what : string).

(** How a call ends.  [Abort] is the death of the process (a failed [assert],
    [exit]); [Undefined] is C++ undefined behaviour (indexing outside an
    array or vector, dereferencing [nullptr]). *)
Inductive outcome (A : Type) : Type :=
| Ok (a : A)
| Throw (e : exn)
| Abort
| Undefined.
Arguments Ok {A} a.
Arguments Throw {A} e.
Arguments Abort {A}.
Arguments Undefined {A}.

(** A computation over a mutable object of type [S].  Writes made before an
    exception or an abort stay in the state that is returned with it. *)
Definition M (S A : Type) : Type := S -> outcome A * S.

Definition ret {S A} (a : A) : M S A := fun s => (Ok a, s).

Definition bind {S A B} (m : M S A) (k : A -> M S B) : M S B :=
  fun s =>
    match m s with
    | (Ok a, s') => k a s'
    | (Throw e, s') => (Throw e, s')
    | (Abort, s') => (Abort, s')
    | (Undefined, s') => (Undefined, s')
    end.

Definition get {S} : M S S := fun s => (Ok s, s).
Definition gets {S A} (f : S -> A) : M S A := fun s => (Ok (f s), s).
Definition modify {S} (f : S -> S) : M S unit := fun s => (Ok tt, f s).
Definition throw {S A} (e : exn) : M S A := fun s => (Throw e, s).
Definition abort {S A} : M S A := fun s => (Abort, s).
Definition undefined {S A} : M S A := fun s => (Undefined, s).

Notation "x <- m ;; k" := (bind m (fun x => k))
  (at level 100, m at next level, right associativity).
Notation "m ;; k" := (bind m (fun _ => k))
  (at level 100, right associativity).

(** [for (x : xs) body(x)]. *)
Fixpoint for_each {S A} (body : A -> M S unit) (xs : list A) : M S unit :=
  match xs with
  | [] => ret tt
  | x :: xs' => body x ;; for_each body xs'
  end.

(** Build-time switches.  The constants [kFaultInjection] and
    [kDatapathChecks] are declared outside the embedded sources and are taken
    as parameters of the build. *)
Record Build : Type := mkBuild {
  kFaultInjection : bool;
  kDatapathChecks : bool
}.

(** Modelled from the spec: the macro [assert] comes from outside the
    embedded sources.  "datapath_checks (bool): enables assertions for
    misuse": with the checks on, a false condition kills the process; with
    them off the condition is not evaluated. *)
Definition assert {S} (b : Build) (cond : bool) : M S unit :=
  if kDatapathChecks b then (if cond then ret tt else abort) else ret tt.

(** [size_t] is 64 bits wide, [int] 32. *)
Definition size_t_mod : Z := 2 ^ 64.
Definition to_size_t (z : Z) : Z := z mod size_t_mod.
Definition INT_MIN : Z := - 2 ^ 31.
Definition INT_MAX : Z := 2 ^ 31 - 1.

(** [v[i]] on a [std::vector] or a C array: outside the bounds the behaviour
    is undefined. *)
Definition index {S A} (v : list A) (i : Z) : M S A :=
  if (0 <=? i) && (i <? Z.of_nat (length v)) then
    match v !! Z.to_nat i with
    | Some x => ret x
    | None => undefined
    end
  else undefined.

(** [v[i] = x]. *)
Definition store {S A} (v : list A) (i : Z) (x : A) : M S (list A) :=
  if (0 <=? i) && (i <? Z.of_nat (length v)) then ret (<[Z.to_nat i := x]> v)
  else undefined.

(** [p->...] on a pointer that may be [nullptr]. *)
Definition deref {S A} (p : option A) : M S A :=
  match p with
  | Some x => ret x
  | None => undefined
  end.

(** ** The endpoint: data model and fault injection *)

Module ERpc.

(** Modelled from the spec: the classes [Session], [MsgBuffer], [SmPkt] and
    the members of [Rpc] are declared in headers outside the embedded
    sources.  Their fields follow section 3 (data model) and section 4.4 (SM
    messages) of the spec, with the member names that rpc_fault_inject.cc and
    the applications use. *)
Inductive SessionState : Type :=
| kConnectInProgress | kConnected | kDisconnectInProgress | kResetInProgress
| kError.

Inductive Role : Type := kServer | kClient.

Record SessionEndpoint : Type := mkSessionEndpoint {
  hostname : string;
  ep_rpc_id : Z;
  ep_session_num : Z
}.

Record MsgBuffer : Type := mkMsgBuffer {
  buf : Z;            (* address of the payload *)
  max_data_size : Z;  (* size given at allocation *)
  data_size : Z       (* current payload size *)
}.

(** One slot of a session's request window while an exchange is in flight:
    the borrowed buffers, the continuation (a function pointer, kept as the
    function's identity) and the tag. *)
Record SSlot : Type := mkSSlot {
  sl_req_type : Z;
  sl_req_msgbuf : MsgBuffer;
  sl_resp_msgbuf : MsgBuffer;
  sl_cont : nat;
  sl_tag : Z
}.

Record Session : Type := mkSession {
  role : Role;
  state : SessionState;
  local_session_num : Z;
  client : SessionEndpoint;
  server : SessionEndpoint;
  (* datapath state *)
  credits : Z;
  sslot_arr : list (option SSlot)
}.

Definition is_connected (s : Session) : bool :=
  match state s with kConnected => true | _ => false end.

Definition is_client (s : Session) : bool :=
  match role s with kClient => true | kServer => false end.

Inductive SmPktType : Type :=
| kConnectReq | kConnectResp | kDisconnectReq | kDisconnectResp
| kFaultDropTxRemote | kFaultResetPeerReq | kFaultResetPeerResp.

Inductive SmErrType : Type := kNoError | kSmError (code : Z).

Record SmPkt : Type := mkSmPkt {
  pkt_type : SmPktType;
  err_type : SmErrType;
  gen_data : Z;                  (* type-specific payload *)
  pkt_client : SessionEndpoint;  (* the sender's side of the session *)
  pkt_server : SessionEndpoint   (* the peer the message is addressed to *)
}.

(** The [faults] member, with the three fields rpc_fault_inject.cc writes. *)
Record Faults : Type := mkFaults {
  resolve_server_rinfo : bool;
  drop_tx_local : bool;
  drop_tx_local_countdown : Z
}.

Record Rpc : Type := mkRpc {
  rpc_id : Z;
  context : Z;                        (* the opaque [void *context] *)
  creator_tid : nat;                  (* thread that constructed the Rpc *)
  session_vec : list (option Session);  (* [None] is [nullptr] *)
  faults : Faults;
  sm_tx_list : list SmPkt             (* SM messages handed to the side channel *)
}.

Definition set_faults (f : Faults) (r : Rpc) : Rpc :=
  mkRpc (rpc_id r) (context r) (creator_tid r) (session_vec r) f (sm_tx_list r).

Definition set_session_vec (v : list (option Session)) (r : Rpc) : Rpc :=
  mkRpc (rpc_id r) (context r) (creator_tid r) v (faults r) (sm_tx_list r).

Definition set_sm_tx_list (l : list SmPkt) (r : Rpc) : Rpc :=
  mkRpc (rpc_id r) (context r) (creator_tid r) (session_vec r) (faults r) l.

(** Modelled from the spec: [in_creator()] is declared outside the embedded
    sources.  "callable only from the endpoint's creating thread": true when
    the calling thread [tid] is the one that created the endpoint. *)
Definition in_creator (tid : nat) (r : Rpc) : bool :=
  Nat.eqb tid (creator_tid r).

(** Modelled from the spec: [is_usr_session_num_in_range] is declared outside
    the embedded sources.  The session table is a "vector indexed by local
    session number": the number is a valid index into [session_vec]. *)
Definition is_usr_session_num_in_range (session_num : Z) (r : Rpc) : bool :=
  (0 <=? session_num) && (session_num <? Z.of_nat (length (session_vec r))).

(** Modelled from the spec: [enqueue_sm_req_st] is declared outside the
    embedded sources.  Section 4.4: an SM message carries the sender, the
    session identifiers of both sides, a type, an error code and a
    type-specific payload; it is handed to the side channel for the
    session's peer.  One call emits one message. *)
Definition enqueue_sm_req_st (session : Session) (pkt_type : SmPktType)
    (gen_data : Z) : M Rpc unit :=
  modify (fun r =>
    set_sm_tx_list
      (sm_tx_list r ++
         [mkSmPkt pkt_type kNoError gen_data (client session) (server session)])
      r).

Section FaultInject.

Variable b : Build.

Definition fault_injection_disabled : exn :=
  runtime_error "eRPC Rpc: Fault injection is disabled.".

Definition non_creator_thread : exn :=
  runtime_error "eRPC Rpc: Non-creator threads cannot inject faults.".

(** [Rpc<TTr>::fault_inject_check_ok() const]; [tid] is the calling thread. *)
Definition fault_inject_check_ok (tid : nat) : M Rpc unit :=
  (if negb (kFaultInjection b) then throw fault_injection_disabled
   else ret tt) ;;
  in_cr <- gets (in_creator tid) ;;
  (if negb in_cr then throw non_creator_thread else ret tt).

(** [Rpc<TTr>::fault_inject_resolve_server_rinfo_st()]. *)
Definition fault_inject_resolve_server_rinfo_st (tid : nat) : M Rpc unit :=
  fault_inject_check_ok tid ;;
  modify (fun r =>
    set_faults (mkFaults true (drop_tx_local (faults r))
                  (drop_tx_local_countdown (faults r))) r).

(** [Rpc<TTr>::fault_inject_drop_tx_local_st(size_t pkt_countdown)]. *)
Definition fault_inject_drop_tx_local_st (tid : nat) (pkt_countdown : Z)
    : M Rpc unit :=
  fault_inject_check_ok tid ;;
  modify (fun r =>
    set_faults (mkFaults (resolve_server_rinfo (faults r)) true
                  (drop_tx_local_countdown (faults r))) r) ;;
  modify (fun r =>
    set_faults (mkFaults (resolve_server_rinfo (faults r))
                  (drop_tx_local (faults r)) pkt_countdown) r).

(** [Rpc<TTr>::fault_inject_drop_tx_remote_st(int session_num,
    size_t pkt_countdown)].  The [erpc_dprintf] only reads. *)
Definition fault_inject_drop_tx_remote_st (tid : nat) (session_num : Z)
    (pkt_countdown : Z) : M Rpc unit :=
  fault_inject_check_ok tid ;;
  in_range <- gets (is_usr_session_num_in_range session_num) ;;
  assert b in_range ;;
  vec <- gets session_vec ;;
  session_ptr <- index vec (to_size_t session_num) ;;
  assert b (bool_decide (session_ptr <> None)) ;;
  session <- deref session_ptr ;;
  assert b (is_connected session && is_client session) ;;
  enqueue_sm_req_st session kFaultDropTxRemote pkt_countdown.

(** [Rpc<TTr>::fault_inject_reset_remote_epeer_st(int session_num)].  The
    call of [enqueue_sm_req_st] leaves the payload argument to its default,
    an empty payload, written 0. *)
Definition fault_inject_reset_remote_epeer_st (tid : nat) (session_num : Z)
    : M Rpc unit :=
  fault_inject_check_ok tid ;;
  in_range <- gets (is_usr_session_num_in_range session_num) ;;
  assert b in_range ;;
  vec <- gets session_vec ;;
  session_ptr <- index vec (to_size_t session_num) ;;
  assert b (bool_decide (session_ptr <> None)) ;;
  session <- deref session_ptr ;;
  assert b (is_client session && is_connected session) ;;
  enqueue_sm_req_st session kFaultResetPeerReq 0.

End FaultInject.

(** The error the spec calls FAULT_INJECTION_FORBIDDEN: one of the two
    exceptions that [fault_inject_check_ok] throws. *)
Definition FAULT_INJECTION_FORBIDDEN (e : exn) : Prop :=
  e = fault_injection_disabled \/ e = non_creator_thread.

(** The preconditions on the session argument: the number is in range, the
    table entry is not null, and the session is a connected client
    session. *)
Definition session_precondition (session_num : Z) (r : Rpc) : bool :=
  is_usr_session_num_in_range session_num r &&
  match session_vec r !! Z.to_nat session_num with
  | Some (Some s) => is_connected s && is_client s
  | _ => false
  end.

(** The part that the two session operations share, up to the call of
    [enqueue_sm_req_st]. *)
Definition session_op (b : Build) (tid : nat) (session_num : Z)
    (chk : Session -> bool) (k : Session -> M Rpc unit) : M Rpc unit :=
  fault_inject_check_ok b tid ;;
  in_range <- gets (is_usr_session_num_in_range session_num) ;;
  assert b in_range ;;
  vec <- gets session_vec ;;
  session_ptr <- index vec (to_size_t session_num) ;;
  assert b (bool_decide (session_ptr <> None)) ;;
  session <- deref session_ptr ;;
  assert b (chk session) ;;
  k session.

(** Modelled from the spec: [erpc::ReqHandle] is declared outside the
    embedded sources.  It is the server's handle on one exchange: the request
    buffer, the preallocated response buffer and the flag [prealloc_used].
    [handle_addr] is the address of the handle, the value of the
    [ReqHandle *] pointers that a server keeps.  Of the response payload
    only the first word is kept ([resp_word]), when the handler writes
    one. *)
Record ReqHandle : Type := mkReqHandle {
  handle_addr : Z;
  req_msgbuf : MsgBuffer;
  pre_resp_msgbuf : MsgBuffer;
  prealloc_used : bool;
  resp_word : option Z
}.

Definition set_prealloc_used (v : bool) (h : ReqHandle) : ReqHandle :=
  mkReqHandle (handle_addr h) (req_msgbuf h) (pre_resp_msgbuf h) v
    (resp_word h).

Definition set_pre_resp_msgbuf (m : MsgBuffer) (h : ReqHandle) : ReqHandle :=
  mkReqHandle (handle_addr h) (req_msgbuf h) m (prealloc_used h)
    (resp_word h).

Definition set_resp_word (w : Z) (h : ReqHandle) : ReqHandle :=
  mkReqHandle (handle_addr h) (req_msgbuf h) (pre_resp_msgbuf h)
    (prealloc_used h) (Some w).

(** Modelled from the spec: [Rpc::resize_msg_buffer] is declared outside the
    embedded sources.  "the payload may be resized down to any size": the
    payload size becomes [new_size]; the buffer and its allocation stay. *)
Definition resize_msg_buffer (m : MsgBuffer) (new_size : Z) : MsgBuffer :=
  mkMsgBuffer (buf m) (max_data_size m) new_size.

(** *** The rest of the endpoint's interface

    Modelled from the spec: the member functions of [Rpc] below are outside
    the embedded sources; the tests and the applications call them.  They
    follow sections 3, 4.3, 4.5, 4.6, 5 and 7 of the spec.  Packets,
    segmentation and timers are left out: the datapath is seen through the
    events that end an exchange. *)

(** Where a call of the interface comes from: the application outside any
    callback, a request handler, or a continuation. *)
Inductive CallCtx : Type := kFromApp | kFromReqHandler | kFromContFunc.

Definition in_callback (cc : CallCtx) : bool :=
  match cc with
  | kFromApp => false
  | kFromReqHandler | kFromContFunc => true
  end.

(** Results of the interface: 0 or a session number on success, a negative
    number on failure.  FORBIDDEN_CONTEXT is [-EPERM], as the test of the
    restrictions expects; for the other errors the spec fixes the sign only
    and the values here are placeholders. *)
Definition EPERM : Z := 1.
Definition FORBIDDEN_CONTEXT : Z := - EPERM.
Definition OUT_OF_SESSIONS : Z := -12.
Definition BAD_URI : Z := -22.
Definition NO_CREDITS : Z := -11.
Definition SESSION_NOT_CONNECTED : Z := -107.
Definition SLOT_BUSY : Z := -16.

(** The configuration surface of section 6 that the model uses. *)
Record Config : Type := mkConfig {
  kSessionReqWindow : nat;       (* window_size: slots per session *)
  kMaxSessions : nat;            (* capacity of the session table *)
  max_msg_size : Z;
  valid_uri : string -> bool;
  local_endpoint : SessionEndpoint  (* this endpoint, as peers address it *)
}.

Definition set_state (st : SessionState) (s : Session) : Session :=
  mkSession (role s) st (local_session_num s) (client s) (server s)
    (credits s) (sslot_arr s).

Definition set_sslots (cr : Z) (slots : list (option SSlot)) (s : Session)
    : Session :=
  mkSession (role s) (state s) (local_session_num s) (client s) (server s)
    cr slots.

(** The table entry for a session number, if the number is in range and the
    entry is in use. *)
Definition get_session (session_num : Z) (r : Rpc) : option Session :=
  if 0 <=? session_num then
    match session_vec r !! Z.to_nat session_num with
    | Some (Some s) => Some s
    | _ => None
    end
  else None.

Definition put_session (session_num : Z) (s : option Session) : M Rpc unit :=
  modify (fun r =>
    set_session_vec (<[Z.to_nat session_num := s]> (session_vec r)) r).

Fixpoint find_free_slot (slots : list (option SSlot)) : option nat :=
  match slots with
  | [] => None
  | None :: _ => Some 0%nat
  | Some _ :: rest => S <$> find_free_slot rest
  end.

(** The handle a continuation receives: the slot it stands for and the
    response buffer as the endpoint has filled it. *)
Record RespHandle : Type := mkRespHandle {
  rh_session_num : Z;
  rh_slot : nat;
  rh_resp_msgbuf : MsgBuffer
}.

(** One invocation [cont(resp_handle, context, tag)]. *)
Record ContInvocation : Type := mkContInvocation {
  ci_cont : nat;
  ci_resp_handle : RespHandle;
  ci_context : Z;
  ci_tag : Z
}.

(** What the event loop meets that ends exchanges: the final packet of a
    response ("a positive size is a successful response": its payload size
    is positive), the failure of a session (retransmission bound exceeded,
    peer reset) and the acknowledgement of a disconnect. *)
Inductive Event : Type :=
| EvRxFinalResponse (session_num : Z) (slot : nat) (resp_size : positive)
| EvSessionFailed (session_num : Z)
| EvDisconnectAck (session_num : Z).

Section Endpoint.

Variable b : Build.
Variable cfg : Config.

(** [create_session]: section 4.3, [new_client_session]. *)
Definition create_session (cc : CallCtx) (rem_hostname : string)
    (rem_rpc_id : Z) : M Rpc Z :=
  if in_callback cc then ret FORBIDDEN_CONTEXT
  else if negb (valid_uri cfg rem_hostname) then ret BAD_URI
  else
    r <- get ;;
    if (kMaxSessions cfg <=? length (session_vec r))%nat
    then ret OUT_OF_SESSIONS
    else
      let local_num := Z.of_nat (length (session_vec r)) in
      let me := local_endpoint cfg in
      let session :=
        mkSession kClient kConnectInProgress local_num
          (mkSessionEndpoint (hostname me) (ep_rpc_id me) local_num)
          (mkSessionEndpoint rem_hostname rem_rpc_id (-1))
          (Z.of_nat (kSessionReqWindow cfg))
          (replicate (kSessionReqWindow cfg) None) in
      modify (fun r => set_session_vec (session_vec r ++ [Some session]) r) ;;
      enqueue_sm_req_st session kConnectReq 0 ;;
      ret local_num.

(** [destroy_session]: section 4.3.  From [connected] the session goes to
    disconnect-in-progress and a disconnect request is sent; an [error]
    session is freed at once; any other state refuses. *)
Definition destroy_session (cc : CallCtx) (session_num : Z) : M Rpc Z :=
  if in_callback cc then ret FORBIDDEN_CONTEXT
  else
    r <- get ;;
    match get_session session_num r with
    | Some s =>
        match state s with
        | kConnected =>
            put_session session_num
              (Some (set_state kDisconnectInProgress s)) ;;
            enqueue_sm_req_st s kDisconnectReq 0 ;;
            ret 0
        | kError => put_session session_num None ;; ret 0
        | _ => ret SESSION_NOT_CONNECTED
        end
    | None => ret SESSION_NOT_CONNECTED
    end.

(** [enqueue_request]: section 4.5, client issue.  A call from another
    thread or with a request above the configured maximum is a usage error
    (section 7: fatal). *)
Definition enqueue_request (tid : nat) (session_num req_type : Z)
    (req resp : MsgBuffer) (cont : nat) (tag : Z) : M Rpc Z :=
  in_cr <- gets (in_creator tid) ;;
  if negb in_cr then abort
  else if max_msg_size cfg <? data_size req then abort
  else
    r <- get ;;
    match get_session session_num r with
    | Some s =>
        if negb (is_connected s) then ret SESSION_NOT_CONNECTED
        else if credits s <=? 0 then ret NO_CREDITS
        else
          match find_free_slot (sslot_arr s) with
          | None => ret SLOT_BUSY
          | Some i =>
              put_session session_num
                (Some (set_sslots (credits s - 1)
                         (<[i := Some (mkSSlot req_type req resp cont tag)]>
                            (sslot_arr s)) s)) ;;
              ret 0
          end
    | None => ret SESSION_NOT_CONNECTED
    end.

(** The invocation that ends the exchange in slot [i]: the slot's
    continuation, a handle on the response buffer with [size] bytes of
    payload, the context given at construction, and the slot's tag. *)
Definition invocation (r : Rpc) (session_num : Z) (i : nat) (sl : SSlot)
    (size : Z) : ContInvocation :=
  mkContInvocation (sl_cont sl)
    (mkRespHandle session_num i
       (mkMsgBuffer (buf (sl_resp_msgbuf sl))
          (max_data_size (sl_resp_msgbuf sl)) size))
    (context r) (sl_tag sl).

(** The continuations of all exchanges in flight on a session, each with an
    empty response buffer, in slot order. *)
Fixpoint failure_invocations (r : Rpc) (session_num : Z) (i : nat)
    (slots : list (option SSlot)) : list ContInvocation :=
  match slots with
  | [] => []
  | None :: rest => failure_invocations r session_num (S i) rest
  | Some sl :: rest =>
      invocation r session_num i sl 0
        :: failure_invocations r session_num (S i) rest
  end.

(** One event, and the continuations it makes the event loop run.  Client
    completion (section 4.5): the slot's continuation is invoked, the slot
    freed and the credit returned.  Session failure (section 7) and
    disconnect (section 5, cancellation): the continuations of the exchanges
    in flight fire with empty response buffers.  An event for a slot without
    an exchange, or a response that does not fit the response buffer, is
    dropped. *)
Definition handle_event (e : Event) : M Rpc (list ContInvocation) :=
  r <- get ;;
  match e with
  | EvRxFinalResponse session_num i resp_size =>
      match get_session session_num r with
      | Some s =>
          match sslot_arr s !! i with
          | Some (Some sl) =>
              if Z.pos resp_size <=? max_data_size (sl_resp_msgbuf sl) then
                put_session session_num
                  (Some (set_sslots (credits s + 1)
                           (<[i := None]> (sslot_arr s)) s)) ;;
                ret [invocation r session_num i sl (Z.pos resp_size)]
              else ret []
          | _ => ret []
          end
      | None => ret []
      end
  | EvSessionFailed session_num =>
      match get_session session_num r with
      | Some s =>
          put_session session_num
            (Some (set_state kError
                     (set_sslots (Z.of_nat (length (sslot_arr s)))
                        (replicate (length (sslot_arr s)) None) s))) ;;
          ret (failure_invocations r session_num 0 (sslot_arr s))
      | None => ret []
      end
  | EvDisconnectAck session_num =>
      match get_session session_num r with
      | Some s =>
          match state s with
          | kDisconnectInProgress =>
              put_session session_num None ;;
              ret (failure_invocations r session_num 0 (sslot_arr s))
          | _ => ret []
          end
      | None => ret []
      end
  end.

Fixpoint handle_events (events : list Event) : M Rpc (list ContInvocation) :=
  match events with
  | [] => ret []
  | e :: rest =>
      invs <- handle_event e ;;
      invs' <- handle_events rest ;;
      ret (invs ++ invs')
  end.

(** [run_event_loop]: sections 4.6 and 5.  "Event-loop invocation from
    within a request handler or continuation is forbidden and fatal": with
    the datapath checks it aborts (P6); without them nothing is promised.
    Otherwise it handles the events of its duration and hands back the
    continuations to run. *)
Definition run_event_loop (cc : CallCtx) (timeout_ms : Z)
    (events : list Event) : M Rpc (list ContInvocation) :=
  if in_callback cc then
    (if kDatapathChecks b then abort else undefined)
  else handle_events events.

(** [delete rpc]: section 3.  "Destruction from inside a request handler or
    continuation is forbidden (fatal)", with or without the datapath checks;
    so is destruction by another thread.  Otherwise all sessions are torn
    down. *)
Definition delete_rpc (cc : CallCtx) (tid : nat) : M Rpc unit :=
  if in_callback cc then abort
  else
    in_cr <- gets (in_creator tid) ;;
    if negb in_cr then abort
    else modify (set_session_vec []).

End Endpoint.

(** The exchange in flight in slot [i] of session [session_num], if any. *)
Definition slot_of (session_num : Z) (i : nat) (r : Rpc) : option SSlot :=
  match get_session session_num r with
  | Some s => match sslot_arr s !! i with
              | Some (Some sl) => Some sl
              | _ => None
              end
  | None => None
  end.

(** The exchange [sl] is in flight in slot [i] of session [session_num],
    a session that has not failed. *)
Definition in_flight (session_num : Z) (i : nat) (sl : SSlot) (r : Rpc)
    : Prop :=
  exists s,
    get_session session_num r = Some s /\
    sslot_arr s !! i = Some (Some sl) /\
    (state s = kConnected \/ state s = kDisconnectInProgress).

(** A computation leaves the part [f] of the state as it was, however it
    ends. *)
Definition preserves {S A X} (f : S -> X) (m : M S A) : Prop :=
  forall s, f (snd (m s)) = f s.

(** The operations on an endpoint that may come between the issue of a
    request and the end of its exchange. *)
Inductive Op : Type :=
| OpEnqueueRequest (tid : nat) (session_num req_type : Z)
    (req resp : MsgBuffer) (cont : nat) (tag : Z)
| OpEvent (e : Event)
| OpCreateSession (cc : CallCtx) (rem_hostname : string) (rem_rpc_id : Z)
| OpDestroySession (cc : CallCtx) (session_num : Z)
| OpFaultResolveServerRinfo (tid : nat)
| OpFaultDropTxLocal (tid : nat) (pkt_countdown : Z)
| OpFaultDropTxRemote (tid : nat) (session_num : Z) (pkt_countdown : Z)
| OpFaultResetRemotePeer (tid : nat) (session_num : Z).

Definition step (b : Build) (cfg : Config) (op : Op)
    : M Rpc (list ContInvocation) :=
  match op with
  | OpEnqueueRequest tid sn ty req resp cont tag =>
      enqueue_request cfg tid sn ty req resp cont tag ;; ret []
  | OpEvent e => handle_event e
  | OpCreateSession cc host id => create_session cfg cc host id ;; ret []
  | OpDestroySession cc sn => destroy_session cc sn ;; ret []
  | OpFaultResolveServerRinfo tid =>
      fault_inject_resolve_server_rinfo_st b tid ;; ret []
  | OpFaultDropTxLocal tid n =>
      fault_inject_drop_tx_local_st b tid n ;; ret []
  | OpFaultDropTxRemote tid sn n =>
      fault_inject_drop_tx_remote_st b tid sn n ;; ret []
  | OpFaultResetRemotePeer tid sn =>
      fault_inject_reset_remote_epeer_st b tid sn ;; ret []
  end.

Fixpoint run_ops (b : Build) (cfg : Config) (ops : list Op)
    : M Rpc (list ContInvocation) :=
  match ops with
  | [] => ret []
  | op :: rest =>
      invs <- step b cfg op ;;
      invs' <- run_ops b cfg rest ;;
      ret (invs ++ invs')
  end.

(** The events that end the exchange in slot [i] of session
    [session_num]: its final response, and the failure or the disconnect of
    its session. *)
Definition ends_exchange (session_num : Z) (i : nat) (op : Op) : bool :=
  match op with
  | OpEvent (EvRxFinalResponse sn j _) =>
      (sn =? session_num) && (j =? i)%nat
  | OpEvent (EvSessionFailed sn) | OpEvent (EvDisconnectAck sn) =>
      sn =? session_num
  | _ => false
  end.

(** The outcome of an exchange as the endpoint knows it when it invokes the
    continuation. *)
Definition completed_successfully (e : Event) : bool :=
  match e with
  | EvRxFinalResponse _ _ _ => true
  | EvSessionFailed _ | EvDisconnectAck _ => false
  end.

(** A small endpoint used in the examples: one connected client session
    (number 0) and an empty table entry (number 1). *)
Definition example_session : Session :=
  mkSession kClient kConnected 0
    (mkSessionEndpoint "client-host" 3 0)
    (mkSessionEndpoint "server-host" 7 5)
    8 [None; None].

Definition example_rpc : Rpc :=
  mkRpc 3 4096 1%nat [Some example_session; None]
    (mkFaults false false 0) [].

Definition example_config : Config :=
  mkConfig 2 8 1024 (fun uri => negb (String.eqb uri ""))
    (mkSessionEndpoint "client-host" 3 0).

Definition example_req : MsgBuffer := mkMsgBuffer 8192 64 64.
Definition example_resp : MsgBuffer := mkMsgBuffer 12288 64 64.

End ERpc.


(** ** The test of the restrictions (tests/test_api_restrictions.cc) *)

Module TestApiRestrictions.
Import ERpc.

(** [static constexpr size_t kAppReqSize = 32]. *)
Definition kAppReqSize : Z := 32.

Inductive AppDeathMode : Type :=
| kReqHandlerRunsEventLoop
| kReqHandlerDeletesRpc
| kContFuncRunsEventLoop
| kContFuncDeletesRpc.

Definition AppDeathMode_eqb (x y : AppDeathMode) : bool :=
  match x, y with
  | kReqHandlerRunsEventLoop, kReqHandlerRunsEventLoop
  | kReqHandlerDeletesRpc, kReqHandlerDeletesRpc
  | kContFuncRunsEventLoop, kContFuncRunsEventLoop
  | kContFuncDeletesRpc, kContFuncDeletesRpc => true
  | _, _ => false
  end.

(** [class AppContext : public BasicAppContext], with the members that the
    handler and the continuation use.  [responses] and [released] are the
    endpoint as the test sees it: the handles given to [enqueue_response]
    and to [release_response].  [fatal_failure] is googletest's record of a
    failed ASSERT_ macro. *)
Record AppContext : Type := mkAppContext {
  rpc : Rpc;
  is_client : bool;
  num_rpc_resps : Z;
  responses : list ReqHandle;
  released : list RespHandle;
  fatal_failure : bool
}.

Definition set_rpc (r : Rpc) (c : AppContext) : AppContext :=
  mkAppContext r (is_client c) (num_rpc_resps c) (responses c) (released c)
    (fatal_failure c).

(** A call [context->rpc->...]. *)
Definition on_rpc {A} (m : M Rpc A) : M AppContext A :=
  fun c => let (o, r') := m (rpc c) in (o, set_rpc r' c).

(** Modelled from the spec: [in_background()] is outside the embedded
    sources.  Section 4.7: background handlers run on worker threads, not on
    the thread that owns the endpoint. *)
Definition in_background (tid : nat) (r : Rpc) : bool :=
  negb (in_creator tid r).

(** googletest's [ASSERT_EQ(a, b)]: when the values differ a fatal failure
    is recorded and the function returns; [k] is the rest of the
    function. *)
Definition ASSERT_EQ (x y : Z) (k : M AppContext unit) : M AppContext unit :=
  if x =? y then k
  else modify (fun c =>
         mkAppContext (rpc c) (is_client c) (num_rpc_resps c) (responses c)
           (released c) true).

(** googletest's [ASSERT_DEATH(stmt, ".*")]: the statement runs in a child
    process; the assertion holds when the child dies, and the parent goes
    on as it was.  Otherwise a fatal failure is recorded and the function
    returns. *)
Definition ASSERT_DEATH {A} (stmt : M AppContext A) (k : M AppContext unit)
    : M AppContext unit :=
  fun c =>
    match fst (stmt c) with
    | Abort => k c
    | _ =>
        (Ok tt,
         mkAppContext (rpc c) (is_client c) (num_rpc_resps c) (responses c)
           (released c) true)
    end.

Section Test.

Variable b : Build.
Variable cfg : Config.

(** Constants of test_basics.h, outside the embedded sources. *)
Variable kAppServerRpcId : Z.
Variable kAppEventLoopMs : Z.

(** [void req_handler(ReqHandle *req_handle, void *_context)], run by
    thread [tid]; [events] is what an event loop started here would meet,
    [mode] the value of [app_death_mode].  The handle and the context are
    values here, so the first [assert] has nothing to check; the physical
    port given to [create_session] has no counterpart in the model. *)
Definition req_handler (mode : AppDeathMode) (tid : nat)
    (events : list Event) (req_handle : ReqHandle) : M AppContext unit :=
  c <- get ;;
  assert b (negb (is_client c)) ;;
  assert b (in_background tid (rpc c)) ;;
  (* Try to create a session *)
  session_num <-
    on_rpc (create_session cfg kFromReqHandler "localhost" kAppServerRpcId) ;;
  ASSERT_EQ session_num (- EPERM) (
  (* Try to destroy a valid session number *)
  ret_ <- on_rpc (destroy_session kFromReqHandler 0) ;;
  ASSERT_EQ ret_ (- EPERM) (
  (fun k : M AppContext unit =>
     if AppDeathMode_eqb mode kReqHandlerRunsEventLoop then
       (* Try to run the event loop *)
       if kDatapathChecks b then
         ASSERT_DEATH
           (on_rpc (run_event_loop b kFromReqHandler kAppEventLoopMs events))
           k
       else k
     else k) (
  (fun k : M AppContext unit =>
     if AppDeathMode_eqb mode kReqHandlerDeletesRpc then
       (* Try to delete the Rpc. This crashes even without
          kDatapathChecks. *)
       ASSERT_DEATH (on_rpc (delete_rpc kFromReqHandler tid)) k
     else k) (
  let req_handle :=
    set_pre_resp_msgbuf
      (resize_msg_buffer (pre_resp_msgbuf req_handle) kAppReqSize)
      req_handle in
  let req_handle := set_prealloc_used true req_handle in
  modify (fun c =>
    mkAppContext (rpc c) (is_client c) (num_rpc_resps c)
      (responses c ++ [req_handle]) (released c) (fatal_failure c)))))).

(** [void cont_func(RespHandle *resp_handle, void *_context, size_t)]. *)
Definition cont_func (mode : AppDeathMode) (tid : nat)
    (events : list Event) (resp_handle : RespHandle) (tag : Z)
    : M AppContext unit :=
  c <- get ;;
  assert b (is_client c) ;;
  assert b (negb (in_background tid (rpc c))) ;;
  (fun k : M AppContext unit =>
     if AppDeathMode_eqb mode kContFuncRunsEventLoop then
       (* Try to run the event loop *)
       if kDatapathChecks b then
         ASSERT_DEATH
           (on_rpc (run_event_loop b kFromContFunc kAppEventLoopMs events))
           k
       else k
     else k) (
  (fun k : M AppContext unit =>
     if AppDeathMode_eqb mode kContFuncDeletesRpc then
       (* Try to delete the Rpc. This crashes even without
          kDatapathChecks. *)
       ASSERT_DEATH (on_rpc (delete_rpc kFromContFunc tid)) k
     else k) (
  modify (fun c =>
    mkAppContext (rpc c) (is_client c) (to_size_t (num_rpc_resps c + 1))
      (responses c) (released c) (fatal_failure c)) ;;
  modify (fun c =>
    mkAppContext (rpc c) (is_client c) (num_rpc_resps c) (responses c)
      (released c ++ [resp_handle]) (fatal_failure c)))).

End Test.

End TestApiRestrictions.

(** ** The client of the replicated service (apps/consensus/client.h) *)

Module Consensus.
Import ERpc.

(** Modelled from the spec: consensus.h, with [AppContext],
    [connection_t], [client_resp_t], the flags and the constants, is outside
    the embedded sources; the members below are those that client.h uses.
    The latency samples are floating-point numbers computed from the cycle
    counter: they are kept as opaque values. *)
Inductive ClientRespType : Type := kSuccess | kFailRedirect | kFailTryAgain.

Record client_resp_t : Type := mkClientResp {
  resp_type : ClientRespType;
  leader_node_id : Z
}.

Record connection_t : Type := mkConnection {
  disconnected : bool;
  session_num : Z
}.

(** What the client prints and the time it sleeps, in order. *)
Inductive Output : Type :=
| PrintChangeLeaderToAny (from : Z)
| PrintChangedLeaderView (to : Z)
| PrintFailedToChangeLeader
| PrintCouldNotFindNode (node_id : Z)
| PrintLatency
| PrintSendingRequest (leader : Z)
| PrintReceivedResp
| PrintRedirect (leader : Z) (node_id : Z)
| PrintRedirectFailed (leader : Z) (node_id : Z)
| PrintTryAgain (leader : Z)
| PrintRpcFailedToComplete (leader : Z)
| Usleep (us : Z).

Section Client.

Context {Sample : Type}.

(** [FLAGS_num_raft_servers], [kAppNumKeys], [kAppVerbose], the request
    type [ReqType::kClientReq], the identity of the function
    [client_cont], and the map from a machine index to its Raft node id
    ([get_raft_node_id_from_hostname] of [get_hostname_for_machine]). *)
Variable FLAGS_num_raft_servers : Z.
Variable kAppNumKeys : Z.
Variable kAppVerbose : bool.
Variable kClientReq : Z.
Variable client_cont_id : nat.
Variable node_id_of_machine : Z -> Z.

Variable b : Build.
Variable cfg : Config.

Record AppContext : Type := mkAppContext {
  conn_vec : list connection_t;
  rpc : Rpc;
  (* c->client *)
  leader_idx : Z;
  last_key : Z;
  num_resps : Z;
  req_us_vec : list Sample;
  req_msgbuf : MsgBuffer;
  req_key_value : Z;          (* req->key[0] and req->value[0] *)
  resp_msgbuf : MsgBuffer;
  resp_payload : client_resp_t;  (* the response buffer read as client_resp_t *)
  (* the world outside *)
  output : list Output;
  released : list RespHandle
}.

Definition set_leader_idx (v : Z) (c : AppContext) : AppContext :=
  mkAppContext (conn_vec c) (rpc c) v (last_key c) (num_resps c)
    (req_us_vec c) (req_msgbuf c) (req_key_value c) (resp_msgbuf c)
    (resp_payload c) (output c) (released c).

Definition set_rpc (v : Rpc) (c : AppContext) : AppContext :=
  mkAppContext (conn_vec c) v (leader_idx c) (last_key c) (num_resps c)
    (req_us_vec c) (req_msgbuf c) (req_key_value c) (resp_msgbuf c)
    (resp_payload c) (output c) (released c).

Definition set_last_key (v : Z) (c : AppContext) : AppContext :=
  mkAppContext (conn_vec c) (rpc c) (leader_idx c) v (num_resps c)
    (req_us_vec c) (req_msgbuf c) (req_key_value c) (resp_msgbuf c)
    (resp_payload c) (output c) (released c).

Definition set_stats (n : Z) (v : list Sample) (c : AppContext)
    : AppContext :=
  mkAppContext (conn_vec c) (rpc c) (leader_idx c) (last_key c) n v
    (req_msgbuf c) (req_key_value c) (resp_msgbuf c) (resp_payload c)
    (output c) (released c).

Definition set_req_key_value (v : Z) (c : AppContext) : AppContext :=
  mkAppContext (conn_vec c) (rpc c) (leader_idx c) (last_key c) (num_resps c)
    (req_us_vec c) (req_msgbuf c) v (resp_msgbuf c) (resp_payload c)
    (output c) (released c).

Definition set_response (m : MsgBuffer) (p : client_resp_t) (c : AppContext)
    : AppContext :=
  mkAppContext (conn_vec c) (rpc c) (leader_idx c) (last_key c) (num_resps c)
    (req_us_vec c) (req_msgbuf c) (req_key_value c) m p (output c)
    (released c).

Definition printf (o : Output) : M AppContext unit :=
  modify (fun c =>
    mkAppContext (conn_vec c) (rpc c) (leader_idx c) (last_key c)
      (num_resps c) (req_us_vec c) (req_msgbuf c) (req_key_value c)
      (resp_msgbuf c) (resp_payload c) (output c ++ [o]) (released c)).

Definition usleep (us : Z) : M AppContext unit := printf (Usleep us).

(** [exit(0)]: the process ends. *)
Definition exit {A} : M AppContext A := abort.

Definition release_response (h : RespHandle) : M AppContext unit :=
  modify (fun c =>
    mkAppContext (conn_vec c) (rpc c) (leader_idx c) (last_key c)
      (num_resps c) (req_us_vec c) (req_msgbuf c) (req_key_value c)
      (resp_msgbuf c) (resp_payload c) (output c) (released c ++ [h])).

Definition on_rpc {A} (m : M Rpc A) : M AppContext A :=
  fun c => let (o, r') := m (rpc c) in (o, set_rpc r' c).

(** The loop of [change_leader_to_any], from [i] on, for at most [fuel]
    rounds; [None] when the loop ends without a connected server. *)
Fixpoint next_connected (conns : list connection_t) (cur i : Z) (fuel : nat)
    : M AppContext (option Z) :=
  match fuel with
  | O => ret None
  | S fuel' =>
      if i <? FLAGS_num_raft_servers then
        let next_leader_idx :=
          to_size_t (cur + i) mod FLAGS_num_raft_servers in
        conn <- index conns next_leader_idx ;;
        if negb (disconnected conn) then ret (Some next_leader_idx)
        else next_connected conns cur (i + 1) fuel'
      else ret None
  end.

(** [void change_leader_to_any(AppContext *c)]. *)
Definition change_leader_to_any : M AppContext unit :=
  c <- get ;;
  let cur_leader_idx := leader_idx c in
  printf (PrintChangeLeaderToAny (leader_idx c)) ;;
  (* Pick the next session to a Raft server that is not disconnected *)
  found <- next_connected (conn_vec c) cur_leader_idx 1
             (Z.to_nat FLAGS_num_raft_servers) ;;
  match found with
  | Some next_leader_idx =>
      modify (set_leader_idx next_leader_idx) ;;
      printf (PrintChangedLeaderView next_leader_idx)
  | None =>
      printf PrintFailedToChangeLeader ;;
      exit
  end.

(** The loop of [change_leader_to_node], from [i] on: the index of the
    machine with the given node id, if there is one. *)
Fixpoint find_node (node_id : Z) (i : Z) (fuel : nat) : option Z :=
  match fuel with
  | O => None
  | S fuel' =>
      if i <? FLAGS_num_raft_servers then
        if node_id_of_machine i =? node_id then Some i
        else find_node node_id (i + 1) fuel'
      else None
  end.

(** [bool change_leader_to_node(AppContext *c, int node_id)]. *)
Definition change_leader_to_node (node_id : Z) : M AppContext bool :=
  c <- get ;;
  match find_node node_id 0 (Z.to_nat FLAGS_num_raft_servers) with
  | Some i =>
      conn <- index (conn_vec c) i ;;
      if disconnected conn then
        (* We're being redirected to a failed Raft server *)
        ret false
      else
        modify (set_leader_idx i) ;;
        ret true
  | None =>
      printf (PrintCouldNotFindNode node_id) ;;
      exit
  end.

(** [void send_req_one(AppContext *c)]; [check_magic()] has nothing to check
    here, and the cycle counter is not modelled ([req_start_tsc] is left
    out). *)
Definition send_req_one (tid : nat) : M AppContext unit :=
  (* Format the client's PUT request. Key and value are identical. *)
  modify (fun c => set_req_key_value (last_key c) c) ;;
  modify (fun c => set_last_key (to_size_t (last_key c + 1)) c) ;;
  c <- get ;;
  (if last_key c =? kAppNumKeys then modify (set_last_key 0) else ret tt) ;;
  c <- get ;;
  (if kAppVerbose then printf (PrintSendingRequest (leader_idx c))
   else ret tt) ;;
  conn <- index (conn_vec c) (leader_idx c) ;;
  ret_ <- on_rpc (enqueue_request cfg tid (session_num conn) kClientReq
                    (req_msgbuf c) (resp_msgbuf c) client_cont_id 0) ;;
  assert b (ret_ =? 0).

(** [void client_cont(ERpc::RespHandle *resp_handle, void *_context,
    size_t)], run by thread [tid]; [latency_us] is the latency computed
    from the cycle counter. *)
Definition client_cont (tid : nat) (latency_us : Sample)
    (resp_handle : RespHandle) (tag : Z) : M AppContext unit :=
  modify (fun c =>
    set_stats (num_resps c) (req_us_vec c ++ [latency_us]) c) ;;
  modify (fun c =>
    set_stats (to_size_t (num_resps c + 1)) (req_us_vec c) c) ;;
  c <- get ;;
  (if num_resps c =? 10000 then
     (* At this point, there is no request outstanding, so long compute is
        OK *)
     printf PrintLatency ;;
     modify (set_stats 0 [])
   else ret tt) ;;
  c <- get ;;
  (if 0 <? data_size (resp_msgbuf c) then
     (* The RPC was successful *)
     let client_resp := resp_payload c in
     (if kAppVerbose then printf PrintReceivedResp else ret tt) ;;
     match resp_type client_resp with
     | kSuccess => ret tt
     | kFailRedirect =>
         printf (PrintRedirect (leader_idx c) (leader_node_id client_resp)) ;;
         success <- change_leader_to_node (leader_node_id client_resp) ;;
         if negb success then
           c <- get ;;
           printf (PrintRedirectFailed (leader_idx c)
                     (leader_node_id client_resp)) ;;
           usleep 200000
         else ret tt
     | kFailTryAgain =>
         printf (PrintTryAgain (leader_idx c)) ;;
         usleep 200000
     end
   else
     (* This is a continuation-with-failure *)
     printf (PrintRpcFailedToComplete (leader_idx c)) ;;
     change_leader_to_any) ;;
  release_response resp_handle ;;
  send_req_one tid.

(** Modelled from the spec: the endpoint's side of a continuation call.
    The response buffer given to [enqueue_request] is [c->client.resp_msgbuf]
    itself, "borrowed from user, written into on RX": when the endpoint
    invokes the continuation the buffer has the payload size that the handle
    shows and, for a response, the payload [received]. *)
Definition deliver (inv : ContInvocation) (received : client_resp_t)
    (c : AppContext) : AppContext :=
  let m := rh_resp_msgbuf (ci_resp_handle inv) in
  set_response m
    (if 0 <? data_size m then received else resp_payload c) c.

(** A computation only adds to the output, and adds only lines that
    satisfy [P], however it ends. *)
Definition emits (P : Output -> Prop) {A} (m : M AppContext A) : Prop :=
  forall c, exists new,
    output (snd (m c)) = output c ++ new /\ Forall P new.

(** Any line but "Client RPC to server ... failed to complete". *)
Definition quiet (o : Output) : Prop :=
  match o with
  | PrintRpcFailedToComplete _ => False
  | _ => True
  end.

(** The continuation has taken the branch "continuation-with-failure":
    among what it printed is the line "Client RPC to server ... failed to
    complete". *)
Definition reports_failure (before after : AppContext) : Prop :=
  exists leader,
    In (PrintRpcFailedToComplete leader)
      (drop (length (output before)) (output after)).

End Client.

(** The connection to the Raft server of index [i] is marked as
    disconnected, or is not. *)
Definition is_disconnected (conns : list connection_t) (i : Z) : Prop :=
  exists conn, conns !! Z.to_nat i = Some conn /\ disconnected conn = true.

Definition is_connected_to (conns : list connection_t) (i : Z) : Prop :=
  exists conn, conns !! Z.to_nat i = Some conn /\ disconnected conn = false.

(** A request of the consensus client on the example endpoint, ended by the
    failure of the session and, in another run, by a response of 24
    bytes. *)
Definition example_in_flight : Rpc :=
  snd (enqueue_request example_config 1 0 1 example_req example_resp 77 0
         example_rpc).

Definition example_failed : ContInvocation :=
  mkContInvocation 77 (mkRespHandle 0 0 (mkMsgBuffer 12288 64 0)) 4096 0.

Definition example_completed : ContInvocation :=
  mkContInvocation 77 (mkRespHandle 0 0 (mkMsgBuffer 12288 64 24)) 4096 0.

(** A client of three servers: sessions 0 and 2 of its endpoint lead to
    servers 0 and 2, server 1 is disconnected; server 0 is the leader. *)
Definition example_client_rpc : Rpc :=
  mkRpc 3 4096 1%nat
    [Some example_session; None;
     Some (mkSession kClient kConnected 2
             (mkSessionEndpoint "client-host" 3 2)
             (mkSessionEndpoint "server-2" 7 9) 8 [None; None])]
    (mkFaults false false 0) [].

Definition example_client : @AppContext Z :=
  mkAppContext
    [mkConnection false 0; mkConnection true 1; mkConnection false 2]
    example_client_rpc 0 5 0 [] example_req 4 example_resp
    (mkClientResp kSuccess 0) [] [].

End Consensus.

(** ** The persistent key-value server (apps/persistent_kv/persistent_kv.cc) *)

Module PersistentKv.
Import ERpc.

(** [static constexpr size_t kAppMaxServerBatch = 16]. *)
Definition kAppMaxServerBatch : Z := 16.

(** [sizeof(Key)], [sizeof(Value)], [sizeof(Result)]: two, four and one
    [size_t]. *)
Definition sizeof_Key : Z := 16.
Definition sizeof_Value : Z := 32.
Definition sizeof_Result : Z := 8.

(** [enum class Result : size_t { kGetFail = 1, kSetSuccess, kSetFail }]. *)
Inductive Result : Type := kGetFail | kSetSuccess | kSetFail.

Definition Result_word (res : Result) : Z :=
  match res with
  | kGetFail => 1
  | kSetSuccess => 2
  | kSetFail => 3
  end.

(** [class Key]: [size_t key_frag[2]]. *)
Record Key : Type := mkKey {
  key_frag0 : Z;
  key_frag1 : Z
}.

(** [Key() { memset(key_frag, 0, sizeof(Key)); }]. *)
Definition Key_new : Key := mkKey 0 0.

(** The object representation of an unsigned integer of [n] bytes, least
    significant byte first (the apps run on x86-64), and that of a [Key]:
    the sixteen bytes of its two fragments. *)
Fixpoint bytes_of (n : nat) (z : Z) : list Z :=
  match n with
  | O => []
  | S n' => z mod 256 :: bytes_of n' (z / 256)
  end.

Definition Key_bytes (k : Key) : list Z :=
  bytes_of 8 (key_frag0 k) ++ bytes_of 8 (key_frag1 k).

(** The C library's [memcmp] on the first [n] bytes of two objects that
    have at least [n] bytes: the difference of the first pair of bytes
    that differ, 0 when there is none. *)
Fixpoint memcmp (xs ys : list Z) (n : nat) : Z :=
  match n, xs, ys with
  | S n', x :: xs', y :: ys' => if x =? y then memcmp xs' ys' n' else x - y
  | _, _, _ => 0
  end.

(** [bool operator==(const Key &rhs) const] and [operator!=]. *)
Definition Key_eq (k rhs : Key) : bool :=
  memcmp (Key_bytes k) (Key_bytes rhs) (Z.to_nat sizeof_Key) =? 0.

Definition Key_ne (k rhs : Key) : bool :=
  negb (memcmp (Key_bytes k) (Key_bytes rhs) (Z.to_nat sizeof_Key) =? 0).

(** Of the response payload only the [Result] word that the server writes
    at its start is modelled ([resp_word] of the handle); the value bytes
    that the hash table copies through [val_ptr_arr] are not. *)

Section Server.

(** The persistent hash table (pmica.h) is outside the embedded sources and
    is a parameter: its state, [get_hash] on the key stored at an address,
    and [batch_op_drain_helper], which performs the first [n] operations of
    the batch and leaves their outcomes in [success_arr] (returned as the
    function from index to outcome).  [prefetch] has no visible effect. *)
Context {HashMap : Type}.
Variable get_hash : HashMap -> Z -> Z.
Variable batch_op_drain_helper :
  HashMap -> list bool -> list Z -> list Z -> list Z -> Z ->
  HashMap * (Z -> bool).

Variable b : Build.

(** [class ServerContext].  The pointer arrays hold addresses; an entry of
    [req_handle_arr] is kept together with the current contents of the
    handle it points to (a handle is with one handler invocation at a time,
    and between the handler and [enqueue_response] only the server writes to
    it).  [tx_responses] is the endpoint [c->rpc] as the server sees it: the
    handles passed to [enqueue_response], in order. *)
Record ServerContext : Type := mkServerContext {
  num_reqs_tot : Z;
  hashmap : HashMap;
  num_reqs_in_batch : Z;
  req_handle_arr : list ReqHandle;
  is_set_arr : list bool;
  key_ptr_arr : list Z;
  val_ptr_arr : list Z;
  keyhash_arr : list Z;
  stats_num_resps_tot : Z;
  tx_responses : list ReqHandle
}.

Definition set_num_reqs_tot (v : Z) (c : ServerContext) : ServerContext :=
  mkServerContext v (hashmap c) (num_reqs_in_batch c) (req_handle_arr c)
    (is_set_arr c) (key_ptr_arr c) (val_ptr_arr c) (keyhash_arr c)
    (stats_num_resps_tot c) (tx_responses c).

Definition set_hashmap (v : HashMap) (c : ServerContext) : ServerContext :=
  mkServerContext (num_reqs_tot c) v (num_reqs_in_batch c) (req_handle_arr c)
    (is_set_arr c) (key_ptr_arr c) (val_ptr_arr c) (keyhash_arr c)
    (stats_num_resps_tot c) (tx_responses c).

Definition set_num_reqs_in_batch (v : Z) (c : ServerContext)
    : ServerContext :=
  mkServerContext (num_reqs_tot c) (hashmap c) v (req_handle_arr c)
    (is_set_arr c) (key_ptr_arr c) (val_ptr_arr c) (keyhash_arr c)
    (stats_num_resps_tot c) (tx_responses c).

Definition set_req_handle_arr (v : list ReqHandle) (c : ServerContext)
    : ServerContext :=
  mkServerContext (num_reqs_tot c) (hashmap c) (num_reqs_in_batch c) v
    (is_set_arr c) (key_ptr_arr c) (val_ptr_arr c) (keyhash_arr c)
    (stats_num_resps_tot c) (tx_responses c).

Definition set_is_set_arr (v : list bool) (c : ServerContext)
    : ServerContext :=
  mkServerContext (num_reqs_tot c) (hashmap c) (num_reqs_in_batch c)
    (req_handle_arr c) v (key_ptr_arr c) (val_ptr_arr c) (keyhash_arr c)
    (stats_num_resps_tot c) (tx_responses c).

Definition set_key_ptr_arr (v : list Z) (c : ServerContext) : ServerContext :=
  mkServerContext (num_reqs_tot c) (hashmap c) (num_reqs_in_batch c)
    (req_handle_arr c) (is_set_arr c) v (val_ptr_arr c) (keyhash_arr c)
    (stats_num_resps_tot c) (tx_responses c).

Definition set_val_ptr_arr (v : list Z) (c : ServerContext) : ServerContext :=
  mkServerContext (num_reqs_tot c) (hashmap c) (num_reqs_in_batch c)
    (req_handle_arr c) (is_set_arr c) (key_ptr_arr c) v (keyhash_arr c)
    (stats_num_resps_tot c) (tx_responses c).

Definition set_keyhash_arr (v : list Z) (c : ServerContext) : ServerContext :=
  mkServerContext (num_reqs_tot c) (hashmap c) (num_reqs_in_batch c)
    (req_handle_arr c) (is_set_arr c) (key_ptr_arr c) (val_ptr_arr c) v
    (stats_num_resps_tot c) (tx_responses c).

Definition set_stats_num_resps_tot (v : Z) (c : ServerContext)
    : ServerContext :=
  mkServerContext (num_reqs_tot c) (hashmap c) (num_reqs_in_batch c)
    (req_handle_arr c) (is_set_arr c) (key_ptr_arr c) (val_ptr_arr c)
    (keyhash_arr c) v (tx_responses c).

Definition set_tx_responses (v : list ReqHandle) (c : ServerContext)
    : ServerContext :=
  mkServerContext (num_reqs_tot c) (hashmap c) (num_reqs_in_batch c)
    (req_handle_arr c) (is_set_arr c) (key_ptr_arr c) (val_ptr_arr c)
    (keyhash_arr c) (stats_num_resps_tot c) v.

(** [arr[i] = x] on one of the context's arrays. *)
Definition store_in {A} (arr : ServerContext -> list A)
    (set_arr : list A -> ServerContext -> ServerContext) (i : Z) (x : A)
    : M ServerContext unit :=
  c <- get ;;
  arr' <- store (arr c) i x ;;
  modify (set_arr arr').

(** Modelled from the spec: [Rpc::enqueue_response] is declared outside the
    embedded sources.  "enqueue_response(req_handle): server submit": the
    response held by the handle is submitted. *)
Definition enqueue_response (req_handle : ReqHandle) : M ServerContext unit :=
  modify (fun c => set_tx_responses (tx_responses c ++ [req_handle]) c).

(** The body of the loop of [drain_batch], for index [i]. *)
Definition drain_batch_body (success_arr : Z -> bool) (i : Z)
    : M ServerContext unit :=
  c <- get ;;
  req_handle <- index (req_handle_arr c) i ;;
  let req_handle := set_prealloc_used true req_handle in
  is_set <- index (is_set_arr c) i ;;
  let req_handle :=
    if is_set then
      (* SET request *)
      set_resp_word
        (Result_word (if success_arr i then kSetSuccess else kSetFail))
        (set_pre_resp_msgbuf
           (resize_msg_buffer (pre_resp_msgbuf req_handle) sizeof_Result)
           req_handle)
    else
      (* GET request *)
      if negb (success_arr i) then
        set_resp_word (Result_word kGetFail)
          (set_pre_resp_msgbuf
             (resize_msg_buffer (pre_resp_msgbuf req_handle) sizeof_Result)
             req_handle)
      else req_handle in
  (* the writes above went through the pointer: the entry holds them *)
  store_in req_handle_arr set_req_handle_arr i req_handle ;;
  enqueue_response req_handle.

(** [inline void drain_batch(ServerContext *c)]. *)
Definition drain_batch : M ServerContext unit :=
  c <- get ;;
  assert b (0 <? num_reqs_in_batch c) ;;
  let '(hashmap', success_arr) :=
    batch_op_drain_helper (hashmap c) (is_set_arr c) (keyhash_arr c)
      (key_ptr_arr c) (val_ptr_arr c) (num_reqs_in_batch c) in
  modify (set_hashmap hashmap') ;;
  for_each (drain_batch_body success_arr) (seqZ 0 (num_reqs_in_batch c)) ;;
  modify (fun c =>
    set_stats_num_resps_tot
      (to_size_t (stats_num_resps_tot c + num_reqs_in_batch c)) c) ;;
  modify (set_num_reqs_in_batch 0).

(** [req_handler] up to and including [c->num_reqs_in_batch++]. *)
Definition req_handler_record (req_handle : ReqHandle)
    : M ServerContext unit :=
  let req := req_msgbuf req_handle in
  let req_size := data_size req in
  let req_handle := set_prealloc_used true req_handle in
  let req_handle :=
    set_pre_resp_msgbuf
      (resize_msg_buffer (pre_resp_msgbuf req_handle) sizeof_Value)
      req_handle in
  let resp := pre_resp_msgbuf req_handle in
  batch_i <- gets num_reqs_in_batch ;;
  (* Common for both GETs and SETs *)
  let key := buf req in
  store_in req_handle_arr set_req_handle_arr batch_i req_handle ;;
  store_in key_ptr_arr set_key_ptr_arr batch_i key ;;
  h <- gets hashmap ;;
  store_in keyhash_arr set_keyhash_arr batch_i (get_hash h key) ;;
  (if req_size =? sizeof_Key then
     (* GET request *)
     store_in is_set_arr set_is_set_arr batch_i false ;;
     store_in val_ptr_arr set_val_ptr_arr batch_i (buf resp)
   else if req_size =? sizeof_Key + sizeof_Value then
     (* PUT request *)
     store_in is_set_arr set_is_set_arr batch_i true ;;
     store_in val_ptr_arr set_val_ptr_arr batch_i (buf req + sizeof_Key)
   else assert b false) ;;
  (* Tracking *)
  modify (fun c => set_num_reqs_tot (to_size_t (num_reqs_tot c + 1)) c) ;;
  modify (fun c =>
    set_num_reqs_in_batch (to_size_t (num_reqs_in_batch c + 1)) c).

(** [void req_handler(erpc::ReqHandle *req_handle, void *_context)]. *)
Definition req_handler (req_handle : ReqHandle) : M ServerContext unit :=
  req_handler_record req_handle ;;
  n <- gets num_reqs_in_batch ;;
  if n =? kAppMaxServerBatch then drain_batch else ret tt.

(** Modelled from the spec: [Rpc::run_event_loop_once] is outside the
    embedded sources.  Section 4.5, server handle: for each request that has
    arrived in full, the endpoint "invokes [the handler] inline on the
    datapath thread"; [arrivals] are the handles of the requests that
    complete in this iteration, in order. *)
Definition run_event_loop_once (arrivals : list ReqHandle)
    : M ServerContext unit :=
  for_each req_handler arrivals.

(** The body of the inner loop of [server_func]. *)
Definition server_loop_body (arrivals : list ReqHandle)
    : M ServerContext unit :=
  num_reqs_tot_start <- gets num_reqs_tot ;;
  run_event_loop_once arrivals ;;
  c <- get ;;
  (* If no new requests were received in this iteration of the event loop,
     and we have responses to send, send them now. *)
  if (num_reqs_tot c =? num_reqs_tot_start) && (0 <? num_reqs_in_batch c)
  then drain_batch
  else ret tt.

(** One pass of the outer loop of [server_func]: the statistics are reset,
    the inner loop runs for a second ([iterations] are the arrivals of its
    iterations, as many as the cycle counter lets through), the rates are
    printed and the statistics reset again. *)
Definition server_second (iterations : list (list ReqHandle))
    : M ServerContext unit :=
  modify (set_stats_num_resps_tot 0) ;;
  for_each server_loop_body iterations ;;
  modify (set_stats_num_resps_tot 0).

(** [server_func] from the construction of the endpoint on: the outer loop
    runs until ctrl-c; [seconds] lists its passes. *)
Definition server_func (seconds : list (list (list ReqHandle)))
    : M ServerContext unit :=
  for_each server_second seconds.

(** The context as [server_func] has it when the loop starts: the counters
    at their default 0, the arrays with [kAppMaxServerBatch] entries of
    whatever they happen to hold, nothing submitted yet. *)
Definition initial_context (c : ServerContext) : Prop :=
  num_reqs_tot c = 0 /\ num_reqs_in_batch c = 0 /\
  stats_num_resps_tot c = 0 /\ tx_responses c = [] /\
  Z.of_nat (length (req_handle_arr c)) = kAppMaxServerBatch /\
  Z.of_nat (length (is_set_arr c)) = kAppMaxServerBatch /\
  Z.of_nat (length (key_ptr_arr c)) = kAppMaxServerBatch /\
  Z.of_nat (length (val_ptr_arr c)) = kAppMaxServerBatch /\
  Z.of_nat (length (keyhash_arr c)) = kAppMaxServerBatch.

(** The requests accumulated in the batch: the first [num_reqs_in_batch]
    entries of [req_handle_arr]. *)
Definition batch (c : ServerContext) : list ReqHandle :=
  take (Z.to_nat (num_reqs_in_batch c)) (req_handle_arr c).

(** The handle as [req_handler] leaves it in the batch. *)
Definition recorded (req_handle : ReqHandle) : ReqHandle :=
  set_pre_resp_msgbuf
    (resize_msg_buffer (pre_resp_msgbuf (set_prealloc_used true req_handle))
       sizeof_Value)
    (set_prealloc_used true req_handle).

(** The five per-batch arrays have [kAppMaxServerBatch] entries each. *)
Definition arrays_ok (c : ServerContext) : Prop :=
  Z.of_nat (length (req_handle_arr c)) = kAppMaxServerBatch /\
  Z.of_nat (length (is_set_arr c)) = kAppMaxServerBatch /\
  Z.of_nat (length (key_ptr_arr c)) = kAppMaxServerBatch /\
  Z.of_nat (length (val_ptr_arr c)) = kAppMaxServerBatch /\
  Z.of_nat (length (keyhash_arr c)) = kAppMaxServerBatch.

(** The state between two steps of the server thread: the arrays are
    whole, the batch is not full, the request counter is a [size_t]. *)
Definition ctx_ok (c : ServerContext) : Prop :=
  arrays_ok c /\
  0 <= num_reqs_in_batch c < kAppMaxServerBatch /\
  0 <= num_reqs_tot c < size_t_mod.

(** A request of the size of a GET or of a SET. *)
Definition valid_req (req_handle : ReqHandle) : bool :=
  (data_size (req_msgbuf req_handle) =? sizeof_Key) ||
  (data_size (req_msgbuf req_handle) =? sizeof_Key + sizeof_Value).

(** The end of the loop body of [server_func], after the event loop has
    returned; [num_reqs_tot_start] is the counter remembered before it. *)
Definition loop_end (num_reqs_tot_start : Z) : M ServerContext unit :=
  c <- get ;;
  if (num_reqs_tot c =? num_reqs_tot_start) && (0 <? num_reqs_in_batch c)
  then drain_batch
  else ret tt.

(** The states of the context in which the endpoint can invoke
    [req_handler]: the initial one, and those that follow a reachable state
    by a return of [req_handler], by a pass through the end of the loop body
    of [server_func] ([loop_end], with [s] the counter remembered at the
    start of the iteration) or by a reset of the statistics. *)
Inductive reachable : ServerContext -> Prop :=
| reach_init c : initial_context c -> reachable c
| reach_req_handler c req_handle c' :
    reachable c -> req_handler req_handle c = (Ok tt, c') -> reachable c'
| reach_loop_end c s c' :
    reachable c -> loop_end s c = (Ok tt, c') -> reachable c'
| reach_stats_reset c :
    reachable c -> reachable (set_stats_num_resps_tot 0 c).

End Server.

(** *** What the server has received and what it has answered *)

(** The handle as [drain_batch] submits it, for an operation with outcome
    [success] on an entry flagged [is_set]. *)
Definition response_of (success is_set : bool) (req_handle : ReqHandle)
    : ReqHandle :=
  let req_handle := set_prealloc_used true req_handle in
  if is_set then
    set_resp_word
      (Result_word (if success then kSetSuccess else kSetFail))
      (set_pre_resp_msgbuf
         (resize_msg_buffer (pre_resp_msgbuf req_handle) sizeof_Result)
         req_handle)
  else if negb success then
    set_resp_word (Result_word kGetFail)
      (set_pre_resp_msgbuf
         (resize_msg_buffer (pre_resp_msgbuf req_handle) sizeof_Result)
         req_handle)
  else req_handle.

(** The request of a handle is a SET: it carries a key and a value. *)
Definition is_set_req (req_handle : ReqHandle) : bool :=
  data_size (req_msgbuf req_handle) =? sizeof_Key + sizeof_Value.

(** The response types as the client tells them apart ("We use response
    size to distinguish between response types"): a SET is answered by a
    [Result] ([kSetSuccess] or [kSetFail]) of [sizeof(Result)] bytes; a GET
    by a value of [sizeof(Value)] bytes, or by the [Result] [kGetFail]. *)
Definition well_formed_response (resp : ReqHandle) : Prop :=
  prealloc_used resp = true /\
  if is_set_req resp then
    data_size (pre_resp_msgbuf resp) = sizeof_Result /\
    (resp_word resp = Some (Result_word kSetSuccess) \/
     resp_word resp = Some (Result_word kSetFail))
  else
    data_size (pre_resp_msgbuf resp) = sizeof_Value \/
    data_size (pre_resp_msgbuf resp) = sizeof_Result /\
    resp_word resp = Some (Result_word kGetFail).

(** Entry [i] of the batch is as [req_handler] leaves it for a request of
    valid size. *)
Definition entry_recorded {HashMap : Type} (c : @ServerContext HashMap)
    (i : nat) : Prop :=
  exists rh,
    req_handle_arr c !! i = Some rh /\
    is_set_arr c !! i = Some (is_set_req rh) /\
    valid_req rh = true /\
    data_size (pre_resp_msgbuf rh) = sizeof_Value.

Definition batch_recorded {HashMap : Type} (c : @ServerContext HashMap)
    : Prop :=
  forall i, (i < Z.to_nat (num_reqs_in_batch c))%nat -> entry_recorded c i.

(** The value pointer that [req_handler] records for a request: for a SET
    the value in the request, behind the key; for a GET the response
    buffer, into which the table copies the value. *)
Definition value_ptr (rh : ReqHandle) : Z :=
  if is_set_req rh then buf (req_msgbuf rh) + sizeof_Key
  else buf (pre_resp_msgbuf rh).

(** Entry [i] of the five batch arrays belongs to one request: the flag,
    the key pointer, the value pointer and the key hash are those of the
    request whose handle is in [req_handle_arr]. *)
Definition entry_consistent {HashMap : Type} (get_hash : HashMap -> Z -> Z)
    (c : @ServerContext HashMap) (i : nat) : Prop :=
  exists rh,
    req_handle_arr c !! i = Some rh /\
    is_set_arr c !! i = Some (is_set_req rh) /\
    key_ptr_arr c !! i = Some (buf (req_msgbuf rh)) /\
    val_ptr_arr c !! i = Some (value_ptr rh) /\
    keyhash_arr c !! i = Some (get_hash (hashmap c) (buf (req_msgbuf rh))).

Definition batch_consistent {HashMap : Type} (get_hash : HashMap -> Z -> Z)
    (c : @ServerContext HashMap) : Prop :=
  forall i, (i < Z.to_nat (num_reqs_in_batch c))%nat ->
    entry_consistent get_hash c i.

(** The server between two steps, with a batch of recorded requests and
    only well-formed answers submitted so far. *)
Definition served_ok {HashMap : Type} (c : @ServerContext HashMap) : Prop :=
  ctx_ok c /\ batch_recorded c /\
  Forall well_formed_response (tx_responses c).

(** The response counter of the statistics agrees with the number of
    responses submitted, counted from [base] on. *)
Definition responses_counted {HashMap : Type} (base : Z)
    (c : @ServerContext HashMap) : Prop :=
  stats_num_resps_tot c
  = to_size_t (Z.of_nat (length (tx_responses c)) - base).

(** The requests seen so far, by the address of their handle: those answered,
    in the order of the answers, then those waiting in the batch. *)
Definition history {HashMap : Type} (c : @ServerContext HashMap) : list Z :=
  map handle_addr (tx_responses c) ++ map handle_addr (batch c).

(** *** Populating the table *)

(** How the last loop of the body of [populate] ends: by the [return] inside
    it, or with the loop done and the new value of [num_success]. *)
Inductive LoopExit : Type :=
| Return (ret_ : Z)
| Continue (num_success : Z).

Section Populate.

(** [pmica::kMaxBatchSize], [erpc::round_up<pmica::kMaxBatchSize>] and
    [HashMap::batch_op_drain] are outside the embedded sources and are
    parameters, as is the flag.  [batch_op_drain] gets the table,
    [is_set_arr], the first fragments of the keys and of the values behind
    the two pointer arrays (the other fragments are zero, as the
    constructors leave them) and the number of operations; it gives back
    the table and [success_arr]. *)
Context {HashMap : Type}.
Variable kMaxBatchSize : Z.
Variable round_up : Z -> Z.
Variable batch_op_drain :
  HashMap -> list bool -> list Z -> list Z -> Z -> HashMap * (Z -> bool).
Variable FLAGS_keys_per_server_thread : Z.

(** [for (size_t j = 0; j < pmica::kMaxBatchSize; j++) { num_success +=
    success_arr[j]; if (!success_arr[j]) return num_success; }], over the
    indices [js]. *)
Fixpoint count_successes (success_arr : Z -> bool) (js : list Z)
    (num_success : Z) : LoopExit :=
  match js with
  | [] => Continue num_success
  | j :: js' =>
      let num_success := to_size_t (num_success + Z.b2z (success_arr j)) in
      if negb (success_arr j) then Return num_success
      else count_successes success_arr js' num_success
  end.

(** The loop over the batches, from [i] on, for at most [fuel] rounds
    ([None] when they do not suffice).  [out] collects the values of [i] at
    which the progress is printed. *)
Fixpoint populate_loop (num_keys_to_insert : Z) (fuel : nat)
    (i num_success progress_console_lim : Z) (hashmap : HashMap)
    (out : list Z) : option (Z * HashMap * list Z) :=
  match fuel with
  | O => None
  | S fuel' =>
      if i <=? num_keys_to_insert then
        let keys :=
          map (fun j => to_size_t (i + j)) (seqZ 0 kMaxBatchSize) in
        let is_set_arr := replicate (Z.to_nat kMaxBatchSize) true in
        let '(hashmap', success_arr) :=
          batch_op_drain hashmap is_set_arr keys keys kMaxBatchSize in
        let '(out', progress_console_lim') :=
          if progress_console_lim <=? i then
            (out ++ [i],
             to_size_t (progress_console_lim + num_keys_to_insert / 10))
          else (out, progress_console_lim) in
        match count_successes success_arr (seqZ 0 kMaxBatchSize)
                num_success with
        | Return ret_ => Some (ret_, hashmap', out')
        | Continue num_success' =>
            populate_loop num_keys_to_insert fuel'
              (to_size_t (i + kMaxBatchSize)) num_success'
              progress_console_lim' hashmap' out'
        end
      else Some (num_keys_to_insert, hashmap, out)  (* All keys were added *)
  end.

(** [size_t populate(HashMap *hashmap, size_t thread_id)]: the result, the
    table and the progress lines. *)
Definition populate (fuel : nat) (hashmap : HashMap)
    : option (Z * HashMap * list Z) :=
  let num_keys_to_insert := round_up FLAGS_keys_per_server_thread in
  let progress_console_lim := num_keys_to_insert / 10 in
  populate_loop num_keys_to_insert fuel 1 0 progress_console_lim hashmap [].

End Populate.

(** A table for the examples that has room for the keys up to [limit]
    only: the state is the list of the keys it holds. *)
Definition example_batch_op_drain (limit : Z) (held : list Z)
    (_ : list bool) (keys _ : list Z) (n : Z) : list Z * (Z -> bool) :=
  (held ++ List.filter (fun k => k <=? limit) (take (Z.to_nat n) keys),
   fun j =>
     match keys !! Z.to_nat j with
     | Some k => k <=? limit
     | None => false
     end).

(** *** The client *)

(** [static constexpr size_t kAppReqType = 1] and
    [kAppMaxWindowSize = 32]. *)
Definition kAppReqType : Z := 1.
Definition kAppMaxWindowSize : Z := 32.

Inductive Workload : Type := kGets | kSets | k5050.

(** [fastrange64]: the high 64 bits of the 128-bit product. *)
Definition fastrange64 (rand n : Z) : Z :=
  to_size_t (Z.shiftr ((rand * n) mod 2 ^ 128) 64).

(** [class ClientContext], with the members that [send_req] and
    [app_cont_func] use.  A request buffer is kept with the key word that
    [send_req] writes into it ([req_key]; the value word is the same).  The
    cycle counter and the latency histogram are not modelled.  [released]
    lists the handles given to [release_response]. *)
Record ClientContext : Type := mkClientContext {
  cl_rpc : Rpc;
  cl_num_resps : Z;
  workload : Workload;
  key_arr : list Z;
  cl_is_set_arr : list bool;
  cl_req_msgbuf : list MsgBuffer;
  req_key : list Z;
  cl_resp_msgbuf : list MsgBuffer;
  num_get_reqs : Z;
  num_get_success : Z;
  num_set_reqs : Z;
  num_set_success : Z;
  cl_released : list RespHandle
}.

Definition cl_set_rpc (v : Rpc) (c : ClientContext) : ClientContext :=
  mkClientContext v (cl_num_resps c) (workload c) (key_arr c)
    (cl_is_set_arr c) (cl_req_msgbuf c) (req_key c) (cl_resp_msgbuf c)
    (num_get_reqs c) (num_get_success c) (num_set_reqs c)
    (num_set_success c) (cl_released c).

Definition cl_set_num_resps (v : Z) (c : ClientContext) : ClientContext :=
  mkClientContext (cl_rpc c) v (workload c) (key_arr c)
    (cl_is_set_arr c) (cl_req_msgbuf c) (req_key c) (cl_resp_msgbuf c)
    (num_get_reqs c) (num_get_success c) (num_set_reqs c)
    (num_set_success c) (cl_released c).

Definition cl_set_key_arr (v : list Z) (c : ClientContext) : ClientContext :=
  mkClientContext (cl_rpc c) (cl_num_resps c) (workload c) v
    (cl_is_set_arr c) (cl_req_msgbuf c) (req_key c) (cl_resp_msgbuf c)
    (num_get_reqs c) (num_get_success c) (num_set_reqs c)
    (num_set_success c) (cl_released c).

Definition cl_set_is_set_arr (v : list bool) (c : ClientContext)
    : ClientContext :=
  mkClientContext (cl_rpc c) (cl_num_resps c) (workload c) (key_arr c)
    v (cl_req_msgbuf c) (req_key c) (cl_resp_msgbuf c)
    (num_get_reqs c) (num_get_success c) (num_set_reqs c)
    (num_set_success c) (cl_released c).

Definition cl_set_req_msgbuf (v : list MsgBuffer) (c : ClientContext)
    : ClientContext :=
  mkClientContext (cl_rpc c) (cl_num_resps c) (workload c) (key_arr c)
    (cl_is_set_arr c) v (req_key c) (cl_resp_msgbuf c)
    (num_get_reqs c) (num_get_success c) (num_set_reqs c)
    (num_set_success c) (cl_released c).

Definition cl_set_req_key (v : list Z) (c : ClientContext) : ClientContext :=
  mkClientContext (cl_rpc c) (cl_num_resps c) (workload c) (key_arr c)
    (cl_is_set_arr c) (cl_req_msgbuf c) v (cl_resp_msgbuf c)
    (num_get_reqs c) (num_get_success c) (num_set_reqs c)
    (num_set_success c) (cl_released c).

Definition cl_set_stats (gr gs sr ss : Z) (c : ClientContext)
    : ClientContext :=
  mkClientContext (cl_rpc c) (cl_num_resps c) (workload c) (key_arr c)
    (cl_is_set_arr c) (cl_req_msgbuf c) (req_key c) (cl_resp_msgbuf c)
    gr gs sr ss (cl_released c).

Definition cl_release_response (h : RespHandle) : M ClientContext unit :=
  modify (fun c =>
    mkClientContext (cl_rpc c) (cl_num_resps c) (workload c) (key_arr c)
      (cl_is_set_arr c) (cl_req_msgbuf c) (req_key c) (cl_resp_msgbuf c)
      (num_get_reqs c) (num_get_success c) (num_set_reqs c)
      (num_set_success c) (cl_released c ++ [h])).

Definition cl_on_rpc {A} (m : M Rpc A) : M ClientContext A :=
  fun c => let (o, r') := m (cl_rpc c) in (o, cl_set_rpc r' c).

(** [arr[i] = x] on one of the client's arrays. *)
Definition cl_store_in {A} (arr : ClientContext -> list A)
    (set_arr : list A -> ClientContext -> ClientContext) (i : Z) (x : A)
    : M ClientContext unit :=
  c <- get ;;
  arr' <- store (arr c) i x ;;
  modify (set_arr arr').

(** What a call draws from outside: the two values of the random generator
    [c.pcg()] (the first is drawn for the 50/50 workload only) and the
    session that [fast_get_rand_session_num] picks. *)
Record Draw : Type := mkDraw {
  rand_is_set : Z;
  rand_key : Z;
  rand_session_num : Z
}.

Section Client.

Variable b : Build.
Variable cfg : Config.

(** [FLAGS_keys_per_server_thread] and the identity of the function
    [app_cont_func]. *)
Variable FLAGS_keys_per_server_thread : Z.
Variable app_cont_func_id : nat.

(** [inline void send_req(ClientContext &c, size_t ws_i)], run by thread
    [tid].  The result of [enqueue_request] is not looked at. *)
Definition send_req (tid : nat) (d : Draw) (ws_i : Z)
    : M ClientContext unit :=
  c <- get ;;
  req <- index (cl_req_msgbuf c) ws_i ;;
  let is_set :=
    match workload c with
    | kGets => false
    | kSets => true
    | k5050 => rand_is_set d mod 2 =? 0
    end in
  cl_store_in cl_is_set_arr cl_set_is_set_arr ws_i is_set ;;
  modify (fun c =>
    if is_set then
      cl_set_stats (num_get_reqs c) (num_get_success c)
        (to_size_t (num_set_reqs c + 1)) (num_set_success c) c
    else
      cl_set_stats (to_size_t (num_get_reqs c + 1)) (num_get_success c)
        (num_set_reqs c) (num_set_success c) c) ;;
  let key :=
    to_size_t (1 + fastrange64 (rand_key d) FLAGS_keys_per_server_thread) in
  cl_store_in req_key cl_set_req_key ws_i key ;;
  cl_store_in key_arr cl_set_key_arr ws_i key ;;
  let req_size :=
    if is_set then sizeof_Key + sizeof_Value else sizeof_Key in
  let req := resize_msg_buffer req req_size in
  cl_store_in cl_req_msgbuf cl_set_req_msgbuf ws_i req ;;
  (* Send request to a random server *)
  c <- get ;;
  resp <- index (cl_resp_msgbuf c) ws_i ;;
  cl_on_rpc (enqueue_request cfg tid (rand_session_num d) kAppReqType
               req resp app_cont_func_id ws_i) ;;
  ret tt.

(** [void app_cont_func(erpc::RespHandle *resp_handle, void *_context,
    size_t ws_i)]; [first_word] is the first word of the response payload
    (a [Result] or the first fragment of a value). *)
Definition app_cont_func (tid : nat) (d : Draw) (first_word : Z)
    (resp_handle : RespHandle) (ws_i : Z) : M ClientContext unit :=
  let resp := rh_resp_msgbuf resp_handle in
  c <- get ;;
  is_set <- index (cl_is_set_arr c) ws_i ;;
  (if is_set then
     (* SET response *)
     assert b (data_size resp =? sizeof_Result) ;;
     if first_word =? Result_word kSetSuccess then
       modify (fun c =>
         cl_set_stats (num_get_reqs c) (num_get_success c) (num_set_reqs c)
           (to_size_t (num_set_success c + 1)) c)
     else ret tt
   else
     (* GET response *)
     assert b ((data_size resp =? sizeof_Value)
               || (data_size resp =? sizeof_Result)) ;;
     if data_size resp =? sizeof_Value then
       (if kDatapathChecks b then
          key <- index (key_arr c) ws_i ;;
          assert b (first_word =? key)
        else ret tt) ;;
       modify (fun c =>
         cl_set_stats (num_get_reqs c) (to_size_t (num_get_success c + 1))
           (num_set_reqs c) (num_set_success c) c)
     else ret tt) ;;
  cl_release_response resp_handle ;;
  modify (fun c => cl_set_num_resps (to_size_t (cl_num_resps c + 1)) c) ;;
  send_req tid d ws_i.  (* Clock the used window slot *)

End Client.

Definition cl_set_resp_msgbuf (v : list MsgBuffer) (c : ClientContext)
    : ClientContext :=
  mkClientContext (cl_rpc c) (cl_num_resps c) (workload c) (key_arr c)
    (cl_is_set_arr c) (cl_req_msgbuf c) (req_key c) v
    (num_get_reqs c) (num_get_success c) (num_set_reqs c)
    (num_set_success c) (cl_released c).

(** Modelled from the spec: [Rpc::alloc_msg_buffer_or_die] is outside the
    embedded sources.  "alloc_msg_buffer(max_size): MsgBuffer": a buffer
    for payloads of up to [max_size] bytes, with this payload size; [addr]
    is the address that the allocator picks. *)
Definition alloc_msg_buffer_or_die (addr : Z) (max_size : Z) : MsgBuffer :=
  mkMsgBuffer addr max_size max_size.

Section ClientFunc.

Variable cfg : Config.
Variable FLAGS_keys_per_server_thread : Z.
Variable FLAGS_window_size : Z.
Variable app_cont_func_id : nat.

(** The loop of [client_func] that fills the window,
    [for (size_t i = 0; i < FLAGS_window_size; i++)], and its body, with
    what each round draws from the random generator ([draws]) and from the
    allocator ([addrs]: the addresses of the request and of the response
    buffer). *)
Definition client_func_round (tid : nat) (draws : Z -> Draw)
    (addrs : Z -> Z * Z) (i : Z) : M ClientContext unit :=
  cl_store_in cl_req_msgbuf cl_set_req_msgbuf i
    (alloc_msg_buffer_or_die (fst (addrs i)) (sizeof_Key + sizeof_Value)) ;;
  cl_store_in cl_resp_msgbuf cl_set_resp_msgbuf i
    (alloc_msg_buffer_or_die (snd (addrs i)) (sizeof_Key + sizeof_Value)) ;;
  send_req cfg FLAGS_keys_per_server_thread app_cont_func_id tid (draws i) i.

Definition client_func_window (tid : nat) (draws : Z -> Draw)
    (addrs : Z -> Z * Z) : M ClientContext unit :=
  for_each (client_func_round tid draws addrs) (seqZ 0 FLAGS_window_size).

End ClientFunc.

(** The arrays of [ClientContext] have [kAppMaxWindowSize] entries each. *)
Definition client_arrays_ok (c : ClientContext) : Prop :=
  Z.of_nat (length (key_arr c)) = kAppMaxWindowSize /\
  Z.of_nat (length (cl_is_set_arr c)) = kAppMaxWindowSize /\
  Z.of_nat (length (cl_req_msgbuf c)) = kAppMaxWindowSize /\
  Z.of_nat (length (req_key c)) = kAppMaxWindowSize /\
  Z.of_nat (length (cl_resp_msgbuf c)) = kAppMaxWindowSize.

(** Window slot [i] holds a request as [send_req] forms it, for [keys]
    keys, in a buffer allocated by [client_func]. *)
Definition slot_formed (keys : Z) (i : nat) (c : ClientContext) : Prop :=
  exists (is_set : bool) (key : Z) (req : MsgBuffer),
    cl_is_set_arr c !! i = Some is_set /\
    key_arr c !! i = Some key /\ 1 <= key <= keys /\
    cl_req_msgbuf c !! i = Some req /\
    max_data_size req = sizeof_Key + sizeof_Value /\
    data_size req
      = (if is_set then sizeof_Key + sizeof_Value else sizeof_Key).

(** The window slot [ws_i] is within the client's arrays. *)
Definition window_slot_ok (ws_i : Z) (c : ClientContext) : Prop :=
  0 <= ws_i /\
  ws_i < Z.of_nat (length (cl_req_msgbuf c)) /\
  ws_i < Z.of_nat (length (cl_resp_msgbuf c)) /\
  ws_i < Z.of_nat (length (cl_is_set_arr c)) /\
  ws_i < Z.of_nat (length (key_arr c)) /\
  ws_i < Z.of_nat (length (req_key c)).

(** What the assertions of [app_cont_func] ask of a response: a SET is
    answered by [sizeof(Result)] bytes; a GET by [sizeof(Value)] bytes that
    start with the key, or by [sizeof(Result)] bytes. *)
Definition response_accepted (is_set : bool) (key first_word : Z)
    (resp : MsgBuffer) : bool :=
  if is_set then data_size resp =? sizeof_Result
  else
    ((data_size resp =? sizeof_Value) || (data_size resp =? sizeof_Result))
    && (if data_size resp =? sizeof_Value then first_word =? key else true).

(** A small instance used in the examples: a hash table without state in
    which every operation succeeds, a SET request, and the context at the
    start of [server_func]. *)
Definition example_get_hash (_ : unit) (key : Z) : Z := key.

Definition example_helper (h : unit) (_ : list bool) (_ _ _ : list Z) (_ : Z)
    : unit * (Z -> bool) :=
  (h, fun _ => true).

Definition example_handle (addr : Z) : ReqHandle :=
  mkReqHandle addr (mkMsgBuffer (addr + 64) 1024 48)
    (mkMsgBuffer (addr + 2048) 1024 1024) false None.

(** A client with a window of two, sending SETs. *)
Definition example_kv_client : ClientContext :=
  mkClientContext example_rpc 0 kSets [0; 0] [false; false]
    [mkMsgBuffer 8192 64 48; mkMsgBuffer 8256 64 48] [0; 0]
    [mkMsgBuffer 12288 64 48; mkMsgBuffer 12352 64 48] 0 0 0 0 [].

Definition example_draw : Draw := mkDraw 0 (2 ^ 63) 0.

(** A client of the 50/50 workload before [client_func] fills its window:
    the arrays have their [kAppMaxWindowSize] entries. *)
Definition example_fresh_client : ClientContext :=
  mkClientContext example_rpc 0 k5050 (replicate 32 0) (replicate 32 false)
    (replicate 32 (mkMsgBuffer 0 0 0)) (replicate 32 0)
    (replicate 32 (mkMsgBuffer 0 0 0)) 0 0 0 0 [].


Definition example_context : ServerContext :=
  mkServerContext 0 tt 0
    (replicate 16 (example_handle 0)) (replicate 16 false)
    (replicate 16 0) (replicate 16 0) (replicate 16 0) 0 [].

End PersistentKv.
(* ===================================================================== *)
(** * Theorems *)
(* ===================================================================== *)

(** ** Arrays, vectors and pointers *)

Lemma index_lookup {S A} (v : list A) (i : Z) (x : A) (s : S) :
  0 <= i -> v !! Z.to_nat i = Some x -> index v i s = (Ok x, s).
Proof.
  intros Hi Hx. unfold index.
  pose proof (lookup_lt_Some _ _ _ Hx) as Hlt.
  assert (Hb : (0 <=? i) && (i <? Z.of_nat (length v)) = true).
  { apply andb_true_iff. split; [apply Z.leb_le | apply Z.ltb_lt]; lia. }
  rewrite Hb, Hx. reflexivity.
Qed.

Lemma index_Ok_inv {S A} (v : list A) (i : Z) (x : A) (s s' : S) :
  index v i s = (Ok x, s') ->
  0 <= i < Z.of_nat (length v) /\ v !! Z.to_nat i = Some x /\ s' = s.
Proof.
  unfold index. destruct ((0 <=? i) && (i <? Z.of_nat (length v))) eqn:Hb.
  - apply andb_true_iff in Hb as [H0 H1].
    apply Z.leb_le in H0. apply Z.ltb_lt in H1.
    destruct (v !! Z.to_nat i) eqn:Hl; cbn; intros [= <- <-]; auto.
  - cbn. discriminate.
Qed.

Lemma store_in_range {S A} (v : list A) (i : Z) (x : A) (s : S) :
  0 <= i < Z.of_nat (length v) ->
  store v i x s = (Ok (<[Z.to_nat i := x]> v), s).
Proof.
  intros Hi. unfold store.
  assert (Hb : (0 <=? i) && (i <? Z.of_nat (length v)) = true).
  { apply andb_true_iff. split; [apply Z.leb_le | apply Z.ltb_lt]; lia. }
  rewrite Hb. reflexivity.
Qed.

(** ** Fault injection (rpc_fault_inject.cc) *)

Module FaultInjectFacts.
Import ERpc.

Lemma check_ok_pass b tid r :
  kFaultInjection b = true -> in_creator tid r = true ->
  fault_inject_check_ok b tid r = (Ok tt, r).
Proof.
  intros Hf Hc. unfold fault_inject_check_ok, bind, gets.
  rewrite Hf. cbn. rewrite Hc. reflexivity.
Qed.

Lemma check_ok_fail b tid r :
  kFaultInjection b = false \/ tid <> creator_tid r ->
  exists e, FAULT_INJECTION_FORBIDDEN e /\
            fault_inject_check_ok b tid r = (Throw e, r).
Proof.
  intros H. unfold fault_inject_check_ok, bind, gets.
  destruct (kFaultInjection b) eqn:Hf; cbn.
  - destruct H as [H | H]; [discriminate |].
    unfold in_creator. apply Nat.eqb_neq in H. rewrite H. cbn.
    exists non_creator_thread. split; [right |]; reflexivity.
  - exists fault_injection_disabled. split; [left |]; reflexivity.
Qed.

Lemma check_ok_inv b tid r o r' :
  fault_inject_check_ok b tid r = (o, r') ->
  r' = r /\
  (o = Ok tt /\ kFaultInjection b = true /\ in_creator tid r = true \/
   exists e, o = Throw e /\ FAULT_INJECTION_FORBIDDEN e).
Proof.
  unfold fault_inject_check_ok, bind, gets.
  destruct (kFaultInjection b) eqn:Hf; cbn.
  - destruct (in_creator tid r) eqn:Hc; cbn; intros [= <- <-]; split; auto.
    right. exists non_creator_thread. split; [| right]; reflexivity.
  - intros [= <- <-]. split; auto.
    right. exists fault_injection_disabled. split; [| left]; reflexivity.
Qed.

Lemma to_size_t_int_nonneg z : 0 <= z <= INT_MAX -> to_size_t z = z.
Proof.
  unfold to_size_t, size_t_mod, INT_MAX. intros H.
  apply Z.mod_small. lia.
Qed.

Lemma drop_tx_remote_session_op b tid sn n :
  fault_inject_drop_tx_remote_st b tid sn n =
  session_op b tid sn (fun s => is_connected s && is_client s)
    (fun s => enqueue_sm_req_st s kFaultDropTxRemote n).
Proof. reflexivity. Qed.

Lemma reset_remote_epeer_session_op b tid sn :
  fault_inject_reset_remote_epeer_st b tid sn =
  session_op b tid sn (fun s => is_client s && is_connected s)
    (fun s => enqueue_sm_req_st s kFaultResetPeerReq 0).
Proof. reflexivity. Qed.

Lemma session_op_forbidden b tid sn chk k r :
  kFaultInjection b = false \/ tid <> creator_tid r ->
  exists e, FAULT_INJECTION_FORBIDDEN e /\
            session_op b tid sn chk k r = (Throw e, r).
Proof.
  intros H. destruct (check_ok_fail b tid r H) as (e & He & Hrun).
  exists e. split; [exact He |].
  unfold session_op, bind at 1. rewrite Hrun. reflexivity.
Qed.

(** With the session argument valid, no assertion fires and the operation
    reaches [k], whatever the setting of the checks. *)
Lemma session_op_valid b tid sn chk k r s :
  kFaultInjection b = true -> in_creator tid r = true ->
  INT_MIN <= sn <= INT_MAX ->
  is_usr_session_num_in_range sn r = true ->
  session_vec r !! Z.to_nat sn = Some (Some s) ->
  chk s = true ->
  session_op b tid sn chk k r = k s r.
Proof.
  intros Hf Hc Hint Hr Hl Hchk.
  unfold is_usr_session_num_in_range in Hr.
  apply andb_true_iff in Hr as [H0 H1]. apply Z.leb_le in H0.
  unfold session_op, bind, gets, assert.
  rewrite (check_ok_pass _ _ _ Hf Hc).
  unfold is_usr_session_num_in_range.
  assert (Hr : (0 <=? sn) && (sn <? Z.of_nat (length (session_vec r))) = true).
  { apply andb_true_iff. split; [apply Z.leb_le |]; assumption. }
  rewrite Hr, to_size_t_int_nonneg by lia.
  assert (Hnn : bool_decide (Some s <> None) = true)
    by (apply bool_decide_eq_true_2; discriminate).
  destruct (kDatapathChecks b); cbn -[index];
    rewrite (index_lookup _ _ _ _ H0 Hl); cbn -[bool_decide];
    rewrite ?Hnn, ?Hchk; reflexivity.
Qed.

(** With the checks on, an invalid session argument stops at an assertion,
    before anything is written. *)
Lemma session_op_abort b tid sn chk k r :
  kFaultInjection b = true -> in_creator tid r = true ->
  kDatapathChecks b = true ->
  INT_MIN <= sn <= INT_MAX ->
  (is_usr_session_num_in_range sn r &&
    match session_vec r !! Z.to_nat sn with
    | Some (Some s) => chk s
    | _ => false
    end) = false ->
  session_op b tid sn chk k r = (Abort, r).
Proof.
  intros Hf Hc Hk Hint Hpre.
  unfold session_op, bind, gets, assert.
  rewrite (check_ok_pass _ _ _ Hf Hc), Hk.
  destruct (is_usr_session_num_in_range sn r) eqn:Hr; [| reflexivity].
  cbn in Hpre. unfold is_usr_session_num_in_range in Hr.
  apply andb_true_iff in Hr as [H0 H1].
  apply Z.leb_le in H0. apply Z.ltb_lt in H1.
  rewrite to_size_t_int_nonneg by lia.
  destruct (lookup_lt_is_Some_2 (session_vec r) (Z.to_nat sn)) as [p Hp];
    [lia |].
  cbn -[index]. rewrite (index_lookup _ _ _ _ H0 Hp). rewrite Hp in Hpre.
  destruct p as [s |].
  - rewrite bool_decide_eq_true_2 by discriminate. cbn. rewrite Hpre.
    reflexivity.
  - rewrite bool_decide_eq_false_2 by (intros H; apply H; reflexivity).
    reflexivity.
Qed.

(** Whenever the operation returns normally it has reached [k] on the
    session stored at the given number, with the endpoint as it was. *)
Lemma session_op_Ok_inv b tid sn chk k r r' :
  session_op b tid sn chk k r = (Ok tt, r') ->
  kFaultInjection b = true /\ in_creator tid r = true /\
  exists s, session_vec r !! Z.to_nat (to_size_t sn) = Some (Some s) /\
            k s r = (Ok tt, r').
Proof.
  unfold session_op, bind at 1.
  destruct (fault_inject_check_ok b tid r) as [o r0] eqn:Hchk.
  apply check_ok_inv in Hchk as [-> [(-> & Hf & Hc) | (e & -> & _)]];
    [| discriminate].
  intros H. split; [exact Hf |]. split; [exact Hc |].
  revert H. unfold bind, gets, assert.
  destruct (kDatapathChecks b);
    [destruct (is_usr_session_num_in_range sn r);
       [| cbn; discriminate] |];
    cbn -[index to_size_t].
  all: destruct (index (session_vec r) (to_size_t sn) r) as [[p| | |] r1]
         eqn:Hidx; try discriminate.
  all: apply index_Ok_inv in Hidx as (_ & Hl & ->).
  all: destruct p as [s |]; cbn -[bool_decide]; try discriminate.
  - case_bool_decide; [| congruence]. cbn.
    destruct (chk s); cbn; [| discriminate]. intros Hk. exists s. auto.
  - intros Hk. exists s. auto.
Qed.

Lemma enqueue_sm_req_st_run session ty n r :
  enqueue_sm_req_st session ty n r =
  (Ok tt, set_sm_tx_list
            (sm_tx_list r ++
               [mkSmPkt ty kNoError n (client session) (server session)]) r).
Proof. reflexivity. Qed.

(** C2: each of the four fault-injection operations
    ([fault_inject_resolve_server_rinfo_st], [fault_inject_drop_tx_local_st],
    [fault_inject_drop_tx_remote_st], [fault_inject_reset_remote_epeer_st]),
    called from a thread that is not the endpoint's creator or in a build
    with fault injection disabled, fails with the error
    FAULT_INJECTION_FORBIDDEN (the exception of [fault_inject_check_ok]) and
    leaves the endpoint exactly as it was. *)
Theorem fault_inject_forbidden b tid r session_num pkt_countdown :
  kFaultInjection b = false \/ tid <> creator_tid r ->
  exists e, FAULT_INJECTION_FORBIDDEN e /\
    fault_inject_resolve_server_rinfo_st b tid r = (Throw e, r) /\
    fault_inject_drop_tx_local_st b tid pkt_countdown r = (Throw e, r) /\
    fault_inject_drop_tx_remote_st b tid session_num pkt_countdown r
      = (Throw e, r) /\
    fault_inject_reset_remote_epeer_st b tid session_num r = (Throw e, r).
Proof.
  intros H.
  destruct (check_ok_fail b tid r H) as (e & He & Hrun).
  exists e. split; [exact He |].
  repeat split.
  - unfold fault_inject_resolve_server_rinfo_st, bind. rewrite Hrun.
    reflexivity.
  - unfold fault_inject_drop_tx_local_st, bind at 1. rewrite Hrun.
    reflexivity.
  - rewrite drop_tx_remote_session_op.
    unfold session_op, bind at 1. rewrite Hrun. reflexivity.
  - rewrite reset_remote_epeer_session_op.
    unfold session_op, bind at 1. rewrite Hrun. reflexivity.
Qed.

(** The two ways of being refused, on the example endpoint (created by
    thread 1): a call from thread 2, and a call in a build without fault
    injection. *)
Lemma fault_inject_forbidden_witness :
  (exists e, FAULT_INJECTION_FORBIDDEN e /\
     fault_inject_resolve_server_rinfo_st (mkBuild true true) 2 example_rpc
       = (Throw e, example_rpc) /\
     fault_inject_drop_tx_local_st (mkBuild true true) 2 3 example_rpc
       = (Throw e, example_rpc) /\
     fault_inject_drop_tx_remote_st (mkBuild true true) 2 0 3 example_rpc
       = (Throw e, example_rpc) /\
     fault_inject_reset_remote_epeer_st (mkBuild true true) 2 0 example_rpc
       = (Throw e, example_rpc)) /\
  (exists e, FAULT_INJECTION_FORBIDDEN e /\
     fault_inject_resolve_server_rinfo_st (mkBuild false true) 1 example_rpc
       = (Throw e, example_rpc) /\
     fault_inject_drop_tx_local_st (mkBuild false true) 1 3 example_rpc
       = (Throw e, example_rpc) /\
     fault_inject_drop_tx_remote_st (mkBuild false true) 1 0 3 example_rpc
       = (Throw e, example_rpc) /\
     fault_inject_reset_remote_epeer_st (mkBuild false true) 1 0 example_rpc
       = (Throw e, example_rpc)).
Proof.
  split.
  - apply (fault_inject_forbidden (mkBuild true true) 2 example_rpc 0 3).
    right. cbn. lia.
  - apply (fault_inject_forbidden (mkBuild false true) 1 example_rpc 0 3).
    left. reflexivity.
Defined.

(** C6: a call of [fault_inject_drop_tx_remote_st] that returns normally has
    emitted exactly one session-management message, of type
    [kFaultDropTxRemote], carrying the countdown and addressed to the peer
    (the server side) of the session stored at the given number; the
    session table, with every session's datapath state, and the local fault
    state are as before. *)
Theorem drop_tx_remote_emits_one_sm b tid r session_num pkt_countdown r' :
  fault_inject_drop_tx_remote_st b tid session_num pkt_countdown r
    = (Ok tt, r') ->
  exists session,
    session_vec r !! Z.to_nat (to_size_t session_num) = Some (Some session) /\
    sm_tx_list r' =
      sm_tx_list r ++
        [mkSmPkt kFaultDropTxRemote kNoError pkt_countdown
           (client session) (server session)] /\
    session_vec r' = session_vec r /\
    faults r' = faults r /\
    r' = set_sm_tx_list (sm_tx_list r') r.
Proof.
  rewrite drop_tx_remote_session_op. intros H.
  apply session_op_Ok_inv in H as (_ & _ & s & Hl & Hk).
  rewrite enqueue_sm_req_st_run in Hk. injection Hk as <-.
  exists s. split; [exact Hl |]. repeat split.
Qed.

Lemma drop_tx_remote_emits_one_sm_witness :
  exists session,
    session_vec example_rpc !! Z.to_nat (to_size_t 0) = Some (Some session) /\
    sm_tx_list
      (snd (fault_inject_drop_tx_remote_st (mkBuild true true) 1 0 3
              example_rpc)) =
      sm_tx_list example_rpc ++
        [mkSmPkt kFaultDropTxRemote kNoError 3
           (client session) (server session)] /\
    session_vec
      (snd (fault_inject_drop_tx_remote_st (mkBuild true true) 1 0 3
              example_rpc)) = session_vec example_rpc /\
    faults
      (snd (fault_inject_drop_tx_remote_st (mkBuild true true) 1 0 3
              example_rpc)) = faults example_rpc /\
    snd (fault_inject_drop_tx_remote_st (mkBuild true true) 1 0 3 example_rpc)
    = set_sm_tx_list
        (sm_tx_list
           (snd (fault_inject_drop_tx_remote_st (mkBuild true true) 1 0 3
                   example_rpc))) example_rpc.
Proof.
  apply (drop_tx_remote_emits_one_sm (mkBuild true true) 1 example_rpc 0 3).
  reflexivity.
Defined.

(** C7: a call of [fault_inject_reset_remote_epeer_st] that returns normally
    has emitted exactly one session-management message, of type
    [kFaultResetPeerReq] (the request that makes the peer reset), addressed
    to the peer of the session stored at the given number; the session
    table, with every session's datapath state, and the local fault state
    are as before. *)
Theorem reset_remote_peer_emits_one_sm b tid r session_num r' :
  fault_inject_reset_remote_epeer_st b tid session_num r = (Ok tt, r') ->
  exists session,
    session_vec r !! Z.to_nat (to_size_t session_num) = Some (Some session) /\
    sm_tx_list r' =
      sm_tx_list r ++
        [mkSmPkt kFaultResetPeerReq kNoError 0
           (client session) (server session)] /\
    session_vec r' = session_vec r /\
    faults r' = faults r /\
    r' = set_sm_tx_list (sm_tx_list r') r.
Proof.
  rewrite reset_remote_epeer_session_op. intros H.
  apply session_op_Ok_inv in H as (_ & _ & s & Hl & Hk).
  rewrite enqueue_sm_req_st_run in Hk. injection Hk as <-.
  exists s. split; [exact Hl |]. repeat split.
Qed.

Lemma reset_remote_peer_emits_one_sm_witness :
  exists session,
    session_vec example_rpc !! Z.to_nat (to_size_t 0) = Some (Some session) /\
    sm_tx_list
      (snd (fault_inject_reset_remote_epeer_st (mkBuild true false) 1 0
              example_rpc)) =
      sm_tx_list example_rpc ++
        [mkSmPkt kFaultResetPeerReq kNoError 0
           (client session) (server session)] /\
    session_vec
      (snd (fault_inject_reset_remote_epeer_st (mkBuild true false) 1 0
              example_rpc)) = session_vec example_rpc /\
    faults
      (snd (fault_inject_reset_remote_epeer_st (mkBuild true false) 1 0
              example_rpc)) = faults example_rpc /\
    snd (fault_inject_reset_remote_epeer_st (mkBuild true false) 1 0
           example_rpc)
    = set_sm_tx_list
        (sm_tx_list
           (snd (fault_inject_reset_remote_epeer_st (mkBuild true false) 1 0
                   example_rpc))) example_rpc.
Proof.
  apply (reset_remote_peer_emits_one_sm (mkBuild true false) 1 example_rpc 0).
  reflexivity.
Defined.

Lemma session_precondition_chk sn r (chk : Session -> bool) :
  (forall s, chk s = is_connected s && is_client s) ->
  session_precondition sn r =
  is_usr_session_num_in_range sn r &&
    match session_vec r !! Z.to_nat sn with
    | Some (Some s) => chk s
    | _ => false
    end.
Proof.
  intros Hchk. unfold session_precondition. f_equal.
  destruct (session_vec r !! Z.to_nat sn) as [[s |] |]; auto.
Qed.

(** C9: once the creator-thread and build-flag check has passed,
    [fault_inject_drop_tx_remote_st] and [fault_inject_reset_remote_epeer_st]
    have as preconditions that the session number is in range, that the
    table entry is not null and that the session is a connected client
    session.  Under these preconditions no assertion fires in either
    operation, whether the checks are compiled in or not: both return
    normally.  With the checks compiled in the preconditions are enforced:
    when one of them fails, both operations stop at an assertion with the
    endpoint untouched. *)
Theorem session_preconditions_enforced b tid r session_num pkt_countdown :
  kFaultInjection b = true -> in_creator tid r = true ->
  INT_MIN <= session_num <= INT_MAX ->
  (session_precondition session_num r = true ->
     (exists r1, fault_inject_drop_tx_remote_st b tid session_num
                   pkt_countdown r = (Ok tt, r1)) /\
     (exists r2, fault_inject_reset_remote_epeer_st b tid session_num r
                 = (Ok tt, r2))) /\
  (kDatapathChecks b = true -> session_precondition session_num r = false ->
     fault_inject_drop_tx_remote_st b tid session_num pkt_countdown r
       = (Abort, r) /\
     fault_inject_reset_remote_epeer_st b tid session_num r = (Abort, r)).
Proof.
  intros Hf Hc Hint. split.
  - intros Hpre. unfold session_precondition in Hpre.
    apply andb_true_iff in Hpre as [Hr Hs].
    destruct (session_vec r !! Z.to_nat session_num) as [[s |] |] eqn:Hl;
      try discriminate.
    rewrite drop_tx_remote_session_op, reset_remote_epeer_session_op.
    rewrite !(session_op_valid b tid session_num _ _ r s Hf Hc Hint Hr Hl).
    + rewrite !enqueue_sm_req_st_run. eauto.
    + rewrite andb_comm. exact Hs.
    + exact Hs.
  - intros Hk Hpre.
    rewrite drop_tx_remote_session_op, reset_remote_epeer_session_op.
    split; apply session_op_abort; try assumption.
    rewrite <- (session_precondition_chk session_num r); [exact Hpre |].
    intros s. apply andb_comm.
Qed.

(** On the example endpoint: session 0 meets the preconditions and both
    operations return; entry 1 is null and, with the checks on, both
    operations stop at an assertion. *)
Lemma session_preconditions_enforced_witness :
  ((exists r1, fault_inject_drop_tx_remote_st (mkBuild true true) 1 0 3
                 example_rpc = (Ok tt, r1)) /\
   (exists r2, fault_inject_reset_remote_epeer_st (mkBuild true true) 1 0
                 example_rpc = (Ok tt, r2))) /\
  (fault_inject_drop_tx_remote_st (mkBuild true true) 1 1 3 example_rpc
     = (Abort, example_rpc) /\
   fault_inject_reset_remote_epeer_st (mkBuild true true) 1 1 example_rpc
     = (Abort, example_rpc)).
Proof.
  split.
  - apply (session_preconditions_enforced (mkBuild true true) 1 example_rpc
             0 3); try reflexivity.
    unfold INT_MIN, INT_MAX. lia.
  - apply (session_preconditions_enforced (mkBuild true true) 1 example_rpc
             1 3); try reflexivity.
    unfold INT_MIN, INT_MAX. lia.
Defined.

End FaultInjectFacts.

Lemma to_size_t_small z : 0 <= z < size_t_mod -> to_size_t z = z.
Proof. intros H. apply Z.mod_small. exact H. Qed.

Lemma to_size_t_range z : 0 <= to_size_t z < size_t_mod.
Proof. apply Z.mod_pos_bound. reflexivity. Qed.

(** ** The restrictions on the interface (modelled endpoint) *)

Module EndpointFacts.
Import ERpc.



(** Deleting the endpoint from a callback is fatal in every build. *)
Lemma delete_in_callback_fatal cc tid (r : Rpc) :
  in_callback cc = true -> delete_rpc cc tid r = (Abort, r).
Proof. intros Hcc. unfold delete_rpc. rewrite Hcc. reflexivity. Qed.



(** Outside the callbacks the two operations do what section 4.3 says: on
    the example endpoint [destroy_session 0] starts the disconnect and
    [create_session] adds session 2. *)
Example destroy_session_from_app :
  let r := destroy_session kFromApp 0 example_rpc in
  fst r = Ok 0 /\
  (state <$> get_session 0 (snd r)) = Some kDisconnectInProgress /\
  map pkt_type (sm_tx_list (snd r)) = [kDisconnectReq].
Proof. vm_compute. auto. Qed.

Example create_session_from_app :
  let r := create_session example_config kFromApp "localhost" 7 example_rpc in
  fst r = Ok 2 /\
  (state <$> get_session 2 (snd r)) = Some kConnectInProgress /\
  map pkt_type (sm_tx_list (snd r)) = [kConnectReq].
Proof. vm_compute. auto. Qed.

End EndpointFacts.

(** ** The test of the restrictions (test_api_restrictions.cc) *)

Module TestApiRestrictionsFacts.
Import ERpc TestApiRestrictions.

(** In a build with the datapath checks (the only one in which [main] runs
    the tests), whatever the death mode, every assertion of the request
    handler holds on the modelled endpoint: [create_session] and
    [destroy_session] return [-EPERM], running the event loop and deleting
    the endpoint die; the handler then enqueues its response and leaves the
    endpoint as it was. *)
Lemma req_handler_assertions_hold b cfg id ms mode tid events rh c :
  kDatapathChecks b = true ->
  is_client c = false -> in_creator tid (rpc c) = false ->
  req_handler b cfg id ms mode tid events rh c
  = (Ok tt,
     mkAppContext (rpc c) (is_client c) (num_rpc_resps c)
       (responses c ++
          [set_prealloc_used true
             (set_pre_resp_msgbuf
                (resize_msg_buffer (pre_resp_msgbuf rh) kAppReqSize) rh)])
       (released c) (fatal_failure c)).
Proof.
  intros Hk Hcl Hbg. destruct c as [r cl n resps rel ff]. cbn in *.
  subst cl.
  unfold req_handler, bind, get, assert, on_rpc, in_background,
    ASSERT_EQ, ASSERT_DEATH, run_event_loop, delete_rpc, create_session,
    destroy_session, modify, ret, abort.
  cbn. rewrite Hk, Hbg. cbn.
  destruct mode; cbn; rewrite ?Hk; reflexivity.
Qed.

(** The same for the continuation, which runs on the creator thread. *)
Lemma cont_func_assertions_hold b ms mode tid events resp_handle tag c :
  kDatapathChecks b = true ->
  is_client c = true -> in_creator tid (rpc c) = true ->
  cont_func b ms mode tid events resp_handle tag c
  = (Ok tt,
     mkAppContext (rpc c) (is_client c) (to_size_t (num_rpc_resps c + 1))
       (responses c) (released c ++ [resp_handle]) (fatal_failure c)).
Proof.
  intros Hk Hcl Hcr. destruct c as [r cl n resps rel ff]. cbn in *.
  subst cl.
  unfold cont_func, bind, get, assert, on_rpc, in_background,
    ASSERT_EQ, ASSERT_DEATH, run_event_loop, delete_rpc, modify, ret, abort.
  cbn -[to_size_t]. rewrite Hk, Hcr. cbn -[to_size_t].
  destruct mode; cbn -[to_size_t]; rewrite ?Hk; reflexivity.
Qed.

End TestApiRestrictionsFacts.

(** ** The monad *)

Lemma bind_Ok {S A B} (m : M S A) (k : A -> M S B) s a s' :
  m s = (Ok a, s') -> bind m k s = k a s'.
Proof. intros H. unfold bind. rewrite H. reflexivity. Qed.

Lemma bind_Ok_inv {S A B} (m : M S A) (k : A -> M S B) s x s2 :
  bind m k s = (Ok x, s2) ->
  exists a s1, m s = (Ok a, s1) /\ k a s1 = (Ok x, s2).
Proof.
  unfold bind. destruct (m s) as [[a | e | |] s1]; try discriminate.
  intros H. eauto.
Qed.

Lemma bind_assoc {S A B C} (m : M S A) (k : A -> M S B) (h : B -> M S C) s :
  bind (bind m k) h s = bind m (fun a => bind (k a) h) s.
Proof.
  unfold bind. destruct (m s) as [[a | e | |] s1]; reflexivity.
Qed.

Lemma bind_Abort {S A B} (m : M S A) (k : A -> M S B) s s' :
  m s = (Abort, s') -> bind m k s = (Abort, s').
Proof. intros H. unfold bind. rewrite H. reflexivity. Qed.

Lemma for_each_app {S A} (body : A -> M S unit) xs ys s :
  for_each body (xs ++ ys) s = (for_each body xs ;; for_each body ys) s.
Proof.
  revert s. induction xs as [| x xs IH]; intros s; cbn.
  - reflexivity.
  - unfold bind. destruct (body x s) as [[[] | e | |] s1];
      try reflexivity.
    rewrite IH. reflexivity.
Qed.

(** ** The persistent key-value server (persistent_kv.cc) *)

Module PersistentKvFacts.
Import ERpc PersistentKv.

Section Server.

Context {HashMap : Type}.
Variable get_hash : HashMap -> Z -> Z.
Variable batch_op_drain_helper :
  HashMap -> list bool -> list Z -> list Z -> list Z -> Z ->
  HashMap * (Z -> bool).
Variable b : Build.

Local Abbreviation Ctx := (@ServerContext HashMap).
Local Abbreviation drain_batch :=
  (PersistentKv.drain_batch batch_op_drain_helper b).
Local Abbreviation req_handler_record :=
  (PersistentKv.req_handler_record get_hash b).
Local Abbreviation req_handler :=
  (PersistentKv.req_handler get_hash batch_op_drain_helper b).
Local Abbreviation run_event_loop_once :=
  (PersistentKv.run_event_loop_once get_hash batch_op_drain_helper b).
Local Abbreviation server_loop_body :=
  (PersistentKv.server_loop_body get_hash batch_op_drain_helper b).
Local Abbreviation server_second :=
  (PersistentKv.server_second get_hash batch_op_drain_helper b).
Local Abbreviation server_func :=
  (PersistentKv.server_func get_hash batch_op_drain_helper b).
Local Abbreviation reachable :=
  (PersistentKv.reachable get_hash batch_op_drain_helper b).

Lemma store_in_run {A} (arr : Ctx -> list A) set_arr i (x : A) (c : Ctx) :
  0 <= i < Z.of_nat (length (arr c)) ->
  store_in arr set_arr i x c
  = (Ok tt, set_arr (<[Z.to_nat i := x]> (arr c)) c).
Proof.
  intros Hi. unfold store_in, bind, get.
  rewrite (store_in_range _ _ _ _ Hi). reflexivity.
Qed.

Lemma req_handler_record_spec (rh : ReqHandle) (c : Ctx) :
  arrays_ok c -> 0 <= num_reqs_in_batch c < kAppMaxServerBatch ->
  exists o c1,
    req_handler_record rh c = (o, c1) /\
    arrays_ok c1 /\
    tx_responses c1 = tx_responses c /\
    hashmap c1 = hashmap c /\
    stats_num_resps_tot c1 = stats_num_resps_tot c /\
    req_handle_arr c1
      = <[Z.to_nat (num_reqs_in_batch c) := recorded rh]> (req_handle_arr c) /\
    (o = Ok tt /\
       num_reqs_in_batch c1 = num_reqs_in_batch c + 1 /\
       num_reqs_tot c1 = to_size_t (num_reqs_tot c + 1) /\
       (valid_req rh = true \/ kDatapathChecks b = false)
     \/
     o = Abort /\
       num_reqs_in_batch c1 = num_reqs_in_batch c /\
       num_reqs_tot c1 = num_reqs_tot c /\
       valid_req rh = false /\ kDatapathChecks b = true).
Proof.
  intros (Hl1 & Hl2 & Hl3 & Hl4 & Hl5) Hn.
  unfold PersistentKv.req_handler_record, valid_req, bind, gets, modify,
    assert.
  repeat (rewrite store_in_run by (cbn; lia); cbv beta iota).
  destruct (data_size (req_msgbuf rh) =? sizeof_Key) eqn:Hget;
    [| destruct (data_size (req_msgbuf rh) =? sizeof_Key + sizeof_Value)
         eqn:Hset;
       [| destruct (kDatapathChecks b) eqn:Hk]].
  all: repeat (rewrite store_in_run by (cbn; lia); cbv beta iota).
  all: eexists _, _; split; [reflexivity |].
  all: cbn -[to_size_t sizeof_Value]; unfold arrays_ok; cbn;
       rewrite ?length_insert.
  all: assert (Hn1 : to_size_t (num_reqs_in_batch c + 1)
                     = num_reqs_in_batch c + 1)
         by (apply to_size_t_small;
             unfold kAppMaxServerBatch, size_t_mod in *; lia).
  all: split; [tauto |]; do 4 (split; [reflexivity |]).
  - left. rewrite Hn1. auto.
  - left. rewrite Hn1. auto.
  - right. auto.
  - left. rewrite Hn1. auto.
Qed.

Lemma drain_batch_body_run success i (c : Ctx) :
  arrays_ok c -> 0 <= i < kAppMaxServerBatch ->
  exists rh rh',
    req_handle_arr c !! Z.to_nat i = Some rh /\
    handle_addr rh' = handle_addr rh /\
    prealloc_used rh' = true /\
    drain_batch_body success i c
    = (Ok tt,
       set_tx_responses (tx_responses c ++ [rh'])
         (set_req_handle_arr (<[Z.to_nat i := rh']> (req_handle_arr c)) c)).
Proof.
  intros (Hl1 & Hl2 & _) Hi.
  destruct (lookup_lt_is_Some_2 (req_handle_arr c) (Z.to_nat i))
    as [rh Hrh]; [lia |].
  destruct (lookup_lt_is_Some_2 (is_set_arr c) (Z.to_nat i))
    as [is_set His]; [lia |].
  exists rh.
  unfold PersistentKv.drain_batch_body, bind, get, enqueue_response, modify.
  rewrite (index_lookup _ _ _ _ (proj1 Hi) Hrh).
  rewrite (index_lookup _ _ _ _ (proj1 Hi) His).
  rewrite store_in_run by lia. cbv beta iota.
  refine (ex_intro _ _ (conj Hrh (conj _ (conj _ eq_refl)))).
  - destruct is_set; [| destruct (success i)]; reflexivity.
  - destruct is_set; [| destruct (success i)]; reflexivity.
Qed.

Lemma drain_loop success (k : nat) : forall i (c : Ctx),
  0 <= i -> i + Z.of_nat k <= kAppMaxServerBatch -> arrays_ok c ->
  exists c' new,
    for_each (drain_batch_body success) (seqZ i (Z.of_nat k)) c
      = (Ok tt, c') /\
    tx_responses c' = tx_responses c ++ new /\
    map handle_addr new
      = map handle_addr (take k (drop (Z.to_nat i) (req_handle_arr c))) /\
    Forall (fun rh => prealloc_used rh = true) new /\
    arrays_ok c' /\
    num_reqs_in_batch c' = num_reqs_in_batch c /\
    num_reqs_tot c' = num_reqs_tot c /\
    stats_num_resps_tot c' = stats_num_resps_tot c /\
    hashmap c' = hashmap c.
Proof.
  induction k as [| k IH]; intros i c Hi Hik Hok.
  - exists c, []. cbn. rewrite app_nil_r.
    do 3 (split; [reflexivity |]). split; [constructor |].
    split; [exact Hok |]. auto.
  - rewrite seqZ_cons by lia.
    replace (Z.pred (Z.of_nat (S k))) with (Z.of_nat k) by lia.
    destruct (drain_batch_body_run success i c Hok)
      as (rh & rh' & Hrh & Haddr & Hpre & Hrun); [lia |].
    cbn [for_each]. erewrite bind_Ok by exact Hrun.
    set (c1 := set_tx_responses _ _).
    assert (Hok1 : arrays_ok c1).
    { destruct Hok as (H1 & H2). split; [| exact H2].
      cbn. rewrite length_insert. exact H1. }
    destruct (IH (Z.succ i) c1) as (c' & new & Hfor & Htx & Hmap & Hall & H');
      [lia | lia | exact Hok1 |].
    exists c', (rh' :: new). split; [exact Hfor |].
    split; [rewrite Htx; cbn; rewrite <- app_assoc; reflexivity |].
    split.
    + rewrite (drop_S _ _ _ Hrh). cbn. rewrite Haddr. f_equal.
      rewrite Hmap. cbn.
      replace (Z.to_nat (Z.succ i)) with (S (Z.to_nat i)) by lia.
      rewrite drop_insert_lt by lia. reflexivity.
    + split; [constructor; assumption |]. exact H'.
Qed.

Lemma drain_batch_spec (c : Ctx) :
  arrays_ok c -> 0 < num_reqs_in_batch c <= kAppMaxServerBatch ->
  exists c' new,
    drain_batch c = (Ok tt, c') /\
    tx_responses c' = tx_responses c ++ new /\
    map handle_addr new = map handle_addr (batch c) /\
    Forall (fun rh => prealloc_used rh = true) new /\
    arrays_ok c' /\
    num_reqs_in_batch c' = 0 /\
    num_reqs_tot c' = num_reqs_tot c /\
    stats_num_resps_tot c'
      = to_size_t (stats_num_resps_tot c + num_reqs_in_batch c).
Proof.
  intros Hok Hn.
  unfold PersistentKv.drain_batch.
  erewrite bind_Ok by reflexivity.
  erewrite bind_Ok.
  2:{ unfold assert. destruct (kDatapathChecks b); [| reflexivity].
      assert (Hpos : (0 <? num_reqs_in_batch c) = true)
        by (apply Z.ltb_lt; lia).
      rewrite Hpos. reflexivity. }
  destruct (batch_op_drain_helper _ _ _ _ _ _) as [hashmap' success].
  erewrite bind_Ok by reflexivity.
  destruct (drain_loop success (Z.to_nat (num_reqs_in_batch c)) 0
              (set_hashmap hashmap' c))
    as (c' & new & Hfor & Htx & Hmap & Hall & Hok' & Hn' & Htot & Hst & _);
    [lia | lia | exact Hok |].
  rewrite Z2Nat.id in Hfor by lia.
  erewrite bind_Ok by exact Hfor.
  erewrite bind_Ok by reflexivity.
  eexists _, new. split; [reflexivity |].
  cbn. repeat split; try (apply Hok'); auto.
  rewrite Hst, Hn'. reflexivity.
Qed.

Lemma batch_after_record (c c1 : Ctx) r :
  arrays_ok c -> 0 <= num_reqs_in_batch c < kAppMaxServerBatch ->
  req_handle_arr c1
    = <[Z.to_nat (num_reqs_in_batch c) := r]> (req_handle_arr c) ->
  num_reqs_in_batch c1 = num_reqs_in_batch c + 1 ->
  batch c1 = batch c ++ [r].
Proof.
  intros (Hl & _) Hn Harr Hn1. unfold batch. rewrite Harr, Hn1.
  replace (Z.to_nat (num_reqs_in_batch c + 1))
    with (S (Z.to_nat (num_reqs_in_batch c))) by lia.
  erewrite take_S_r by (apply list_lookup_insert_eq; lia).
  rewrite take_insert_ge by lia. reflexivity.
Qed.

Lemma server_loop_body_unfold arrivals :
  server_loop_body arrivals =
  (s <- gets num_reqs_tot ;; run_event_loop_once arrivals ;; loop_end batch_op_drain_helper b s).
Proof. reflexivity. Qed.

(** What one invocation of [req_handler] does to a context whose batch is
    not full. *)
Lemma req_handler_spec (rh : ReqHandle) (c : Ctx) :
  arrays_ok c -> 0 <= num_reqs_in_batch c < kAppMaxServerBatch ->
  exists o c',
    req_handler rh c = (o, c') /\
    arrays_ok c' /\
    (o = Ok tt /\
       (valid_req rh = true \/ kDatapathChecks b = false) /\
       num_reqs_tot c' = to_size_t (num_reqs_tot c + 1) /\
       (num_reqs_in_batch c + 1 < kAppMaxServerBatch /\
          num_reqs_in_batch c' = num_reqs_in_batch c + 1 /\
          tx_responses c' = tx_responses c /\
          batch c' = batch c ++ [recorded rh]
        \/
        num_reqs_in_batch c + 1 = kAppMaxServerBatch /\
          num_reqs_in_batch c' = 0 /\
          exists new,
            tx_responses c' = tx_responses c ++ new /\
            map handle_addr new
              = map handle_addr (batch c ++ [recorded rh]))
     \/
     o = Abort /\ valid_req rh = false /\ kDatapathChecks b = true /\
       num_reqs_in_batch c' = num_reqs_in_batch c).
Proof.
  intros Hok Hn.
  destruct (req_handler_record_spec rh c Hok Hn)
    as (o & c1 & Hrec & Hok1 & Htx1 & _ & _ & Harr1 & Hcase).
  unfold PersistentKv.req_handler.
  destruct Hcase as [(-> & Hn1 & Htot1 & Hvalid) | (-> & Hn1 & _ & Hv & Hk)].
  - erewrite bind_Ok by exact Hrec.
    erewrite bind_Ok by reflexivity.
    pose proof (batch_after_record c c1 _ Hok Hn Harr1 Hn1) as Hbatch.
    destruct (num_reqs_in_batch c1 =? kAppMaxServerBatch) eqn:Hfull.
    + apply Z.eqb_eq in Hfull.
      destruct (drain_batch_spec c1 Hok1)
        as (c' & new & Hrun & Htx & Hmap & _ & Hok' & Hn' & Htot' & _);
        [lia |].
      exists (Ok tt), c'. split; [exact Hrun |]. split; [exact Hok' |].
      left. split; [reflexivity |]. split; [exact Hvalid |].
      split; [congruence |]. right.
      split; [lia |]. split; [exact Hn' |].
      exists new. split; [congruence |]. rewrite Hmap, Hbatch. reflexivity.
    + apply Z.eqb_neq in Hfull.
      exists (Ok tt), c1. split; [reflexivity |]. split; [exact Hok1 |].
      left. split; [reflexivity |]. split; [exact Hvalid |].
      split; [exact Htot1 |]. left.
      split; [lia |]. auto.
  - exists Abort, c1. split; [apply bind_Abort; exact Hrec |].
    split; [exact Hok1 |]. right. auto.
Qed.

Lemma loop_end_spec s (c : Ctx) :
  arrays_ok c -> 0 <= num_reqs_in_batch c < kAppMaxServerBatch ->
  exists c' new,
    loop_end batch_op_drain_helper b s c = (Ok tt, c') /\
    arrays_ok c' /\
    num_reqs_tot c' = num_reqs_tot c /\
    tx_responses c' = tx_responses c ++ new /\
    (num_reqs_tot c = s /\ 0 < num_reqs_in_batch c /\
       num_reqs_in_batch c' = 0 /\
       map handle_addr new = map handle_addr (batch c)
     \/
     ~ (num_reqs_tot c = s /\ 0 < num_reqs_in_batch c) /\
       c' = c /\ new = []).
Proof.
  intros Hok Hn. unfold loop_end. erewrite bind_Ok by reflexivity.
  destruct ((num_reqs_tot c =? s) && (0 <? num_reqs_in_batch c)) eqn:Hcond.
  - apply andb_true_iff in Hcond as [Hs Hpos].
    apply Z.eqb_eq in Hs. apply Z.ltb_lt in Hpos.
    destruct (drain_batch_spec c Hok)
      as (c' & new & Hrun & Htx & Hmap & _ & Hok' & Hn' & Htot' & _); [lia |].
    exists c', new. repeat (split; [assumption |]). left. auto.
  - exists c, []. split; [reflexivity |]. split; [exact Hok |].
    split; [reflexivity |]. split; [rewrite app_nil_r; reflexivity |].
    right. split; [| auto]. intros [Hs Hpos].
    apply Z.eqb_eq in Hs. apply Z.ltb_lt in Hpos.
    rewrite Hs, Hpos in Hcond. discriminate.
Qed.

Lemma initial_context_ok (c : Ctx) : initial_context c -> ctx_ok c.
Proof.
  intros (Htot & Hn & _ & _ & Harr). unfold ctx_ok.
  rewrite Htot, Hn. split; [exact Harr |].
  unfold kAppMaxServerBatch, size_t_mod. lia.
Qed.

(** Every reachable state satisfies the invariant. *)
Lemma reachable_ok (c : Ctx) : reachable c -> ctx_ok c.
Proof.
  induction 1 as [c Hinit | c rh c' _ IH Hrun | c s c' _ IH Hrun | c _ IH].
  - apply initial_context_ok. exact Hinit.
  - destruct IH as (Hok & Hn & Htot).
    destruct (req_handler_spec rh c Hok Hn) as (o & c2 & Hrun' & Hok' & Hc).
    rewrite Hrun in Hrun'. injection Hrun' as <- <-.
    destruct Hc as [(_ & _ & Htot' & Hc) | (Habs & _)]; [| discriminate].
    split; [exact Hok' |]. split.
    + unfold kAppMaxServerBatch in *.
      destruct Hc as [(? & -> & _) | (? & -> & _)]; lia.
    + rewrite Htot'. apply to_size_t_range.
  - destruct IH as (Hok & Hn & Htot).
    destruct (loop_end_spec s c Hok Hn)
      as (c2 & new & Hrun' & Hok' & Htot' & _ & Hc).
    rewrite Hrun in Hrun'. injection Hrun' as <-.
    split; [exact Hok' |]. split; [| rewrite Htot'; exact Htot].
    unfold kAppMaxServerBatch in *.
    destruct Hc as [(_ & _ & -> & _) | (_ & -> & _)]; lia.
  - exact IH.
Qed.

(** The event loop invokes [req_handler] in reachable states only, and the
    loops of [server_func] stay within the reachable states. *)
Lemma run_event_loop_once_reachable arrivals : forall (c c' : Ctx),
  reachable c -> run_event_loop_once arrivals c = (Ok tt, c') -> reachable c'.
Proof.
  induction arrivals as [| rh arrivals IH]; intros c c' Hc Hrun.
  - injection Hrun as <-. exact Hc.
  - cbn in Hrun. apply bind_Ok_inv in Hrun as ([] & c1 & Hrh & Hrest).
    eapply IH; [| exact Hrest].
    eapply reach_req_handler; eassumption.
Qed.

Lemma server_loop_body_reachable arrivals (c c' : Ctx) :
  reachable c -> server_loop_body arrivals c = (Ok tt, c') -> reachable c'.
Proof.
  intros Hc Hrun. rewrite server_loop_body_unfold in Hrun.
  apply bind_Ok_inv in Hrun as (s & c0 & Hs & Hrun).
  injection Hs as <- <-.
  apply bind_Ok_inv in Hrun as ([] & c1 & Hloop & Hend).
  eapply reach_loop_end; [| exact Hend].
  eapply run_event_loop_once_reachable; eassumption.
Qed.

Lemma for_each_reachable {A} (body : A -> M Ctx unit) :
  (forall x c c', reachable c -> body x c = (Ok tt, c') -> reachable c') ->
  forall xs c c',
    reachable c -> for_each body xs c = (Ok tt, c') -> reachable c'.
Proof.
  intros Hbody. induction xs as [| x xs IH]; intros c c' Hc Hrun.
  - injection Hrun as <-. exact Hc.
  - cbn in Hrun. apply bind_Ok_inv in Hrun as ([] & c1 & Hx & Hrest).
    eapply IH; [| exact Hrest]. eapply Hbody; eassumption.
Qed.

Lemma server_func_reachable seconds (c c' : Ctx) :
  initial_context c -> server_func seconds c = (Ok tt, c') -> reachable c'.
Proof.
  intros Hinit. apply for_each_reachable; [| apply reach_init; exact Hinit].
  clear. intros iterations c c' Hc Hrun.
  unfold PersistentKv.server_second in Hrun.
  apply bind_Ok_inv in Hrun as ([] & c0 & H0 & Hrun).
  injection H0 as <-.
  apply bind_Ok_inv in Hrun as ([] & c1 & Hiter & Hrun).
  injection Hrun as <-.
  apply reach_stats_reset.
  revert Hiter. apply for_each_reachable.
  - intros arrivals. apply server_loop_body_reachable.
  - apply reach_stats_reset. exact Hc.
Qed.

Lemma req_handler_ctx_ok rh (c c' : Ctx) :
  ctx_ok c -> req_handler rh c = (Ok tt, c') ->
  ctx_ok c' /\ num_reqs_tot c' = to_size_t (num_reqs_tot c + 1).
Proof.
  intros (Hok & Hn & Htot) Hrun.
  destruct (req_handler_spec rh c Hok Hn) as (o & c2 & Hrun' & Hok' & Hc).
  rewrite Hrun in Hrun'. injection Hrun' as <- <-.
  destruct Hc as [(_ & _ & Htot' & Hc) | (Habs & _)]; [| discriminate].
  split; [| exact Htot'].
  split; [exact Hok' |]. split.
  - unfold kAppMaxServerBatch in *.
    destruct Hc as [(? & -> & _) | (? & -> & _)]; lia.
  - rewrite Htot'. apply to_size_t_range.
Qed.

Lemma run_event_loop_once_count arrivals : forall (c c' : Ctx),
  ctx_ok c ->
  run_event_loop_once arrivals c = (Ok tt, c') ->
  ctx_ok c' /\
  num_reqs_tot c'
    = to_size_t (num_reqs_tot c + Z.of_nat (length arrivals)).
Proof.
  induction arrivals as [| rh arrivals IH]; intros c c' Hok Hrun.
  - injection Hrun as <-. split; [exact Hok |].
    cbn. rewrite Z.add_0_r. symmetry. apply to_size_t_small. apply Hok.
  - cbn in Hrun. apply bind_Ok_inv in Hrun as ([] & c1 & Hrh & Hrest).
    destruct (req_handler_ctx_ok rh c c1 Hok Hrh) as (Hok1 & Htot1).
    destruct (IH c1 c' Hok1 Hrest) as (Hok' & Htot').
    split; [exact Hok' |]. rewrite Htot', Htot1.
    unfold to_size_t. rewrite Zplus_mod_idemp_l. f_equal.
    rewrite length_cons. lia.
Qed.

Lemma size_t_add_changes tot len :
  0 <= tot < size_t_mod -> 0 < len < size_t_mod ->
  to_size_t (tot + len) <> tot.
Proof.
  intros Htot Hlen. unfold to_size_t.
  destruct (Z_lt_ge_dec (tot + len) size_t_mod) as [Hlt | Hge].
  - rewrite Z.mod_small by lia. lia.
  - replace (tot + len) with ((tot + len - size_t_mod) + 1 * size_t_mod)
      by lia.
    rewrite Z_mod_plus_full, Z.mod_small by lia. lia.
Qed.

(** An iteration of the loop of [server_func] in which requests arrived
    ends without a drain of its own. *)
Lemma server_loop_body_busy arrivals (c : Ctx) :
  ctx_ok c -> arrivals <> [] -> Z.of_nat (length arrivals) < size_t_mod ->
  server_loop_body arrivals c = run_event_loop_once arrivals c.
Proof.
  intros Hok Hne Hlen. rewrite server_loop_body_unfold.
  erewrite bind_Ok by reflexivity. unfold bind at 1.
  destruct (run_event_loop_once arrivals c) as [[[] | e | |] c1] eqn:Hrun;
    try reflexivity.
  destruct (run_event_loop_once_count arrivals c c1 Hok Hrun) as (_ & Htot).
  unfold loop_end. erewrite bind_Ok by reflexivity.
  assert (Hneq : (num_reqs_tot c1 =? num_reqs_tot c) = false).
  { apply Z.eqb_neq. rewrite Htot. apply size_t_add_changes; [apply Hok |].
    destruct arrivals; [congruence |]. rewrite length_cons in *. lia. }
  rewrite Hneq. reflexivity.
Qed.

(** An iteration of the loop of [server_func] in which no request arrived
    submits the batch, if there is one. *)
Lemma server_loop_body_idle (c : Ctx) :
  ctx_ok c ->
  exists c' new,
    server_loop_body [] c = (Ok tt, c') /\
    tx_responses c' = tx_responses c ++ new /\
    map handle_addr new = map handle_addr (batch c) /\
    num_reqs_in_batch c' = 0.
Proof.
  intros (Hok & Hn & Htot). rewrite server_loop_body_unfold.
  erewrite bind_Ok by reflexivity.
  erewrite bind_Ok by reflexivity.
  destruct (loop_end_spec (num_reqs_tot c) c Hok Hn)
    as (c' & new & Hrun & _ & _ & Htx & Hc).
  exists c', new. split; [exact Hrun |]. split; [exact Htx |].
  destruct Hc as [(_ & _ & Hn' & Hmap) | (Hnot & -> & ->)]; [auto |].
  assert (Hz : num_reqs_in_batch c = 0) by lia.
  unfold batch. rewrite Hz. auto.
Qed.

(** C10: in every state in which [req_handler] can be invoked
    [num_reqs_in_batch < kAppMaxServerBatch] holds.  An invocation in such a
    state performs no access outside an array (its outcome is never
    [Undefined]); the counter is at most [kAppMaxServerBatch] after the
    increment and below it again at the return; and a return has
    incremented the counter by one and has drained the batch, resetting the
    counter to zero, exactly when the increment reached
    [kAppMaxServerBatch].  The end of the loop body of [server_func]
    accesses no array outside its bounds either and leaves the counter
    below [kAppMaxServerBatch]. *)
Theorem batch_counter_invariant (c : Ctx) :
  reachable c ->
  0 <= num_reqs_in_batch c < kAppMaxServerBatch /\
  (forall rh,
     fst (req_handler rh c) <> Undefined /\
     fst (req_handler_record rh c) <> Undefined /\
     0 <= num_reqs_in_batch (snd (req_handler_record rh c))
       <= kAppMaxServerBatch /\
     0 <= num_reqs_in_batch (snd (req_handler rh c)) < kAppMaxServerBatch /\
     (fst (req_handler rh c) = Ok tt ->
        num_reqs_in_batch (snd (req_handler_record rh c))
          = num_reqs_in_batch c + 1 /\
        num_reqs_in_batch (snd (req_handler rh c))
          = (if num_reqs_in_batch c + 1 =? kAppMaxServerBatch then 0
             else num_reqs_in_batch c + 1) /\
        length (tx_responses (snd (req_handler rh c)))
          = if num_reqs_in_batch c + 1 =? kAppMaxServerBatch
            then (length (tx_responses c) + Z.to_nat kAppMaxServerBatch)%nat
            else length (tx_responses c))) /\
  (forall s,
     fst (loop_end batch_op_drain_helper b s c) = Ok tt /\
     0 <= num_reqs_in_batch (snd (loop_end batch_op_drain_helper b s c))
       < kAppMaxServerBatch).
Proof.
  intros Hreach. destruct (reachable_ok c Hreach) as (Hok & Hn & Htot).
  split; [exact Hn |]. split.
  - intros rh.
    destruct (req_handler_record_spec rh c Hok Hn)
      as (o1 & c1 & Hrec & _ & _ & _ & _ & Harr1 & Hc1).
    destruct (req_handler_spec rh c Hok Hn) as (o & c' & Hrun & _ & Hc).
    rewrite Hrec, Hrun. cbn [fst snd].
    split; [destruct Hc as [(-> & _) | (-> & _)]; discriminate |].
    split; [destruct Hc1 as [(-> & _) | (-> & _)]; discriminate |].
    split; [destruct Hc1 as [(_ & -> & _) | (_ & -> & _)]; lia |].
    split.
    { unfold kAppMaxServerBatch in *.
      destruct Hc as [(_ & _ & _ & [(? & -> & _) | (? & -> & _)])
                     | (_ & _ & _ & ->)]; lia. }
    intros ->.
    destruct Hc as [(_ & _ & _ & Hc) | (Habs & _)]; [| discriminate].
    destruct Hc1 as [(_ & Hn1 & _) | (-> & _)];
      [| unfold PersistentKv.req_handler in Hrun;
         rewrite (bind_Abort _ _ _ _ Hrec) in Hrun; discriminate].
    split; [exact Hn1 |].
    destruct Hc as [(Hlt & -> & Htx & _) | (Heq & -> & new & Htx & Hmap)].
    + assert (Hne : (num_reqs_in_batch c + 1 =? kAppMaxServerBatch) = false)
        by (apply Z.eqb_neq; lia).
      rewrite Hne, Htx. auto.
    + rewrite Heq, Z.eqb_refl. split; [reflexivity |].
      rewrite Htx, length_app. f_equal.
      apply (f_equal (@length Z)) in Hmap.
      rewrite !length_map, length_app in Hmap. cbn in Hmap.
      destruct Hok as (Hl & _). unfold batch in Hmap.
      rewrite length_take in Hmap. lia.
  - intros s.
    destruct (loop_end_spec s c Hok Hn) as (c' & new & Hrun & _ & _ & _ & Hc).
    rewrite Hrun. cbn [fst snd]. split; [reflexivity |].
    unfold kAppMaxServerBatch in *.
    destruct Hc as [(_ & _ & -> & _) | (_ & -> & _)]; lia.
Qed.

(** No run of [server_func] from the initial context accesses an array
    outside its bounds. *)
Lemma for_each_in_bounds {A} (body : A -> M Ctx unit) :
  (forall x c, reachable c ->
     fst (body x c) <> Undefined /\
     (forall c', body x c = (Ok tt, c') -> reachable c')) ->
  forall xs c, reachable c -> fst (for_each body xs c) <> Undefined.
Proof.
  intros Hbody. induction xs as [| x xs IH]; intros c Hc; cbn.
  - discriminate.
  - destruct (Hbody x c Hc) as [Hdef Hnext]. unfold bind.
    destruct (body x c) as [[[] | e | |] c1]; cbn in *;
      try discriminate; [| congruence].
    apply IH. apply Hnext. reflexivity.
Qed.

Lemma req_handler_in_bounds rh (c : Ctx) :
  reachable c -> fst (req_handler rh c) <> Undefined.
Proof.
  intros Hc. destruct (reachable_ok c Hc) as (Hok & Hn & _).
  destruct (req_handler_spec rh c Hok Hn) as (o & c' & Hrun & _ & Hcase).
  rewrite Hrun. destruct Hcase as [(-> & _) | (-> & _)]; discriminate.
Qed.

Lemma server_loop_body_in_bounds arrivals (c : Ctx) :
  reachable c -> fst (server_loop_body arrivals c) <> Undefined.
Proof.
  intros Hc. rewrite server_loop_body_unfold.
  erewrite bind_Ok by reflexivity. unfold bind at 1.
  assert (Hloop : fst (run_event_loop_once arrivals c) <> Undefined).
  { apply for_each_in_bounds; [| exact Hc].
    intros rh c0 Hc0. split; [apply req_handler_in_bounds; exact Hc0 |].
    intros c' H. eapply reach_req_handler; eassumption. }
  destruct (run_event_loop_once arrivals c) as [[[] | e | |] c1] eqn:Hrun;
    cbn [fst] in *; try discriminate; [| congruence].
  pose proof (run_event_loop_once_reachable arrivals c c1 Hc Hrun) as Hc1.
  destruct (reachable_ok c1 Hc1) as (Hok & Hn & _).
  destruct (loop_end_spec (num_reqs_tot c) c1 Hok Hn)
    as (c' & new & Hend & _).
  rewrite Hend. discriminate.
Qed.

Lemma server_func_in_bounds seconds (c : Ctx) :
  initial_context c -> fst (server_func seconds c) <> Undefined.
Proof.
  intros Hinit. apply for_each_in_bounds; [| apply reach_init; exact Hinit].
  clear. intros iterations c Hc. split.
  - unfold PersistentKv.server_second.
    erewrite bind_Ok by reflexivity. unfold bind.
    assert (Hloop : fst (for_each server_loop_body iterations
                           (set_stats_num_resps_tot 0 c)) <> Undefined).
    { apply for_each_in_bounds; [| apply reach_stats_reset; exact Hc].
      intros arrivals c0 Hc0.
      split; [apply server_loop_body_in_bounds; exact Hc0 |].
      intros c' H. eapply server_loop_body_reachable; eassumption. }
    destruct (for_each server_loop_body iterations
                (set_stats_num_resps_tot 0 c)) as [[[] | e | |] c1];
      cbn [fst] in *; try discriminate. congruence.
  - intros c' Hrun.
    unfold PersistentKv.server_second in Hrun.
    apply bind_Ok_inv in Hrun as ([] & c0 & H0 & Hrun).
    injection H0 as <-.
    apply bind_Ok_inv in Hrun as ([] & c1 & Hiter & Hrun).
    injection Hrun as <-.
    apply reach_stats_reset.
    revert Hiter. apply for_each_reachable.
    + intros arrivals. apply server_loop_body_reachable.
    + apply reach_stats_reset. exact Hc.
Qed.

(** C5: the server defers the responses of batched requests.  In a state
    between two steps of the server thread, with the batch not full:
    - a request that does not bring the batch to [kAppMaxServerBatch] is
      added to the batch and no response is submitted;
    - the request that brings the batch to [kAppMaxServerBatch] is added and
      the responses of all requests of the batch, this one included, are
      submitted in order, leaving the batch empty;
    - an iteration of the event loop in which no request arrived submits the
      responses of all requests of the batch, in order, and leaves the batch
      empty;
    - an iteration in which requests arrived submits nothing beyond what the
      handler submitted on reaching the batch size. *)
Theorem server_batching (c : Ctx) :
  ctx_ok c ->
  (forall rh,
     valid_req rh = true \/ kDatapathChecks b = false ->
     exists c',
       req_handler rh c = (Ok tt, c') /\
       (num_reqs_in_batch c + 1 < kAppMaxServerBatch /\
          tx_responses c' = tx_responses c /\
          batch c' = batch c ++ [recorded rh]
        \/
        num_reqs_in_batch c + 1 = kAppMaxServerBatch /\
          batch c' = [] /\
          exists new,
            tx_responses c' = tx_responses c ++ new /\
            map handle_addr new
              = map handle_addr (batch c ++ [recorded rh]))) /\
  (exists c' new,
     server_loop_body [] c = (Ok tt, c') /\
     tx_responses c' = tx_responses c ++ new /\
     map handle_addr new = map handle_addr (batch c) /\
     batch c' = []) /\
  (forall arrivals,
     arrivals <> [] -> Z.of_nat (length arrivals) < size_t_mod ->
     server_loop_body arrivals c = run_event_loop_once arrivals c).
Proof.
  intros Hctx. pose proof Hctx as (Hok & Hn & Htot).
  split; [| split].
  - intros rh Hvalid.
    destruct (req_handler_spec rh c Hok Hn) as (o & c' & Hrun & _ & Hc).
    destruct Hc as [(-> & _ & _ & Hc) | (_ & Hv & Hk & _)].
    + exists c'. split; [exact Hrun |].
      destruct Hc as [(Hlt & _ & Htx & Hb) | (Heq & Hn' & Hnew)].
      * left. auto.
      * right. split; [exact Heq |]. split; [| exact Hnew].
        unfold batch. rewrite Hn'. reflexivity.
    + destruct Hvalid; congruence.
  - destruct (server_loop_body_idle c Hctx)
      as (c' & new & Hrun & Htx & Hmap & Hn').
    exists c', new. repeat (split; [assumption |]).
    unfold batch. rewrite Hn'. reflexivity.
  - intros arrivals. apply server_loop_body_busy. exact Hctx.
Qed.

End Server.

Local Abbreviation ex_build := (mkBuild true true).
Local Abbreviation ex_req_handler :=
  (req_handler example_get_hash example_helper ex_build).
Local Abbreviation ex_req_handler_record :=
  (req_handler_record example_get_hash ex_build).
Local Abbreviation ex_loop_end := (loop_end example_helper ex_build).
Local Abbreviation ex_server_loop_body :=
  (server_loop_body example_get_hash example_helper ex_build).
Local Abbreviation ex_run_event_loop_once :=
  (run_event_loop_once example_get_hash example_helper ex_build).

Lemma example_context_initial : initial_context example_context.
Proof. repeat split. Qed.

(** Fifteen requests are held back; the sixteenth submits all sixteen
    responses, in the order of arrival. *)
Example fifteen_requests_deferred :
  let r := ex_run_event_loop_once (map example_handle (seqZ 1 15))
             example_context in
  fst r = Ok tt /\ num_reqs_in_batch (snd r) = 15 /\
  tx_responses (snd r) = [].
Proof. vm_compute. auto. Qed.

Example sixteenth_request_drains :
  let r := ex_run_event_loop_once (map example_handle (seqZ 1 16))
             example_context in
  fst r = Ok tt /\ num_reqs_in_batch (snd r) = 0 /\
  map handle_addr (tx_responses (snd r)) = seqZ 1 16 /\
  map (fun rh => data_size (pre_resp_msgbuf rh)) (tx_responses (snd r))
    = replicate 16 sizeof_Result.
Proof. vm_compute. auto. Qed.

(** Three requests in one iteration, none in the next: the idle iteration
    submits the three responses. *)
Example idle_iteration_drains :
  let r := (ex_server_loop_body (map example_handle [1; 2; 3]) ;;
            ex_server_loop_body []) example_context in
  fst r = Ok tt /\ num_reqs_in_batch (snd r) = 0 /\
  map handle_addr (tx_responses (snd r)) = [1; 2; 3].
Proof. vm_compute. auto. Qed.

Lemma batch_counter_invariant_witness :
  reachable example_get_hash example_helper ex_build example_context /\
  (0 <= num_reqs_in_batch example_context < kAppMaxServerBatch /\
   (forall rh,
      fst (ex_req_handler rh example_context) <> Undefined /\
      fst (ex_req_handler_record rh example_context) <> Undefined /\
      0 <= num_reqs_in_batch (snd (ex_req_handler_record rh example_context))
        <= kAppMaxServerBatch /\
      0 <= num_reqs_in_batch (snd (ex_req_handler rh example_context))
        < kAppMaxServerBatch /\
      (fst (ex_req_handler rh example_context) = Ok tt ->
         num_reqs_in_batch (snd (ex_req_handler_record rh example_context))
           = num_reqs_in_batch example_context + 1 /\
         num_reqs_in_batch (snd (ex_req_handler rh example_context))
           = (if num_reqs_in_batch example_context + 1
                 =? kAppMaxServerBatch
              then 0 else num_reqs_in_batch example_context + 1) /\
         length (tx_responses (snd (ex_req_handler rh example_context)))
           = if num_reqs_in_batch example_context + 1 =? kAppMaxServerBatch
             then (length (tx_responses example_context)
                   + Z.to_nat kAppMaxServerBatch)%nat
             else length (tx_responses example_context))) /\
   (forall s,
      fst (ex_loop_end s example_context) = Ok tt /\
      0 <= num_reqs_in_batch (snd (ex_loop_end s example_context))
        < kAppMaxServerBatch)).
Proof.
  split.
  - apply reach_init. unfold initial_context. cbn. repeat split; reflexivity.
  - apply (batch_counter_invariant example_get_hash example_helper ex_build
             example_context).
    apply reach_init. unfold initial_context. cbn.
    repeat split; reflexivity.
Defined.

Lemma example_context_ok : ctx_ok example_context.
Proof. apply initial_context_ok. exact example_context_initial. Qed.

Lemma server_batching_witness :
  ctx_ok example_context /\
  ((forall rh,
      valid_req rh = true \/ kDatapathChecks ex_build = false ->
      exists c',
        ex_req_handler rh example_context = (Ok tt, c') /\
        (num_reqs_in_batch example_context + 1 < kAppMaxServerBatch /\
           tx_responses c' = tx_responses example_context /\
           batch c' = batch example_context ++ [recorded rh]
         \/
         num_reqs_in_batch example_context + 1 = kAppMaxServerBatch /\
           batch c' = [] /\
           exists new,
             tx_responses c' = tx_responses example_context ++ new /\
             map handle_addr new
               = map handle_addr (batch example_context ++ [recorded rh]))) /\
   (exists c' new,
      ex_server_loop_body [] example_context = (Ok tt, c') /\
      tx_responses c' = tx_responses example_context ++ new /\
      map handle_addr new = map handle_addr (batch example_context) /\
      batch c' = []) /\
   (forall arrivals,
      arrivals <> [] -> Z.of_nat (length arrivals) < size_t_mod ->
      ex_server_loop_body arrivals example_context
      = ex_run_event_loop_once arrivals example_context)).
Proof.
  split.
  - unfold ctx_ok, arrays_ok, kAppMaxServerBatch, size_t_mod. cbn.
    repeat split; lia.
  - apply (server_batching example_get_hash example_helper ex_build
             example_context).
    unfold ctx_ok, arrays_ok, kAppMaxServerBatch, size_t_mod. cbn.
    repeat split; lia.
Defined.

End PersistentKvFacts.

(** ** Exchanges on the modelled endpoint *)

Module ExchangeFacts.
Import ERpc.

Lemma preserves_bind {S A B X} (f : S -> X) (m : M S A) (k : A -> M S B) :
  preserves f m -> (forall a, preserves f (k a)) -> preserves f (bind m k).
Proof.
  intros Hm Hk s. unfold bind. specialize (Hm s).
  destruct (m s) as [[a | e | |] s1]; cbn in *; try exact Hm.
  rewrite Hk. exact Hm.
Qed.

Lemma preserves_ret {S A X} (f : S -> X) (a : A) : preserves f (ret a).
Proof. intros s. reflexivity. Qed.

Lemma preserves_gets {S A X} (f : S -> X) (g : S -> A) :
  preserves f (gets g).
Proof. intros s. reflexivity. Qed.

Lemma preserves_throw {S A X} (f : S -> X) e : preserves f (@throw S A e).
Proof. intros s. reflexivity. Qed.

Lemma preserves_abort {S A X} (f : S -> X) : preserves f (@abort S A).
Proof. intros s. reflexivity. Qed.

Lemma preserves_assert {S X} (f : S -> X) b cond :
  preserves f (@assert S b cond).
Proof.
  intros s. unfold assert. destruct (kDatapathChecks b), cond; reflexivity.
Qed.

Lemma preserves_index {S A X} (f : S -> X) (v : list A) i :
  preserves f (@index S A v i).
Proof.
  intros s. unfold index.
  destruct ((0 <=? i) && (i <? Z.of_nat (length v)));
    [destruct (v !! Z.to_nat i) |]; reflexivity.
Qed.

Lemma preserves_deref {S A X} (f : S -> X) (p : option A) :
  preserves f (@deref S A p).
Proof. intros s. destruct p; reflexivity. Qed.

Lemma preserves_modify {S X} (f : S -> X) (g : S -> S) :
  (forall s, f (g s) = f s) -> preserves f (modify g).
Proof. intros H s. apply H. Qed.

Lemma preserves_if {S A X} (f : S -> X) (c : bool) (m1 m2 : M S A) :
  preserves f m1 -> preserves f m2 -> preserves f (if c then m1 else m2).
Proof. destruct c; auto. Qed.

Create HintDb preserves_db.
#[local] Hint Resolve preserves_ret preserves_gets preserves_throw
  preserves_abort preserves_assert preserves_index preserves_deref
  : preserves_db.

Ltac preserves_steps :=
  repeat first
    [ apply preserves_bind; [| intros ?]
    | apply preserves_if
    | apply preserves_modify; intros ?; reflexivity
    | solve [eauto with preserves_db] ].

(** The fault-injection operations write neither the session table nor the
    context, however they end. *)
Lemma fault_ops_preserve {X} (f : Rpc -> X) b tid sn n :
  (forall l r, f (set_sm_tx_list l r) = f r) ->
  (forall x r, f (set_faults x r) = f r) ->
  preserves f (fault_inject_resolve_server_rinfo_st b tid) /\
  preserves f (fault_inject_drop_tx_local_st b tid n) /\
  preserves f (fault_inject_drop_tx_remote_st b tid sn n) /\
  preserves f (fault_inject_reset_remote_epeer_st b tid sn).
Proof.
  intros Hsm Hfa.
  assert (Hchk : preserves f (fault_inject_check_ok b tid)).
  { unfold fault_inject_check_ok. preserves_steps. }
  assert (Henq : forall s ty k, preserves f (enqueue_sm_req_st s ty k)).
  { intros s ty k r. apply Hsm. }
  repeat split.
  - unfold fault_inject_resolve_server_rinfo_st.
    apply preserves_bind; [exact Hchk | intros _].
    intros r. apply Hfa.
  - unfold fault_inject_drop_tx_local_st.
    apply preserves_bind; [exact Hchk | intros _].
    apply preserves_bind; [| intros _]; intros r; apply Hfa.
  - unfold fault_inject_drop_tx_remote_st.
    apply preserves_bind; [exact Hchk | intros _].
    preserves_steps.
  - unfold fault_inject_reset_remote_epeer_st.
    apply preserves_bind; [exact Hchk | intros _].
    preserves_steps.
Qed.

Lemma find_free_slot_spec slots j :
  find_free_slot slots = Some j -> slots !! j = Some None.
Proof.
  revert j. induction slots as [| [sl |] slots IH]; intros j; cbn.
  - discriminate.
  - destruct (find_free_slot slots) as [j' |]; cbn; [| discriminate].
    intros [= <-]. cbn. apply IH. reflexivity.
  - intros [= <-]. reflexivity.
Qed.

Lemma get_session_Some sn r s :
  get_session sn r = Some s ->
  0 <= sn /\ session_vec r !! Z.to_nat sn = Some (Some s).
Proof.
  unfold get_session. destruct (0 <=? sn) eqn:H0; [| discriminate].
  apply Z.leb_le in H0.
  destruct (session_vec r !! Z.to_nat sn) as [[s' |] |]; try discriminate.
  intros [= ->]. auto.
Qed.

Lemma get_session_vec_ext sn r r' :
  session_vec r' = session_vec r -> get_session sn r' = get_session sn r.
Proof. intros H. unfold get_session. rewrite H. reflexivity. Qed.

Lemma get_session_insert_eq sn r x s0 :
  get_session sn r = Some s0 ->
  get_session sn
    (set_session_vec (<[Z.to_nat sn := x]> (session_vec r)) r) = x.
Proof.
  intros H. apply get_session_Some in H as [H0 Hl].
  unfold get_session. apply Z.leb_le in H0. rewrite H0. cbn.
  rewrite list_lookup_insert_eq by (eapply lookup_lt_Some; exact Hl).
  destruct x; reflexivity.
Qed.

Lemma get_session_insert_ne sn sn' r x :
  0 <= sn' -> sn <> sn' ->
  get_session sn
    (set_session_vec (<[Z.to_nat sn' := x]> (session_vec r)) r)
  = get_session sn r.
Proof.
  intros H0 Hne. unfold get_session.
  destruct (0 <=? sn) eqn:Hsn; [| reflexivity].
  apply Z.leb_le in Hsn. cbn.
  rewrite list_lookup_insert_ne by lia. reflexivity.
Qed.

Lemma get_session_app sn r s l :
  get_session sn r = Some s ->
  get_session sn (set_session_vec (session_vec r ++ l) r) = Some s.
Proof.
  intros H. apply get_session_Some in H as [H0 Hl].
  unfold get_session. apply Z.leb_le in H0. rewrite H0. cbn.
  rewrite lookup_app_l by (eapply lookup_lt_Some; exact Hl).
  rewrite Hl. reflexivity.
Qed.

Lemma in_flight_vec_ext sn i sl r r' :
  session_vec r' = session_vec r -> in_flight sn i sl r -> in_flight sn i sl r'.
Proof.
  intros H (s & Hs & Hsl & Hst). exists s.
  rewrite (get_session_vec_ext _ _ _ H). auto.
Qed.

Lemma in_flight_slot_of sn i sl r :
  in_flight sn i sl r -> slot_of sn i r = Some sl.
Proof.
  intros (s & Hs & Hsl & _). unfold slot_of. rewrite Hs, Hsl. reflexivity.
Qed.

(** Every operation leaves the context pointer alone. *)
Lemma step_context b cfg op : preserves context (step b cfg op).
Proof.
  destruct op as [tid sn ty req resp cont tag | e | cc host id | cc sn
                 | tid | tid n | tid sn n | tid sn]; cbn [step].
  - unfold enqueue_request, put_session.
    preserves_steps; intros r; unfold bind, modify, ret;
      repeat case_match; reflexivity.
  - intros r. unfold handle_event, put_session, bind, get, modify, ret.
    repeat case_match; reflexivity.
  - unfold create_session.
    preserves_steps; intros r; unfold enqueue_sm_req_st, bind, modify, ret;
      repeat case_match; reflexivity.
  - unfold destroy_session, put_session.
    preserves_steps; intros r; unfold enqueue_sm_req_st, bind, modify, ret;
      repeat case_match; reflexivity.
  - apply preserves_bind; [| intros; apply preserves_ret].
    apply (fault_ops_preserve context b tid 0 0); reflexivity.
  - apply preserves_bind; [| intros; apply preserves_ret].
    apply (fault_ops_preserve context b tid 0 n); reflexivity.
  - apply preserves_bind; [| intros; apply preserves_ret].
    apply (fault_ops_preserve context b tid sn n); reflexivity.
  - apply preserves_bind; [| intros; apply preserves_ret].
    apply (fault_ops_preserve context b tid sn 0); reflexivity.
Qed.

Lemma in_flight_put sn i sl r sn' s' s'' :
  in_flight sn i sl r ->
  get_session sn' r = Some s' ->
  (sn' = sn ->
     sslot_arr s'' !! i = Some (Some sl) /\
     (state s'' = kConnected \/ state s'' = kDisconnectInProgress)) ->
  in_flight sn i sl
    (set_session_vec (<[Z.to_nat sn' := Some s'']> (session_vec r)) r).
Proof.
  intros (s & Hs & Hsl & Hst) Hs' Hsame.
  destruct (Z.eq_dec sn' sn) as [-> | Hne].
  - exists s''. rewrite (get_session_insert_eq _ _ _ _ Hs).
    destruct (Hsame eq_refl). auto.
  - exists s. apply get_session_Some in Hs' as [H0 _].
    rewrite get_session_insert_ne by auto. auto.
Qed.

Lemma in_flight_put_other sn i sl r sn' x :
  in_flight sn i sl r -> 0 <= sn' -> sn' <> sn ->
  in_flight sn i sl
    (set_session_vec (<[Z.to_nat sn' := x]> (session_vec r)) r).
Proof.
  intros (s & Hs & Hsl & Hst) H0 Hne. exists s.
  rewrite get_session_insert_ne by auto. auto.
Qed.

Lemma enqueue_request_in_flight cfg tid sn' ty req resp cont tag sn i sl r :
  in_flight sn i sl r ->
  in_flight sn i sl
    (snd (enqueue_request cfg tid sn' ty req resp cont tag r)).
Proof.
  intros Hfl. unfold enqueue_request, put_session, bind, gets, get, modify,
    ret, abort.
  destruct (negb (in_creator tid r)); [exact Hfl |].
  destruct (max_msg_size cfg <? data_size req); [exact Hfl |].
  destruct (get_session sn' r) as [s' |] eqn:Hs'; [| exact Hfl].
  destruct (negb (is_connected s')); [exact Hfl |].
  destruct (credits s' <=? 0); [exact Hfl |].
  destruct (find_free_slot (sslot_arr s')) as [j |] eqn:Hj; [| exact Hfl].
  cbn. eapply in_flight_put; [exact Hfl | exact Hs' |].
  intros ->. destruct Hfl as (s & Hs & Hsl & Hst).
  rewrite Hs in Hs'. injection Hs' as <-.
  apply find_free_slot_spec in Hj. cbn. split; [| exact Hst].
  rewrite list_lookup_insert_ne; [exact Hsl |].
  intros ->. congruence.
Qed.

Lemma handle_event_in_flight e sn i sl r :
  in_flight sn i sl r -> ends_exchange sn i (OpEvent e) = false ->
  in_flight sn i sl (snd (handle_event e r)).
Proof.
  intros Hfl Hends.
  unfold handle_event, put_session, bind, get, modify, ret.
  destruct e as [sn' j n | sn' | sn']; cbn in Hends.
  - destruct (get_session sn' r) as [s' |] eqn:Hs'; [| exact Hfl].
    destruct (sslot_arr s' !! j) as [[sl' |] |] eqn:Hj; try exact Hfl.
    destruct (Z.pos n <=? max_data_size (sl_resp_msgbuf sl'));
      [| exact Hfl].
    cbn. eapply in_flight_put; [exact Hfl | exact Hs' |].
    intros ->. destruct Hfl as (s & Hs & Hsl & Hst).
    rewrite Hs in Hs'. injection Hs' as <-.
    cbn. split; [| exact Hst].
    rewrite Z.eqb_refl in Hends. cbn in Hends. apply Nat.eqb_neq in Hends.
    rewrite list_lookup_insert_ne by exact Hends. exact Hsl.
  - apply Z.eqb_neq in Hends.
    destruct (get_session sn' r) as [s' |] eqn:Hs'; [| exact Hfl].
    cbn. apply get_session_Some in Hs' as [H0 _].
    apply in_flight_put_other; assumption.
  - apply Z.eqb_neq in Hends.
    destruct (get_session sn' r) as [s' |] eqn:Hs'; [| exact Hfl].
    apply get_session_Some in Hs' as [H0 _].
    destruct (state s'); try exact Hfl.
    cbn. apply in_flight_put_other; assumption.
Qed.

Lemma create_session_in_flight cfg cc host id sn i sl r :
  in_flight sn i sl r ->
  in_flight sn i sl (snd (create_session cfg cc host id r)).
Proof.
  intros Hfl. unfold create_session, enqueue_sm_req_st, bind, get, modify,
    ret.
  destruct (in_callback cc); [exact Hfl |].
  destruct (negb (valid_uri cfg host)); [exact Hfl |].
  destruct (kMaxSessions cfg <=? length (session_vec r))%nat; [exact Hfl |].
  cbn. destruct Hfl as (s & Hs & Hsl & Hst). exists s.
  split; [| auto].
  rewrite <- (get_session_app sn r s
                [Some
                   (mkSession kClient kConnectInProgress
                      (Z.of_nat (length (session_vec r)))
                      (mkSessionEndpoint (hostname (local_endpoint cfg))
                         (ep_rpc_id (local_endpoint cfg))
                         (Z.of_nat (length (session_vec r))))
                      (mkSessionEndpoint host id (-1))
                      (Z.of_nat (kSessionReqWindow cfg))
                      (replicate (kSessionReqWindow cfg) None))] Hs).
  apply get_session_vec_ext. reflexivity.
Qed.

Lemma destroy_session_in_flight cc sn' sn i sl r :
  in_flight sn i sl r ->
  in_flight sn i sl (snd (destroy_session cc sn' r)).
Proof.
  intros Hfl. unfold destroy_session, put_session, enqueue_sm_req_st, bind,
    get, modify, ret.
  destruct (in_callback cc); [exact Hfl |].
  destruct (get_session sn' r) as [s' |] eqn:Hs'; [| exact Hfl].
  destruct (state s') eqn:Hst'; try exact Hfl; cbn.
  - eapply in_flight_vec_ext; [reflexivity |].
    change (in_flight sn i sl
              (set_session_vec
                 (<[Z.to_nat sn' := Some (set_state kDisconnectInProgress s')]>
                    (session_vec r)) r)).
    eapply in_flight_put; [exact Hfl | exact Hs' |].
    intros ->. destruct Hfl as (s & Hs & Hsl & Hst).
    rewrite Hs in Hs'. injection Hs' as <-. cbn. auto.
  - destruct (Z.eq_dec sn' sn) as [-> | Hne].
    + destruct Hfl as (s & Hs & Hsl & Hst).
      rewrite Hs in Hs'. injection Hs' as <-.
      destruct Hst; congruence.
    + apply get_session_Some in Hs' as [H0 _].
      apply in_flight_put_other; assumption.
Qed.

(** An operation that does not end the exchange leaves it in flight. *)
Lemma step_in_flight b cfg op sn i sl r :
  in_flight sn i sl r -> ends_exchange sn i op = false ->
  in_flight sn i sl (snd (step b cfg op r)).
Proof.
  intros Hfl Hends.
  assert (Hret : forall (m : M Rpc unit),
             in_flight sn i sl (snd (m r)) ->
             in_flight sn i sl
               (snd ((m ;; ret (@nil ContInvocation)) r))).
  { intros m H. unfold bind. destruct (m r) as [[[] | e | |] r1]; exact H. }
  assert (HretZ : forall (m : M Rpc Z),
             in_flight sn i sl (snd (m r)) ->
             in_flight sn i sl
               (snd ((m ;; ret (@nil ContInvocation)) r))).
  { intros m H. unfold bind. destruct (m r) as [[z | e | |] r1]; exact H. }
  destruct op as [tid sn' ty req resp cont tag | e | cc host id | cc sn'
                 | tid | tid n | tid sn' n | tid sn']; cbn [step].
  - apply HretZ. apply enqueue_request_in_flight. exact Hfl.
  - apply handle_event_in_flight; assumption.
  - apply HretZ. apply create_session_in_flight. exact Hfl.
  - apply HretZ. apply destroy_session_in_flight. exact Hfl.
  - apply Hret. eapply in_flight_vec_ext; [| exact Hfl].
    apply (fault_ops_preserve session_vec b tid 0 0); reflexivity.
  - apply Hret. eapply in_flight_vec_ext; [| exact Hfl].
    apply (fault_ops_preserve session_vec b tid 0 n); reflexivity.
  - apply Hret. eapply in_flight_vec_ext; [| exact Hfl].
    apply (fault_ops_preserve session_vec b tid sn' n); reflexivity.
  - apply Hret. eapply in_flight_vec_ext; [| exact Hfl].
    apply (fault_ops_preserve session_vec b tid sn' 0); reflexivity.
Qed.

Lemma run_ops_in_flight b cfg ops : forall sn i sl r,
  in_flight sn i sl r ->
  Forall (fun op => ends_exchange sn i op = false) ops ->
  in_flight sn i sl (snd (run_ops b cfg ops r)) /\
  context (snd (run_ops b cfg ops r)) = context r.
Proof.
  induction ops as [| op ops IH]; intros sn i sl r Hfl Hall.
  - split; [exact Hfl | reflexivity].
  - apply Forall_cons in Hall as [Hop Hall].
    pose proof (step_in_flight b cfg op sn i sl r Hfl Hop) as Hstep.
    pose proof (step_context b cfg op r) as Hctx.
    cbn [run_ops]. unfold bind.
    destruct (step b cfg op r) as [[invs | e | |] r1]; cbn [snd] in *;
      try (split; assumption).
    destruct (IH sn i sl r1 Hstep Hall) as [Hfl' Hctx'].
    destruct (run_ops b cfg ops r1) as [[invs' | e | |] r2];
      unfold ret; cbn [snd] in *; (split; [exact Hfl' | congruence]).
Qed.

(** A successful [enqueue_request] has put the exchange in a slot that was
    free. *)
Lemma enqueue_request_success cfg tid sn ty req resp cont tag r r1 :
  enqueue_request cfg tid sn ty req resp cont tag r = (Ok 0, r1) ->
  exists i,
    slot_of sn i r = None /\
    in_flight sn i (mkSSlot ty req resp cont tag) r1 /\
    context r1 = context r.
Proof.
  unfold enqueue_request, put_session, bind, gets, get, modify, ret, abort.
  destruct (negb (in_creator tid r)); [discriminate |].
  destruct (max_msg_size cfg <? data_size req); [discriminate |].
  destruct (get_session sn r) as [s |] eqn:Hs; [| discriminate].
  destruct (is_connected s) eqn:Hconn; cbn [negb]; [| discriminate].
  destruct (credits s <=? 0); [discriminate |].
  destruct (find_free_slot (sslot_arr s)) as [j |] eqn:Hj; [| discriminate].
  intros [= <-]. exists j.
  apply find_free_slot_spec in Hj.
  split; [unfold slot_of; rewrite Hs, Hj; reflexivity |].
  split; [| reflexivity].
  eexists. split; [apply (get_session_insert_eq _ _ _ _ Hs) |].
  cbn. split.
  - apply list_lookup_insert_eq. eapply lookup_lt_Some. exact Hj.
  - left. unfold is_connected in Hconn.
    destruct (state s); try discriminate. reflexivity.
Qed.

Lemma failure_invocations_In r sn slots : forall k inv,
  In inv (failure_invocations r sn k slots) ->
  exists j sl,
    slots !! j = Some (Some sl) /\
    inv = invocation r sn (k + j)%nat sl 0.
Proof.
  induction slots as [| [sl |] slots IH]; intros k inv Hin; cbn in Hin.
  - contradiction.
  - destruct Hin as [<- | Hin].
    + exists 0%nat, sl. rewrite Nat.add_0_r. auto.
    + destruct (IH _ _ Hin) as (j & sl' & Hj & ->).
      exists (S j), sl'. split; [exact Hj |]. f_equal. lia.
  - destruct (IH _ _ Hin) as (j & sl' & Hj & ->).
    exists (S j), sl'. split; [exact Hj |]. f_equal. lia.
Qed.

Lemma failure_invocations_complete r sn slots : forall k j sl,
  slots !! j = Some (Some sl) ->
  In (invocation r sn (k + j)%nat sl 0) (failure_invocations r sn k slots).
Proof.
  induction slots as [| [sl' |] slots IH]; intros k j sl Hj.
  - discriminate.
  - destruct j as [| j]; cbn in *.
    + injection Hj as ->. rewrite Nat.add_0_r. left. reflexivity.
    + right. replace (k + S j)%nat with (S k + j)%nat by lia.
      apply IH. exact Hj.
  - destruct j as [| j]; cbn in *; [discriminate |].
    replace (k + S j)%nat with (S k + j)%nat by lia. apply IH. exact Hj.
Qed.

(** Every continuation that an event makes the endpoint invoke belongs to an
    exchange in flight and is invoked with that exchange's continuation,
    response buffer and tag; the payload size is that of the response when
    the event is a final response and zero otherwise. *)
Lemma handle_event_invocation e r invs r' inv :
  handle_event e r = (Ok invs, r') -> In inv invs ->
  exists sl,
    slot_of (rh_session_num (ci_resp_handle inv))
      (rh_slot (ci_resp_handle inv)) r = Some sl /\
    inv = invocation r (rh_session_num (ci_resp_handle inv))
            (rh_slot (ci_resp_handle inv)) sl
            (match e with
             | EvRxFinalResponse _ _ n => Z.pos n
             | _ => 0
             end).
Proof.
  unfold handle_event, put_session, bind, get, modify, ret.
  destruct e as [sn i n | sn | sn].
  - destruct (get_session sn r) as [s |] eqn:Hs;
      [| intros [= <- <-] []].
    destruct (sslot_arr s !! i) as [[sl |] |] eqn:Hi;
      try (intros [= <- <-] []).
    destruct (Z.pos n <=? max_data_size (sl_resp_msgbuf sl));
      [| intros [= <- <-] []].
    intros [= <- <-] [<- | []]. exists sl. cbn.
    unfold slot_of. rewrite Hs, Hi. auto.
  - destruct (get_session sn r) as [s |] eqn:Hs;
      [| intros [= <- <-] []].
    intros [= <- <-] Hin.
    apply failure_invocations_In in Hin as (j & sl & Hj & ->).
    exists sl. cbn. unfold slot_of. rewrite Hs, Hj. auto.
  - destruct (get_session sn r) as [s |] eqn:Hs;
      [| intros [= <- <-] []].
    destruct (state s); try (intros [= <- <-] []).
    intros [= <- <-] Hin.
    apply failure_invocations_In in Hin as (j & sl & Hj & ->).
    exists sl. cbn. unfold slot_of. rewrite Hs, Hj. auto.
Qed.

(** The final response of an exchange in flight makes the endpoint invoke
    its continuation, once, and frees the slot. *)
Lemma final_response_invokes sn i sl r n :
  in_flight sn i sl r ->
  Z.pos n <= max_data_size (sl_resp_msgbuf sl) ->
  exists r',
    handle_event (EvRxFinalResponse sn i n) r
    = (Ok [invocation r sn i sl (Z.pos n)], r') /\
    slot_of sn i r' = None.
Proof.
  intros (s & Hs & Hsl & Hst) Hfit.
  unfold handle_event, put_session, bind, get, modify, ret.
  rewrite Hs, Hsl. apply Z.leb_le in Hfit. rewrite Hfit.
  eexists. split; [reflexivity |].
  unfold slot_of. rewrite (get_session_insert_eq _ _ _ _ Hs). cbn.
  rewrite list_lookup_insert_eq by (eapply lookup_lt_Some; exact Hsl).
  reflexivity.
Qed.

(** The failure of the session makes the endpoint invoke the continuation
    with an empty response buffer. *)
Lemma session_failure_invokes sn i sl r :
  in_flight sn i sl r ->
  exists invs r',
    handle_event (EvSessionFailed sn) r = (Ok invs, r') /\
    In (invocation r sn i sl 0) invs /\
    slot_of sn i r' = None.
Proof.
  intros (s & Hs & Hsl & Hst).
  unfold handle_event, put_session, bind, get, modify, ret.
  rewrite Hs. eexists _, _. split; [reflexivity |]. split.
  - apply (failure_invocations_complete r sn (sslot_arr s) 0 i sl Hsl).
  - unfold slot_of. rewrite (get_session_insert_eq _ _ _ _ Hs). cbn.
    rewrite lookup_replicate_2 by (eapply lookup_lt_Some; exact Hsl).
    reflexivity.
Qed.

(** C8: after a successful [enqueue_request (session, req_type, req, resp,
    cont, tag)] the exchange sits in a slot that was free, and whatever
    other operations the endpoint performs before the exchange ends, the end
    of the exchange invokes [cont] with a handle on [resp], the context
    given when the endpoint was constructed and the tag [tag]: the final
    response of the exchange invokes it exactly once, with the response's
    payload size; the failure of the session invokes it with an empty
    response buffer; and no event invokes anything else for this slot. *)
Theorem continuation_invoked_with_handle_context_tag
    b cfg tid session_num req_type req resp cont tag r r1 :
  enqueue_request cfg tid session_num req_type req resp cont tag r
    = (Ok 0, r1) ->
  exists i,
    slot_of session_num i r = None /\
    slot_of session_num i r1 = Some (mkSSlot req_type req resp cont tag) /\
    forall ops,
      Forall (fun op => ends_exchange session_num i op = false) ops ->
      (forall n,
         Z.pos n <= max_data_size resp ->
         exists r3,
           handle_event (EvRxFinalResponse session_num i n)
             (snd (run_ops b cfg ops r1))
           = (Ok [mkContInvocation cont
                    (mkRespHandle session_num i
                       (mkMsgBuffer (buf resp) (max_data_size resp)
                          (Z.pos n)))
                    (context r) tag], r3) /\
           slot_of session_num i r3 = None) /\
      (exists invs r3,
         handle_event (EvSessionFailed session_num)
           (snd (run_ops b cfg ops r1)) = (Ok invs, r3) /\
         In (mkContInvocation cont
               (mkRespHandle session_num i
                  (mkMsgBuffer (buf resp) (max_data_size resp) 0))
               (context r) tag) invs) /\
      (forall e invs r3 inv,
         handle_event e (snd (run_ops b cfg ops r1)) = (Ok invs, r3) ->
         In inv invs ->
         rh_session_num (ci_resp_handle inv) = session_num ->
         rh_slot (ci_resp_handle inv) = i ->
         ci_cont inv = cont /\ ci_context inv = context r /\
         ci_tag inv = tag /\
         buf (rh_resp_msgbuf (ci_resp_handle inv)) = buf resp).
Proof.
  intros Henq.
  destruct (enqueue_request_success _ _ _ _ _ _ _ _ _ _ Henq)
    as (i & Hfree & Hfl & Hctx).
  exists i. split; [exact Hfree |].
  split; [apply in_flight_slot_of; exact Hfl |].
  intros ops Hops.
  destruct (run_ops_in_flight b cfg ops session_num i _ r1 Hfl Hops)
    as [Hfl2 Hctx2].
  set (r2 := snd (run_ops b cfg ops r1)) in *.
  assert (Hc : context r2 = context r) by congruence.
  split; [| split].
  - intros n Hfit.
    destruct (final_response_invokes session_num i _ r2 n Hfl2 Hfit)
      as (r3 & Hrun & Hslot).
    exists r3. split; [| exact Hslot].
    rewrite Hrun. unfold invocation. cbn. rewrite Hc. reflexivity.
  - destruct (session_failure_invokes session_num i _ r2 Hfl2)
      as (invs & r3 & Hrun & Hin & _).
    exists invs, r3. split; [exact Hrun |].
    unfold invocation in Hin. cbn in Hin. rewrite Hc in Hin. exact Hin.
  - intros e invs r3 inv Hrun Hin Hsn Hi.
    destruct (handle_event_invocation e r2 invs r3 inv Hrun Hin)
      as (sl & Hsl & Hinv).
    rewrite Hsn, Hi in Hsl, Hinv.
    rewrite (in_flight_slot_of _ _ _ _ Hfl2) in Hsl. injection Hsl as <-.
    rewrite Hinv. cbn. auto.
Qed.

(** On the example endpoint: a request with continuation 77 and tag 7 on
    session 0. *)
Lemma continuation_invoked_with_handle_context_tag_witness :
  exists i,
    slot_of 0 i example_rpc = None /\
    slot_of 0 i
      (snd (enqueue_request example_config 1 0 1 example_req example_resp
              77 7 example_rpc))
    = Some (mkSSlot 1 example_req example_resp 77 7) /\
    forall ops,
      Forall (fun op => ends_exchange 0 i op = false) ops ->
      (forall n,
         Z.pos n <= max_data_size example_resp ->
         exists r3,
           handle_event (EvRxFinalResponse 0 i n)
             (snd (run_ops (mkBuild true true) example_config ops
                     (snd (enqueue_request example_config 1 0 1 example_req
                             example_resp 77 7 example_rpc))))
           = (Ok [mkContInvocation 77
                    (mkRespHandle 0 i
                       (mkMsgBuffer (buf example_resp)
                          (max_data_size example_resp) (Z.pos n)))
                    (context example_rpc) 7], r3) /\
           slot_of 0 i r3 = None) /\
      (exists invs r3,
         handle_event (EvSessionFailed 0)
           (snd (run_ops (mkBuild true true) example_config ops
                   (snd (enqueue_request example_config 1 0 1 example_req
                           example_resp 77 7 example_rpc))))
         = (Ok invs, r3) /\
         In (mkContInvocation 77
               (mkRespHandle 0 i
                  (mkMsgBuffer (buf example_resp)
                     (max_data_size example_resp) 0))
               (context example_rpc) 7) invs) /\
      (forall e invs r3 inv,
         handle_event e
           (snd (run_ops (mkBuild true true) example_config ops
                   (snd (enqueue_request example_config 1 0 1 example_req
                           example_resp 77 7 example_rpc))))
         = (Ok invs, r3) ->
         In inv invs ->
         rh_session_num (ci_resp_handle inv) = 0 ->
         rh_slot (ci_resp_handle inv) = i ->
         ci_cont inv = 77%nat /\ ci_context inv = context example_rpc /\
         ci_tag inv = 7 /\
         buf (rh_resp_msgbuf (ci_resp_handle inv)) = buf example_resp).
Proof.
  apply (continuation_invoked_with_handle_context_tag (mkBuild true true)
           example_config 1 0 1 example_req example_resp 77 7 example_rpc).
  reflexivity.
Defined.

(** Two requests in flight on the example session, completed in the
    opposite order: each continuation gets its own tag. *)
Example two_exchanges_out_of_order :
  fst (run_ops (mkBuild true true) example_config
         [OpEnqueueRequest 1 0 1 example_req example_resp 77 7;
          OpEnqueueRequest 1 0 1 example_req example_resp 78 8;
          OpEvent (EvRxFinalResponse 0 1 16);
          OpEvent (EvRxFinalResponse 0 0 32)] example_rpc)
  = Ok [mkContInvocation 78
          (mkRespHandle 0 1 (mkMsgBuffer 12288 64 16)) 4096 8;
        mkContInvocation 77
          (mkRespHandle 0 0 (mkMsgBuffer 12288 64 32)) 4096 7].
Proof. vm_compute. reflexivity. Qed.

End ExchangeFacts.

(** ** The client of the replicated service (client.h) *)

Module ConsensusFacts.
Import ERpc Consensus.

Section Client.

Context {Sample : Type}.
Variable FLAGS_num_raft_servers : Z.
Variable kAppNumKeys : Z.
Variable kAppVerbose : bool.
Variable kClientReq : Z.
Variable client_cont_id : nat.
Variable node_id_of_machine : Z -> Z.
Variable b : Build.
Variable cfg : Config.

Local Abbreviation Ctx := (@AppContext Sample).
Local Abbreviation client_cont :=
  (@Consensus.client_cont Sample FLAGS_num_raft_servers kAppNumKeys
     kAppVerbose kClientReq client_cont_id node_id_of_machine b cfg).
Local Abbreviation send_req_one :=
  (@Consensus.send_req_one Sample kAppNumKeys kAppVerbose kClientReq
     client_cont_id b cfg).
Local Abbreviation change_leader_to_any :=
  (@Consensus.change_leader_to_any Sample FLAGS_num_raft_servers).
Local Abbreviation change_leader_to_node :=
  (@Consensus.change_leader_to_node Sample FLAGS_num_raft_servers
     node_id_of_machine).

Lemma emits_bind P {A B} (m : M Ctx A) (k : A -> M Ctx B) :
  emits P m -> (forall a, emits P (k a)) -> emits P (bind m k).
Proof.
  intros Hm Hk c. unfold bind. destruct (Hm c) as (new & Hout & Hall).
  destruct (m c) as [[a | e | |] c1]; cbn in *;
    try solve [exists new; auto].
  destruct (Hk a c1) as (new' & Hout' & Hall').
  exists (new ++ new'). rewrite Hout', Hout, app_assoc.
  split; [reflexivity | apply Forall_app; auto].
Qed.

Lemma emits_nothing P {A} (m : M Ctx A) :
  (forall c, output (snd (m c)) = output c) -> emits P m.
Proof.
  intros H c. exists []. rewrite app_nil_r. split; [apply H | constructor].
Qed.

Lemma emits_printf (P : Output -> Prop) o : P o -> emits P (@printf Sample o).
Proof.
  intros Ho c. exists [o]. split; [reflexivity | repeat constructor; exact Ho].
Qed.

Lemma emits_if P {A} (cond : bool) (m1 m2 : M Ctx A) :
  emits P m1 -> emits P m2 -> emits P (if cond then m1 else m2).
Proof. destruct cond; auto. Qed.

Lemma emits_ret P {A} (a : A) : emits P (@ret Ctx A a).
Proof. apply emits_nothing. reflexivity. Qed.

Lemma emits_get P : emits P (@get Ctx).
Proof. apply emits_nothing. reflexivity. Qed.

Lemma emits_exit P {A} : emits P (@exit Sample A).
Proof. apply emits_nothing. reflexivity. Qed.

Lemma emits_index P {A} (v : list A) i : emits P (@index Ctx A v i).
Proof.
  apply emits_nothing. intros c. unfold index.
  repeat case_match; reflexivity.
Qed.

Lemma emits_assert P cond : emits P (@assert Ctx b cond).
Proof.
  apply emits_nothing. intros c. unfold assert.
  repeat case_match; reflexivity.
Qed.

Lemma emits_on_rpc P {A} (m : M Rpc A) : emits P (@on_rpc Sample A m).
Proof.
  apply emits_nothing. intros c. unfold on_rpc.
  destruct (m (rpc c)). reflexivity.
Qed.

Lemma emits_modify P (f : Ctx -> Ctx) :
  (forall c, output (f c) = output c) -> emits P (modify f).
Proof. intros H. apply emits_nothing. exact H. Qed.

Ltac emits_step :=
  lazymatch goal with
  | |- emits _ (bind _ _) => apply emits_bind; [| intros ?]
  | |- emits _ (if _ then _ else _) => apply emits_if
  | |- emits _ (ret _) => apply emits_ret
  | |- emits _ get => apply emits_get
  | |- emits _ exit => apply emits_exit
  | |- emits _ (index _ _) => apply emits_index
  | |- emits _ (assert _ _) => apply emits_assert
  | |- emits _ (on_rpc _) => apply emits_on_rpc
  | |- emits _ (printf _) => apply emits_printf; exact I
  | |- emits _ (usleep _) => unfold usleep
  | |- emits _ (release_response _) => unfold release_response
  | |- emits _ (modify _) => apply emits_modify; intros ?; reflexivity
  end.

Ltac emits_steps := repeat emits_step.

Lemma next_connected_quiet conns cur fuel : forall i,
  emits quiet (@next_connected Sample FLAGS_num_raft_servers conns cur i fuel).
Proof.
  induction fuel as [| fuel IH]; intros i; cbn; emits_steps. apply IH.
Qed.

Lemma change_leader_to_any_quiet : emits quiet change_leader_to_any.
Proof.
  unfold Consensus.change_leader_to_any.
  apply emits_bind; [apply emits_get | intros c].
  apply emits_bind; [apply emits_printf; exact I | intros _].
  apply emits_bind; [apply next_connected_quiet | intros [i |]];
    emits_steps.
Qed.

Lemma change_leader_to_node_quiet node_id :
  emits quiet (change_leader_to_node node_id).
Proof.
  unfold Consensus.change_leader_to_node.
  apply emits_bind; [apply emits_get | intros c].
  destruct (find_node _ _ _ _ _); emits_steps.
Qed.

Lemma send_req_one_quiet tid : emits quiet (send_req_one tid).
Proof. unfold Consensus.send_req_one. emits_steps. Qed.

Lemma quiet_not_failure new leader :
  Forall quiet new -> ~ In (PrintRpcFailedToComplete leader) new.
Proof.
  intros Hall Hin. rewrite Forall_forall in Hall.
  apply (Hall (PrintRpcFailedToComplete leader)).
  apply list_elem_of_In. exact Hin.
Qed.

(** [client_cont] takes the branch "continuation-with-failure" exactly when
    the payload size of the response buffer is zero. *)
Lemma client_cont_reports_failure tid latency_us rh tag (c : Ctx) :
  0 <= data_size (resp_msgbuf c) ->
  reports_failure c (snd (client_cont tid latency_us rh tag c)) <->
  data_size (resp_msgbuf c) = 0.
Proof.
  intros Hsize. unfold Consensus.client_cont.
  do 3 (erewrite bind_Ok by reflexivity).
  set (c1 := set_stats _ _ _).
  assert (Hpre : exists c0 pre,
             (if num_resps c1 =? 10000
              then printf PrintLatency ;; modify (set_stats 0 [])
              else ret tt) c1 = (Ok tt, c0) /\
             output c0 = output c ++ pre /\ Forall quiet pre /\
             resp_msgbuf c0 = resp_msgbuf c /\ leader_idx c0 = leader_idx c).
  { destruct (num_resps c1 =? 10000).
    - eexists _, [PrintLatency]. split; [reflexivity |].
      repeat split. repeat constructor.
    - exists c1, []. split; [reflexivity |]. cbn. rewrite app_nil_r.
      repeat split. constructor. }
  destruct Hpre as (c0 & pre & Hrun & Hout & Hquiet & Hresp & Hlead).
  erewrite bind_Ok by exact Hrun.
  erewrite bind_Ok by reflexivity.
  rewrite Hresp. unfold reports_failure.
  destruct (0 <? data_size (resp_msgbuf c)) eqn:Hpos.
  - apply Z.ltb_lt in Hpos.
    match goal with
    | |- context [snd (?m c0)] =>
        assert (Hm : emits quiet m)
    end.
    { apply emits_bind; [| intros _].
      - apply emits_bind; [emits_steps | intros _].
        destruct (resp_type (resp_payload c0)); emits_steps.
        apply change_leader_to_node_quiet.
      - apply emits_bind; [emits_steps | intros _].
        apply send_req_one_quiet. }
    destruct (Hm c0) as (new & Hout' & Hquiet').
    rewrite Hout', Hout, <- app_assoc, drop_app_length.
    split; [| lia].
    intros (leader & Hin). exfalso.
    apply (quiet_not_failure (pre ++ new) leader);
      [apply Forall_app; auto | exact Hin].
  - apply Z.ltb_ge in Hpos.
    split; [lia | intros _].
    rewrite bind_assoc.
    erewrite bind_Ok by reflexivity.
    match goal with
    | |- context [snd (?m ?c')] =>
        assert (Hm : emits quiet m); [| destruct (Hm c') as (new & Hout' & _)]
    end.
    { apply emits_bind; [apply change_leader_to_any_quiet | intros _].
      apply emits_bind; [emits_steps | intros _].
      apply send_req_one_quiet. }
    exists (leader_idx c0). rewrite Hout'. cbn [output].
    rewrite Hout, <- !app_assoc, drop_app_length.
    apply in_or_app. right. apply in_or_app. left. left. reflexivity.
Qed.

(** C3: for every continuation that the endpoint invokes, the payload size
    of the response buffer tells the outcome: it is positive when the
    exchange completed with a response (and is that response's size) and
    zero when the endpoint could not complete the exchange (session failure
    or disconnect).  Nothing else reaches the continuation: it is called
    with the handle, the context and the tag only.  The consensus client
    relies on exactly this: [client_cont], called on the buffer as the
    endpoint has left it, takes the branch "continuation-with-failure" if
    and only if the exchange did not complete. *)
Theorem continuation_outcome_by_payload_size e r invs r' inv :
  handle_event e r = (Ok invs, r') -> In inv invs ->
  (completed_successfully e = true /\
     0 < data_size (rh_resp_msgbuf (ci_resp_handle inv))
   \/
   completed_successfully e = false /\
     data_size (rh_resp_msgbuf (ci_resp_handle inv)) = 0) /\
  forall tid latency_us received (c : Ctx),
    reports_failure (deliver inv received c)
      (snd (client_cont tid latency_us (ci_resp_handle inv) (ci_tag inv)
              (deliver inv received c)))
    <-> completed_successfully e = false.
Proof.
  intros Hrun Hin.
  destruct (ExchangeFacts.handle_event_invocation e r invs r' inv Hrun Hin)
    as (sl & _ & Hinv).
  assert (Hsize : data_size (rh_resp_msgbuf (ci_resp_handle inv))
                  = match e with
                    | EvRxFinalResponse _ _ n => Z.pos n
                    | _ => 0
                    end).
  { rewrite Hinv at 1. reflexivity. }
  assert (Hcase : completed_successfully e = true /\
                    0 < data_size (rh_resp_msgbuf (ci_resp_handle inv))
                  \/
                  completed_successfully e = false /\
                    data_size (rh_resp_msgbuf (ci_resp_handle inv)) = 0).
  { rewrite Hsize. destruct e; cbn; [left | right | right]; auto.
    split; [reflexivity | lia]. }
  split; [exact Hcase |].
  intros tid latency_us received c.
  rewrite client_cont_reports_failure.
  - change (resp_msgbuf (deliver inv received c))
      with (rh_resp_msgbuf (ci_resp_handle inv)).
    destruct Hcase as [[-> Hpos] | [-> Hzero]]; split; intros; 
      try lia; try discriminate; auto.
  - change (resp_msgbuf (deliver inv received c))
      with (rh_resp_msgbuf (ci_resp_handle inv)).
    destruct Hcase as [[_ Hpos] | [_ Hzero]]; lia.
Qed.

End Client.

Lemma continuation_outcome_by_payload_size_witness :
  ((completed_successfully (EvSessionFailed 0) = true /\
      0 < data_size (rh_resp_msgbuf (ci_resp_handle example_failed))
    \/
    completed_successfully (EvSessionFailed 0) = false /\
      data_size (rh_resp_msgbuf (ci_resp_handle example_failed)) = 0) /\
   forall tid (latency_us : Z) received c,
     reports_failure (deliver example_failed received c)
       (snd (client_cont 3 1024 false 1 77 (fun i => i) (mkBuild true true)
               example_config tid latency_us
               (ci_resp_handle example_failed) (ci_tag example_failed)
               (deliver example_failed received c)))
     <-> completed_successfully (EvSessionFailed 0) = false) /\
  ((completed_successfully (EvRxFinalResponse 0 0 24) = true /\
      0 < data_size (rh_resp_msgbuf (ci_resp_handle example_completed))
    \/
    completed_successfully (EvRxFinalResponse 0 0 24) = false /\
      data_size (rh_resp_msgbuf (ci_resp_handle example_completed)) = 0) /\
   forall tid (latency_us : Z) received c,
     reports_failure (deliver example_completed received c)
       (snd (client_cont 3 1024 false 1 77 (fun i => i) (mkBuild true true)
               example_config tid latency_us
               (ci_resp_handle example_completed) (ci_tag example_completed)
               (deliver example_completed received c)))
     <-> completed_successfully (EvRxFinalResponse 0 0 24) = false).
Proof.
  split.
  - apply (continuation_outcome_by_payload_size 3 1024 false 1 77
             (fun i => i) (mkBuild true true) example_config
             (EvSessionFailed 0) example_in_flight [example_failed]
             (snd (handle_event (EvSessionFailed 0) example_in_flight))
             example_failed).
    + reflexivity.
    + left. reflexivity.
  - apply (continuation_outcome_by_payload_size 3 1024 false 1 77
             (fun i => i) (mkBuild true true) example_config
             (EvRxFinalResponse 0 0 24) example_in_flight
             [example_completed]
             (snd (handle_event (EvRxFinalResponse 0 0 24)
                     example_in_flight))
             example_completed).
    + reflexivity.
    + left. reflexivity.
Defined.

(** The example client after a failed exchange: it prints the failure,
    moves from leader 0 past the disconnected server 1 to server 2, releases
    the handle and sends the next request there. *)
Example client_cont_after_failure :
  let r := client_cont 3 1024 false 1 77 (fun i => i) (mkBuild true true)
             example_config 1 0 (ci_resp_handle example_failed) 0
             (deliver example_failed (mkClientResp kSuccess 0)
                example_client) in
  fst r = Ok tt /\
  leader_idx (snd r) = 2 /\
  output (snd r)
    = [PrintRpcFailedToComplete 0; PrintChangeLeaderToAny 0;
       PrintChangedLeaderView 2] /\
  released (snd r) = [ci_resp_handle example_failed] /\
  slot_of 2 0 (rpc (snd r))
    = Some (mkSSlot 1 example_req (mkMsgBuffer 12288 64 0) 77 0).
Proof. vm_compute. auto 6. Qed.

(** After a response that redirects to node 2 the client follows the
    redirect and reports no failure. *)
Example client_cont_after_redirect :
  let r := client_cont 3 1024 false 1 77 (fun i => i) (mkBuild true true)
             example_config 1 0 (ci_resp_handle example_completed) 0
             (deliver example_completed (mkClientResp kFailRedirect 2)
                example_client) in
  fst r = Ok tt /\
  leader_idx (snd r) = 2 /\
  output (snd r) = [PrintRedirect 0 2].
Proof. vm_compute. auto. Qed.

End ConsensusFacts.

(** ** The client of the key-value server: the window slot travels as the
    tag (persistent_kv.cc) *)

Module PersistentKvClientFacts.
Import ERpc PersistentKv.

Lemma fastrange64_range rand n :
  0 <= rand < size_t_mod -> 0 < n < size_t_mod ->
  0 <= fastrange64 rand n < n.
Proof.
  intros Hr Hn. unfold fastrange64, size_t_mod in *.
  assert (Hprod : 0 <= rand * n < 2 ^ 64 * n) by nia.
  rewrite (Z.mod_small (rand * n)) by nia.
  rewrite Z.shiftr_div_pow2 by lia.
  assert (Hq : 0 <= rand * n / 2 ^ 64 < n).
  { split; [apply Z.div_pos; lia |].
    apply Z.div_lt_upper_bound; lia. }
  unfold to_size_t, size_t_mod. rewrite Z.mod_small by lia. exact Hq.
Qed.

Lemma cl_store_in_run {A} (arr : ClientContext -> list A) set_arr i (x : A)
    (c : ClientContext) :
  0 <= i < Z.of_nat (length (arr c)) ->
  cl_store_in arr set_arr i x c
  = (Ok tt, set_arr (<[Z.to_nat i := x]> (arr c)) c).
Proof.
  intros Hi. unfold cl_store_in, bind, get.
  rewrite (store_in_range _ _ _ _ Hi). reflexivity.
Qed.

(** [send_req] for window slot [ws_i] issues one request, with the slot's
    two buffers, the continuation [app_cont_func] and the tag [ws_i]. *)
Lemma send_req_enqueues cfg keys cont_id tid d ws_i c :
  window_slot_ok ws_i c ->
  exists c1 req resp,
    cl_rpc c1 = cl_rpc c /\
    cl_req_msgbuf c1 !! Z.to_nat ws_i = Some req /\
    cl_resp_msgbuf c !! Z.to_nat ws_i = Some resp /\
    cl_resp_msgbuf c1 = cl_resp_msgbuf c /\
    send_req cfg keys cont_id tid d ws_i c
    = (cl_on_rpc (enqueue_request cfg tid (rand_session_num d) kAppReqType
                    req resp cont_id ws_i) ;; ret tt) c1.
Proof.
  intros (H0 & Hreq & Hresp & Hset & Hkey & Hrk).
  destruct (lookup_lt_is_Some_2 (cl_req_msgbuf c) (Z.to_nat ws_i))
    as [req Hreq']; [lia |].
  destruct (lookup_lt_is_Some_2 (cl_resp_msgbuf c) (Z.to_nat ws_i))
    as [resp Hresp']; [lia |].
  unfold send_req.
  erewrite bind_Ok by reflexivity.
  erewrite bind_Ok by (apply index_lookup; eassumption).
  erewrite bind_Ok by (apply cl_store_in_run; lia).
  erewrite bind_Ok by reflexivity.
  erewrite bind_Ok
    by (apply cl_store_in_run; destruct (workload c); 
        repeat case_match; cbn; lia).
  erewrite bind_Ok
    by (apply cl_store_in_run; destruct (workload c); 
        repeat case_match; cbn; lia).
  erewrite bind_Ok
    by (apply cl_store_in_run; destruct (workload c); 
        repeat case_match; cbn; rewrite ?length_insert; lia).
  erewrite bind_Ok by reflexivity.
  erewrite bind_Ok.
  2:{ apply index_lookup; [exact H0 |].
      destruct (workload c); repeat case_match; cbn; exact Hresp'. }
  eexists _, _, resp. split; [| split; [| split; [exact Hresp' |
                                          split; [| reflexivity]]]].
  - destruct (workload c); repeat case_match; reflexivity.
  - destruct (workload c); repeat case_match; cbn;
      apply list_lookup_insert_eq; lia.
  - destruct (workload c); repeat case_match; reflexivity.
Qed.

(** When that request is accepted, its final response makes the endpoint
    invoke [app_cont_func] with the response buffer of the window slot and
    the tag [ws_i], whatever else the endpoint does in between. *)
Lemma send_req_continuation_gets_window_slot
    b cfg keys cont_id tid d ws_i c c1 req resp r1 :
  enqueue_request cfg tid (rand_session_num d) kAppReqType req resp
    cont_id ws_i (cl_rpc c1) = (Ok 0, r1) ->
  send_req cfg keys cont_id tid d ws_i c
  = (cl_on_rpc (enqueue_request cfg tid (rand_session_num d) kAppReqType
                  req resp cont_id ws_i) ;; ret tt) c1 ->
  fst (send_req cfg keys cont_id tid d ws_i c) = Ok tt /\
  cl_rpc (snd (send_req cfg keys cont_id tid d ws_i c)) = r1 /\
  exists slot,
    forall ops n,
      Forall (fun op => ends_exchange (rand_session_num d) slot op = false)
        ops ->
      Z.pos n <= max_data_size resp ->
      fst (handle_event (EvRxFinalResponse (rand_session_num d) slot n)
             (snd (run_ops b cfg ops r1)))
      = Ok [mkContInvocation cont_id
              (mkRespHandle (rand_session_num d) slot
                 (mkMsgBuffer (buf resp) (max_data_size resp) (Z.pos n)))
              (context (cl_rpc c1)) ws_i].
Proof.
  intros Henq Hsend. rewrite Hsend.
  unfold bind, cl_on_rpc. rewrite Henq.
  split; [reflexivity |]. split; [reflexivity |].
  destruct (ExchangeFacts.enqueue_request_success _ _ _ _ _ _ _ _ _ _ Henq)
    as (slot & _ & Hfl & Hctx).
  exists slot. intros ops n Hops Hfit.
  destruct (ExchangeFacts.run_ops_in_flight b cfg ops _ _ _ r1 Hfl Hops)
    as [Hfl2 Hctx2].
  destruct (ExchangeFacts.final_response_invokes _ _ _ _ n Hfl2 Hfit)
    as (r3 & Hrun & _).
  rewrite Hrun. unfold invocation. cbn. congruence.
Qed.

(** The request sent for window slot 1 carries tag 1; its response makes
    the endpoint invoke continuation 88 with tag 1 and the slot's response
    buffer; [app_cont_func] counts the successful SET and sends the next
    request of the window slot, again with tag 1. *)
Example window_slot_round_trip :
  let c1 := snd (send_req example_config 1000 88 1 example_draw 1
                   example_kv_client) in
  let ev := handle_event (EvRxFinalResponse 0 0 8) (cl_rpc c1) in
  let c2 := snd (app_cont_func (mkBuild true true) example_config 1000 88 1
                   example_draw (Result_word kSetSuccess)
                   (mkRespHandle 0 0 (mkMsgBuffer 12352 64 8)) 1
                   (cl_set_rpc (snd ev) c1)) in
  req_key c1 = [0; 501] /\
  slot_of 0 0 (cl_rpc c1)
    = Some (mkSSlot 1 (mkMsgBuffer 8256 64 48) (mkMsgBuffer 12352 64 48)
              88 1) /\
  fst ev = Ok [mkContInvocation 88
                 (mkRespHandle 0 0 (mkMsgBuffer 12352 64 8)) 4096 1] /\
  num_set_success c2 = 1 /\ num_set_reqs c2 = 2 /\ cl_num_resps c2 = 1 /\
  (sl_tag <$> slot_of 0 0 (cl_rpc c2)) = Some 1.
Proof. vm_compute. auto 8. Qed.

End PersistentKvClientFacts.

(** ** The key-value server: nothing lost, nothing answered twice, and the
    format of the answers (persistent_kv.cc) *)

Module ServerHistoryFacts.
Import ERpc PersistentKv.

Section Server.

Context {HashMap : Type}.
Variable get_hash : HashMap -> Z -> Z.
Variable batch_op_drain_helper :
  HashMap -> list bool -> list Z -> list Z -> list Z -> Z ->
  HashMap * (Z -> bool).
Variable b : Build.

Local Abbreviation Ctx := (@ServerContext HashMap).
Local Abbreviation drain_batch :=
  (PersistentKv.drain_batch batch_op_drain_helper b).
Local Abbreviation req_handler_record :=
  (PersistentKv.req_handler_record get_hash b).
Local Abbreviation req_handler :=
  (PersistentKv.req_handler get_hash batch_op_drain_helper b).
Local Abbreviation run_event_loop_once :=
  (PersistentKv.run_event_loop_once get_hash batch_op_drain_helper b).
Local Abbreviation server_loop_body :=
  (PersistentKv.server_loop_body get_hash batch_op_drain_helper b).
Local Abbreviation server_second :=
  (PersistentKv.server_second get_hash batch_op_drain_helper b).
Local Abbreviation server_func :=
  (PersistentKv.server_func get_hash batch_op_drain_helper b).
Local Abbreviation loop_end := (PersistentKv.loop_end batch_op_drain_helper b).

Lemma req_handler_history rh (c c' : Ctx) :
  ctx_ok c -> req_handler rh c = (Ok tt, c') ->
  history c' = history c ++ [handle_addr rh].
Proof.
  intros (Hok & Hn & _) Hrun.
  destruct (PersistentKvFacts.req_handler_spec get_hash batch_op_drain_helper
              b rh c Hok Hn) as (o & c2 & Hrun' & _ & Hc).
  rewrite Hrun in Hrun'. injection Hrun' as <- <-.
  destruct Hc as [(_ & _ & _ & Hc) | (Habs & _)]; [| discriminate].
  unfold history.
  destruct Hc as [(_ & _ & Htx & Hb) | (_ & Hn' & new & Htx & Hmap)].
  - rewrite Htx, Hb, map_app, app_assoc. reflexivity.
  - unfold batch at 1. rewrite Hn'. cbn. rewrite app_nil_r.
    rewrite Htx, map_app, Hmap, map_app, app_assoc. reflexivity.
Qed.

Lemma loop_end_history s (c c' : Ctx) :
  ctx_ok c -> loop_end s c = (Ok tt, c') ->
  ctx_ok c' /\ history c' = history c.
Proof.
  intros (Hok & Hn & Htot) Hrun.
  destruct (PersistentKvFacts.loop_end_spec batch_op_drain_helper b s c Hok Hn)
    as (c2 & new & Hrun' & Hok' & Htot' & Htx & Hc).
  rewrite Hrun in Hrun'. injection Hrun' as <-.
  destruct Hc as [(_ & _ & Hn' & Hmap) | (_ & -> & _)];
    [| split; [split; [assumption | split; assumption] | reflexivity]].
  split.
  - split; [exact Hok' |]. rewrite Hn', Htot'.
    unfold kAppMaxServerBatch. split; [lia | exact Htot].
  - unfold history. unfold batch at 1. rewrite Hn'. cbn.
    rewrite app_nil_r, Htx, map_app, Hmap. reflexivity.
Qed.

Lemma for_each_history {A} (body : A -> M Ctx unit) (f : A -> list Z) :
  (forall x c c', ctx_ok c -> body x c = (Ok tt, c') ->
     ctx_ok c' /\ history c' = history c ++ f x) ->
  forall xs c c',
    ctx_ok c -> for_each body xs c = (Ok tt, c') ->
    ctx_ok c' /\ history c' = history c ++ concat (map f xs).
Proof.
  intros Hbody. induction xs as [| x xs IH]; intros c c' Hc Hrun.
  - injection Hrun as <-. cbn. rewrite app_nil_r. auto.
  - cbn in Hrun. apply bind_Ok_inv in Hrun as ([] & c1 & Hx & Hrest).
    destruct (Hbody x c c1 Hc Hx) as [Hc1 Hh1].
    destruct (IH c1 c' Hc1 Hrest) as [Hc' Hh'].
    split; [exact Hc' |]. rewrite Hh', Hh1. cbn. rewrite app_assoc.
    reflexivity.
Qed.

Lemma run_event_loop_once_history arrivals (c c' : Ctx) :
  ctx_ok c -> run_event_loop_once arrivals c = (Ok tt, c') ->
  ctx_ok c' /\ history c' = history c ++ map handle_addr arrivals.
Proof.
  intros Hc Hrun.
  destruct (for_each_history req_handler (fun rh => [handle_addr rh]))
    with (xs := arrivals) (c := c) (c' := c') as [Hc' Hh]; auto.
  - intros rh c0 c1 Hc0 Hrh. split.
    + eapply PersistentKvFacts.req_handler_ctx_ok; eassumption.
    + apply req_handler_history; assumption.
  - split; [exact Hc' |]. rewrite Hh. f_equal.
    clear. induction arrivals; cbn; congruence.
Qed.

Lemma server_loop_body_history arrivals (c c' : Ctx) :
  ctx_ok c -> server_loop_body arrivals c = (Ok tt, c') ->
  ctx_ok c' /\ history c' = history c ++ map handle_addr arrivals.
Proof.
  intros Hc Hrun. rewrite PersistentKvFacts.server_loop_body_unfold in Hrun.
  apply bind_Ok_inv in Hrun as (s & c0 & Hs & Hrun).
  injection Hs as <- <-.
  apply bind_Ok_inv in Hrun as ([] & c1 & Hloop & Hend).
  destruct (run_event_loop_once_history arrivals c c1 Hc Hloop) as [Hc1 Hh1].
  destruct (loop_end_history _ c1 c' Hc1 Hend) as [Hc' Hh'].
  split; [exact Hc' | congruence].
Qed.

Lemma server_second_history iterations (c c' : Ctx) :
  ctx_ok c -> server_second iterations c = (Ok tt, c') ->
  ctx_ok c' /\
  history c' = history c ++ map handle_addr (concat iterations).
Proof.
  intros Hc Hrun. unfold PersistentKv.server_second in Hrun.
  apply bind_Ok_inv in Hrun as ([] & c0 & H0 & Hrun).
  injection H0 as <-.
  apply bind_Ok_inv in Hrun as ([] & c1 & Hiter & Hrun).
  injection Hrun as <-.
  destruct (for_each_history server_loop_body (map handle_addr))
    with (xs := iterations) (c := set_stats_num_resps_tot 0 c) (c' := c1)
    as [Hc1 Hh1]; auto.
  - intros arrivals. apply server_loop_body_history.
  - split; [exact Hc1 |].
    change (history (set_stats_num_resps_tot 0 c1)) with (history c1).
    rewrite Hh1.
    change (history (set_stats_num_resps_tot 0 c)) with (history c).
    f_equal. clear. induction iterations as [| x xs IH]; cbn; [reflexivity |].
    rewrite map_app, IH. reflexivity.
Qed.

Lemma server_func_history seconds (c c' : Ctx) :
  ctx_ok c -> server_func seconds c = (Ok tt, c') ->
  ctx_ok c' /\
  history c' = history c ++ map handle_addr (concat (concat seconds)).
Proof.
  intros Hc Hrun.
  destruct (for_each_history server_second
              (fun its => map handle_addr (concat its)))
    with (xs := seconds) (c := c) (c' := c') as [Hc' Hh]; auto.
  - intros its. apply server_second_history.
  - split; [exact Hc' |]. rewrite Hh. f_equal.
    clear. induction seconds as [| x xs IH]; cbn; [reflexivity |].
    rewrite concat_app, map_app, IH. reflexivity.
Qed.

Lemma for_each_total {A} (body : A -> M Ctx unit) (good : A -> Prop) :
  (forall x c, ctx_ok c -> good x ->
     exists c', body x c = (Ok tt, c') /\ ctx_ok c') ->
  forall xs c, ctx_ok c -> Forall good xs ->
    exists c', for_each body xs c = (Ok tt, c') /\ ctx_ok c'.
Proof.
  intros Hbody. induction xs as [| x xs IH]; intros c Hc Hall.
  - exists c. split; [reflexivity | exact Hc].
  - apply Forall_cons in Hall as [Hx Hall].
    destruct (Hbody x c Hc Hx) as (c1 & Hrun & Hc1).
    destruct (IH c1 Hc1 Hall) as (c' & Hrest & Hc').
    exists c'. split; [| exact Hc'].
    cbn. erewrite bind_Ok by exact Hrun. exact Hrest.
Qed.

Lemma req_handler_total rh (c : Ctx) :
  ctx_ok c -> valid_req rh = true ->
  exists c', req_handler rh c = (Ok tt, c') /\ ctx_ok c'.
Proof.
  intros Hc Hv. pose proof Hc as (Hok & Hn & _).
  destruct (PersistentKvFacts.req_handler_spec get_hash batch_op_drain_helper
              b rh c Hok Hn) as (o & c' & Hrun & _ & Hcase).
  destruct Hcase as [(-> & _) | (_ & Hv' & _)]; [| congruence].
  exists c'. split; [exact Hrun |].
  eapply PersistentKvFacts.req_handler_ctx_ok; eassumption.
Qed.

Lemma server_loop_body_total arrivals (c : Ctx) :
  ctx_ok c -> Forall (fun rh => valid_req rh = true) arrivals ->
  exists c', server_loop_body arrivals c = (Ok tt, c') /\ ctx_ok c'.
Proof.
  intros Hc Hall.
  destruct (for_each_total req_handler (fun rh => valid_req rh = true))
    with (xs := arrivals) (c := c) as (c1 & Hrun & Hc1); auto.
  { intros rh c0 Hc0 Hv. apply req_handler_total; assumption. }
  pose proof Hc1 as (Hok1 & Hn1 & _).
  destruct (PersistentKvFacts.loop_end_spec batch_op_drain_helper b
              (num_reqs_tot c) c1 Hok1 Hn1) as (c' & new & Hend & _).
  exists c'.
  assert (Hbody : server_loop_body arrivals c = (Ok tt, c')).
  { rewrite PersistentKvFacts.server_loop_body_unfold.
    erewrite bind_Ok by reflexivity.
    erewrite bind_Ok by exact Hrun. exact Hend. }
  split; [exact Hbody |].
  exact (proj1 (server_loop_body_history arrivals c c' Hc Hbody)).
Qed.

Lemma server_func_total seconds (c : Ctx) :
  ctx_ok c ->
  Forall (Forall (Forall (fun rh => valid_req rh = true))) seconds ->
  exists c', server_func seconds c = (Ok tt, c') /\ ctx_ok c'.
Proof.
  intros Hc Hall.
  apply (for_each_total server_second
           (Forall (Forall (fun rh => valid_req rh = true)))); auto.
  clear. intros its c Hc Hall.
  destruct (for_each_total server_loop_body
              (Forall (fun rh => valid_req rh = true)))
    with (xs := its) (c := set_stats_num_resps_tot 0 c)
    as (c1 & Hrun & Hc1); auto.
  { intros arrivals c0. apply server_loop_body_total. }
  exists (set_stats_num_resps_tot 0 c1). split; [| exact Hc1].
  unfold PersistentKv.server_second.
  erewrite bind_Ok by reflexivity.
  erewrite bind_Ok by exact Hrun. reflexivity.
Qed.

(** X1: every request handed to [req_handler] is answered exactly once or still
    waits in the batch, and the answers are submitted in the order in which
    the requests arrived: at the end of any run of [server_func], the
    handles given to [enqueue_response], followed by the handles in the
    batch, are the handles seen before the run followed by the arrivals of
    the run, in order.  The batch that is left is not full.  When all
    requests have the size of a GET or of a SET the run does come to its
    end. *)
Theorem requests_answered_once_in_order seconds (c : Ctx) :
  ctx_ok c ->
  (forall c',
     server_func seconds c = (Ok tt, c') ->
     map handle_addr (tx_responses c') ++ map handle_addr (batch c')
     = map handle_addr (tx_responses c) ++ map handle_addr (batch c) ++
       map handle_addr (concat (concat seconds)) /\
     0 <= num_reqs_in_batch c' < kAppMaxServerBatch) /\
  (Forall (Forall (Forall (fun rh => valid_req rh = true))) seconds ->
   exists c', server_func seconds c = (Ok tt, c')).
Proof.
  intros Hc. split.
  - intros c' Hrun.
    destruct (server_func_history seconds c c' Hc Hrun) as [Hc' Hh].
    unfold history in Hh. rewrite Hh, app_assoc. split; [reflexivity |].
    apply Hc'.
  - intros Hall. destruct (server_func_total seconds c Hc Hall) as (c' & H & _).
    exists c'. exact H.
Qed.

(** *** The format of the answers *)

Lemma req_handler_record_valid rh (c : Ctx) :
  arrays_ok c -> 0 <= num_reqs_in_batch c < kAppMaxServerBatch ->
  valid_req rh = true ->
  exists c1,
    req_handler_record rh c = (Ok tt, c1) /\
    req_handle_arr c1
      = <[Z.to_nat (num_reqs_in_batch c) := recorded rh]> (req_handle_arr c) /\
    is_set_arr c1
      = <[Z.to_nat (num_reqs_in_batch c) := is_set_req rh]> (is_set_arr c) /\
    num_reqs_in_batch c1 = num_reqs_in_batch c + 1.
Proof.
  intros (Hl1 & Hl2 & Hl3 & Hl4 & Hl5) Hn Hv.
  assert (Hn1 : to_size_t (num_reqs_in_batch c + 1)
                = num_reqs_in_batch c + 1)
    by (apply to_size_t_small;
        unfold kAppMaxServerBatch, size_t_mod in *; lia).
  unfold valid_req in Hv. unfold is_set_req.
  unfold PersistentKv.req_handler_record, bind, gets, modify, assert.
  repeat (rewrite PersistentKvFacts.store_in_run by (cbn; lia);
          cbv beta iota).
  destruct (data_size (req_msgbuf rh) =? sizeof_Key) eqn:Hget.
  - apply Z.eqb_eq in Hget.
    repeat (rewrite PersistentKvFacts.store_in_run by (cbn; lia);
            cbv beta iota).
    eexists. split; [reflexivity |]. cbn -[to_size_t].
    rewrite Hget, Hn1. auto.
  - cbn in Hv. rewrite Hv.
    repeat (rewrite PersistentKvFacts.store_in_run by (cbn; lia);
            cbv beta iota).
    eexists. split; [reflexivity |]. cbn -[to_size_t].
    rewrite Hn1. auto.
Qed.

Lemma drain_batch_body_exact success i (c : Ctx) rh s :
  0 <= i ->
  req_handle_arr c !! Z.to_nat i = Some rh ->
  is_set_arr c !! Z.to_nat i = Some s ->
  drain_batch_body success i c
  = (Ok tt,
     set_tx_responses (tx_responses c ++ [response_of (success i) s rh])
       (set_req_handle_arr
          (<[Z.to_nat i := response_of (success i) s rh]> (req_handle_arr c))
          c)).
Proof.
  intros Hi Hrh Hs.
  unfold PersistentKv.drain_batch_body, bind, get, enqueue_response, modify.
  rewrite (index_lookup _ _ _ _ Hi Hrh).
  rewrite (index_lookup _ _ _ _ Hi Hs).
  rewrite PersistentKvFacts.store_in_run
    by (split; [exact Hi |]; apply lookup_lt_Some in Hrh; lia).
  reflexivity.
Qed.

Lemma response_of_well_formed success rh :
  valid_req rh = true ->
  data_size (pre_resp_msgbuf rh) = sizeof_Value ->
  well_formed_response (response_of success (is_set_req rh) rh).
Proof.
  intros Hv Hsize. unfold well_formed_response, response_of.
  destruct (is_set_req rh) eqn:Hset.
  - split; [reflexivity |].
    change (is_set_req (set_resp_word _ _)) with (is_set_req rh).
    rewrite Hset. split; [reflexivity |].
    destruct success; [left | right]; reflexivity.
  - destruct success; cbn [negb].
    + split; [reflexivity |].
      change (is_set_req (set_prealloc_used true rh)) with (is_set_req rh).
      rewrite Hset. left. exact Hsize.
    + split; [reflexivity |].
      change (is_set_req (set_resp_word _ _)) with (is_set_req rh).
      rewrite Hset. right. split; reflexivity.
Qed.

Lemma drain_loop_well_formed success (k : nat) : forall i (c : Ctx),
  0 <= i ->
  (forall j, (Z.to_nat i <= j < Z.to_nat i + k)%nat -> entry_recorded c j) ->
  exists c' new,
    for_each (drain_batch_body success) (seqZ i (Z.of_nat k)) c
      = (Ok tt, c') /\
    tx_responses c' = tx_responses c ++ new /\
    Forall well_formed_response new.
Proof.
  induction k as [| k IH]; intros i c Hi Hent.
  - exists c, []. cbn. rewrite app_nil_r. repeat split. constructor.
  - rewrite seqZ_cons by lia.
    replace (Z.pred (Z.of_nat (S k))) with (Z.of_nat k) by lia.
    destruct (Hent (Z.to_nat i)) as (rh & Hrh & Hs & Hv & Hsize); [lia |].
    pose proof (drain_batch_body_exact success i c rh _ Hi Hrh Hs) as Hrun.
    cbn [for_each]. erewrite bind_Ok by exact Hrun.
    set (c1 := set_tx_responses _ _).
    destruct (IH (Z.succ i) c1) as (c' & new & Hfor & Htx & Hall); [lia | |].
    { intros j Hj. destruct (Hent j) as (rh' & Hrh' & Hrest); [lia |].
      exists rh'. split; [| exact Hrest].
      cbn. rewrite list_lookup_insert_ne by lia. exact Hrh'. }
    exists c', (response_of (success i) (is_set_req rh) rh :: new).
    split; [exact Hfor |]. split.
    + rewrite Htx. cbn. rewrite <- app_assoc. reflexivity.
    + constructor; [| exact Hall].
      apply response_of_well_formed; assumption.
Qed.

Lemma drain_batch_well_formed (c : Ctx) :
  0 < num_reqs_in_batch c -> batch_recorded c ->
  exists c' new,
    drain_batch c = (Ok tt, c') /\
    tx_responses c' = tx_responses c ++ new /\
    Forall well_formed_response new.
Proof.
  intros Hn Hrec.
  unfold PersistentKv.drain_batch.
  erewrite bind_Ok by reflexivity.
  erewrite bind_Ok.
  2:{ unfold assert. destruct (kDatapathChecks b); [| reflexivity].
      assert (Hpos : (0 <? num_reqs_in_batch c) = true)
        by (apply Z.ltb_lt; lia).
      rewrite Hpos. reflexivity. }
  destruct (batch_op_drain_helper _ _ _ _ _ _) as [hashmap' success].
  erewrite bind_Ok by reflexivity.
  destruct (drain_loop_well_formed success
              (Z.to_nat (num_reqs_in_batch c)) 0 (set_hashmap hashmap' c))
    as (c' & new & Hfor & Htx & Hall); [lia | |].
  { intros j Hj. apply Hrec. lia. }
  rewrite Z2Nat.id in Hfor by lia.
  erewrite bind_Ok by exact Hfor.
  erewrite bind_Ok by reflexivity.
  eexists _, new. split; [reflexivity |]. split; [exact Htx | exact Hall].
Qed.

Lemma req_handler_served rh (c c' : Ctx) :
  served_ok c -> valid_req rh = true ->
  req_handler rh c = (Ok tt, c') -> served_ok c'.
Proof.
  intros (Hctx & Hrec & Hwf) Hv Hrun. pose proof Hctx as (Hok & Hn & _).
  destruct (PersistentKvFacts.req_handler_ctx_ok get_hash
              batch_op_drain_helper b rh c c' Hctx Hrun) as [Hctx' _].
  split; [exact Hctx' |].
  destruct (req_handler_record_valid rh c Hok Hn Hv)
    as (c1 & Hrecord & Harr & Hset & Hn1).
  destruct (PersistentKvFacts.req_handler_record_spec get_hash b rh c Hok Hn)
    as (o & c1' & Hrecord' & Hok1 & Htx1 & _).
  rewrite Hrecord in Hrecord'. injection Hrecord' as <- <-.
  assert (Hrec1 : batch_recorded c1).
  { intros i Hi. rewrite Hn1 in Hi.
    destruct Hok as (Hl1 & Hl2 & _).
    destruct (Nat.eq_dec i (Z.to_nat (num_reqs_in_batch c))) as [-> | Hne].
    - exists (recorded rh). rewrite Harr, Hset.
      rewrite !list_lookup_insert_eq by lia. auto.
    - destruct (Hrec i) as (rh' & Hrh' & Hs' & Hrest); [lia |].
      exists rh'. rewrite Harr, Hset.
      rewrite !list_lookup_insert_ne by auto. auto. }
  unfold PersistentKv.req_handler in Hrun.
  erewrite bind_Ok in Hrun by exact Hrecord.
  erewrite bind_Ok in Hrun by reflexivity.
  destruct (num_reqs_in_batch c1 =? kAppMaxServerBatch) eqn:Hfull.
  - destruct (drain_batch_well_formed c1) as (c2 & new & Hdrain & Htx & Hall);
      [lia | exact Hrec1 |].
    rewrite Hdrain in Hrun. injection Hrun as <-.
    destruct (PersistentKvFacts.drain_batch_spec batch_op_drain_helper b c1
                Hok1) as (c3 & _ & Hdrain' & _ & _ & _ & _ & Hn3 & _);
      [apply Z.eqb_eq in Hfull; unfold kAppMaxServerBatch in *; lia |].
    rewrite Hdrain in Hdrain'. injection Hdrain' as <-.
    split.
    + intros i Hi. rewrite Hn3 in Hi. cbn in Hi. lia.
    + rewrite Htx, Htx1. apply Forall_app. auto.
  - injection Hrun as <-. split; [exact Hrec1 |]. rewrite Htx1. exact Hwf.
Qed.

Lemma loop_end_served s (c c' : Ctx) :
  served_ok c -> loop_end s c = (Ok tt, c') -> served_ok c'.
Proof.
  intros (Hctx & Hrec & Hwf) Hrun. pose proof Hctx as (Hok & Hn & _).
  destruct (loop_end_history s c c' Hctx Hrun) as [Hctx' _].
  split; [exact Hctx' |].
  destruct (PersistentKvFacts.loop_end_spec batch_op_drain_helper b s c Hok Hn)
    as (c2 & new & Hrun' & _ & _ & Htx & Hc).
  rewrite Hrun in Hrun'. injection Hrun' as <-.
  destruct Hc as [(_ & Hpos & Hn' & _) | (_ & -> & _)]; [| auto].
  split.
  - intros i Hi. rewrite Hn' in Hi. cbn in Hi. lia.
  - unfold loop_end in Hrun. erewrite bind_Ok in Hrun by reflexivity.
    destruct (drain_batch_well_formed c Hpos Hrec)
      as (c3 & new' & Hdrain & Htx' & Hall).
    destruct ((num_reqs_tot c =? s) && (0 <? num_reqs_in_batch c)).
    + rewrite Hdrain in Hrun. injection Hrun as <-.
      rewrite Htx'. apply Forall_app. auto.
    + injection Hrun as <-. exact Hwf.
Qed.

Lemma for_each_served {A} (body : A -> M Ctx unit) (good : A -> Prop) :
  (forall x c c', served_ok c -> good x -> body x c = (Ok tt, c') ->
     served_ok c') ->
  forall xs c c', served_ok c -> Forall good xs ->
    for_each body xs c = (Ok tt, c') -> served_ok c'.
Proof.
  intros Hbody. induction xs as [| x xs IH]; intros c c' Hc Hall Hrun.
  - injection Hrun as <-. exact Hc.
  - apply Forall_cons in Hall as [Hx Hall].
    cbn in Hrun. apply bind_Ok_inv in Hrun as ([] & c1 & Hrun1 & Hrest).
    eapply IH; [| exact Hall | exact Hrest].
    eapply Hbody; eassumption.
Qed.

Lemma server_loop_body_served arrivals (c c' : Ctx) :
  served_ok c -> Forall (fun rh => valid_req rh = true) arrivals ->
  server_loop_body arrivals c = (Ok tt, c') -> served_ok c'.
Proof.
  intros Hc Hall Hrun.
  rewrite PersistentKvFacts.server_loop_body_unfold in Hrun.
  apply bind_Ok_inv in Hrun as (s & c0 & Hs & Hrun).
  injection Hs as <- <-.
  apply bind_Ok_inv in Hrun as ([] & c1 & Hloop & Hend).
  eapply loop_end_served; [| exact Hend].
  eapply (for_each_served req_handler (fun rh => valid_req rh = true));
    [| exact Hc | exact Hall | exact Hloop].
  intros rh c2 c3 Hc2 Hv. apply req_handler_served; assumption.
Qed.

Lemma server_func_served seconds (c c' : Ctx) :
  served_ok c ->
  Forall (Forall (Forall (fun rh => valid_req rh = true))) seconds ->
  server_func seconds c = (Ok tt, c') -> served_ok c'.
Proof.
  intros Hc Hall Hrun.
  eapply (for_each_served server_second
            (Forall (Forall (fun rh => valid_req rh = true))));
    [| exact Hc | exact Hall | exact Hrun].
  clear. intros its c c' Hc Hall Hrun.
  unfold PersistentKv.server_second in Hrun.
  apply bind_Ok_inv in Hrun as ([] & c0 & H0 & Hrun).
  injection H0 as <-.
  apply bind_Ok_inv in Hrun as ([] & c1 & Hiter & Hrun).
  injection Hrun as <-.
  assert (Hc1 : served_ok c1).
  { eapply (for_each_served server_loop_body
              (Forall (fun rh => valid_req rh = true)));
      [| | exact Hall | exact Hiter].
    - intros arrivals c2 c3. apply server_loop_body_served.
    - exact Hc. }
  exact Hc1.
Qed.

(** X2: the answers have the format by which the client tells the response
    types apart: when every request has the size of a GET or of a SET, each
    handle that a run of [server_func] has given to [enqueue_response] uses
    the preallocated response buffer and holds, for a SET, a [Result]
    ([kSetSuccess] or [kSetFail]) of [sizeof(Result)] bytes and, for a GET,
    a payload of [sizeof(Value)] bytes or the [Result] [kGetFail]. *)
Theorem server_responses_well_formed seconds (c c' : Ctx) :
  ctx_ok c -> batch_recorded c ->
  Forall well_formed_response (tx_responses c) ->
  Forall (Forall (Forall (fun rh => valid_req rh = true))) seconds ->
  server_func seconds c = (Ok tt, c') ->
  Forall well_formed_response (tx_responses c') /\ batch_recorded c'.
Proof.
  intros Hctx Hrec Hwf Hall Hrun.
  destruct (server_func_served seconds c c') as (_ & Hrec' & Hwf').
  - split; [exact Hctx |]. split; [exact Hrec | exact Hwf].
  - exact Hall.
  - exact Hrun.
  - split; [exact Hwf' | exact Hrec'].
Qed.


Lemma drain_batch_counted base (c c' : Ctx) :
  arrays_ok c -> 0 < num_reqs_in_batch c <= kAppMaxServerBatch ->
  responses_counted base c -> drain_batch c = (Ok tt, c') ->
  responses_counted base c'.
Proof.
  intros Hok Hn Hcount Hrun.
  destruct (PersistentKvFacts.drain_batch_spec batch_op_drain_helper b c
              Hok Hn)
    as (c2 & new & Hrun' & Htx & Hmap & _ & _ & _ & _ & Hstats).
  rewrite Hrun in Hrun'. injection Hrun' as <-.
  assert (Hlen : Z.of_nat (length new) = num_reqs_in_batch c).
  { apply (f_equal (@length Z)) in Hmap. rewrite !length_map in Hmap.
    rewrite Hmap. unfold batch. rewrite length_take.
    destruct Hok as (Hl & _). unfold kAppMaxServerBatch in *. lia. }
  unfold responses_counted in *.
  rewrite Hstats, Htx, length_app, Hcount.
  unfold to_size_t. rewrite Zplus_mod_idemp_l. f_equal. lia.
Qed.

Lemma req_handler_counted base rh (c c' : Ctx) :
  ctx_ok c -> responses_counted base c ->
  req_handler rh c = (Ok tt, c') -> responses_counted base c'.
Proof.
  intros (Hok & Hn & _) Hcount Hrun.
  destruct (PersistentKvFacts.req_handler_record_spec get_hash b rh c Hok Hn)
    as (o & c1 & Hrecord & Hok1 & Htx1 & _ & Hstats1 & _ & Hcase).
  unfold PersistentKv.req_handler in Hrun.
  apply bind_Ok_inv in Hrun as ([] & c1' & Hrecord' & Hrun).
  rewrite Hrecord in Hrecord'. injection Hrecord' as -> <-.
  destruct Hcase as [(_ & Hn1 & _) | (Habs & _)]; [| discriminate].
  assert (Hcount1 : responses_counted base c1).
  { unfold responses_counted in *. rewrite Hstats1, Htx1. exact Hcount. }
  erewrite bind_Ok in Hrun by reflexivity.
  destruct (num_reqs_in_batch c1 =? kAppMaxServerBatch) eqn:Hfull.
  - apply (drain_batch_counted base c1 c'); try assumption.
    apply Z.eqb_eq in Hfull. unfold kAppMaxServerBatch in *. lia.
  - injection Hrun as <-. exact Hcount1.
Qed.

Lemma loop_end_counted base s (c c' : Ctx) :
  ctx_ok c -> responses_counted base c ->
  loop_end s c = (Ok tt, c') -> responses_counted base c'.
Proof.
  intros (Hok & Hn & _) Hcount Hrun.
  unfold loop_end in Hrun. erewrite bind_Ok in Hrun by reflexivity.
  destruct ((num_reqs_tot c =? s) && (0 <? num_reqs_in_batch c)) eqn:Hcond.
  - apply andb_true_iff in Hcond as [_ Hpos]. apply Z.ltb_lt in Hpos.
    apply (drain_batch_counted base c c'); try assumption. lia.
  - injection Hrun as <-. exact Hcount.
Qed.

Lemma for_each_counted {A} base (body : A -> M Ctx unit) :
  (forall x c c', ctx_ok c -> responses_counted base c ->
     body x c = (Ok tt, c') -> ctx_ok c' /\ responses_counted base c') ->
  forall xs c c', ctx_ok c -> responses_counted base c ->
    for_each body xs c = (Ok tt, c') ->
    ctx_ok c' /\ responses_counted base c'.
Proof.
  intros Hbody. induction xs as [| x xs IH]; intros c c' Hc Hcount Hrun.
  - injection Hrun as <-. auto.
  - cbn in Hrun. apply bind_Ok_inv in Hrun as ([] & c1 & Hrun1 & Hrest).
    destruct (Hbody x c c1 Hc Hcount Hrun1) as [Hc1 Hcount1].
    exact (IH c1 c' Hc1 Hcount1 Hrest).
Qed.

Lemma server_loop_body_counted base arrivals (c c' : Ctx) :
  ctx_ok c -> responses_counted base c ->
  server_loop_body arrivals c = (Ok tt, c') ->
  ctx_ok c' /\ responses_counted base c'.
Proof.
  intros Hc Hcount Hrun.
  pose proof (server_loop_body_history arrivals c c' Hc Hrun) as [Hc' _].
  split; [exact Hc' |].
  rewrite PersistentKvFacts.server_loop_body_unfold in Hrun.
  apply bind_Ok_inv in Hrun as (s & c0 & Hs & Hrun).
  injection Hs as <- <-.
  apply bind_Ok_inv in Hrun as ([] & c1 & Hloop & Hend).
  apply (for_each_counted base req_handler) in Hloop;
    [| | exact Hc | exact Hcount].
  - destruct Hloop as [Hc1 Hcount1].
    exact (loop_end_counted base _ c1 c' Hc1 Hcount1 Hend).
  - intros rh c2 c3 Hc2 Hcount2 Hrun2. split.
    + exact (proj1 (PersistentKvFacts.req_handler_ctx_ok get_hash
                      batch_op_drain_helper b rh c2 c3 Hc2 Hrun2)).
    + exact (req_handler_counted base rh c2 c3 Hc2 Hcount2 Hrun2).
Qed.

(** X4: the response counter of the statistics: at the end of the inner loop of
    [server_func], where the rate of the last second is printed,
    [stats.num_resps_tot] is the number of responses that the server has
    submitted since the counter was reset at the start of the second
    (modulo 2^64). *)
Theorem responses_of_a_second_counted iterations (c c' : Ctx) :
  ctx_ok c ->
  (modify (set_stats_num_resps_tot 0) ;;
   for_each server_loop_body iterations) c = (Ok tt, c') ->
  stats_num_resps_tot c'
  = to_size_t (Z.of_nat (length (tx_responses c'))
               - Z.of_nat (length (tx_responses c))).
Proof.
  intros Hctx Hrun.
  erewrite bind_Ok in Hrun by reflexivity.
  apply (for_each_counted (Z.of_nat (length (tx_responses c)))
           server_loop_body) in Hrun.
  - apply Hrun.
  - intros arrivals c2 c3. apply server_loop_body_counted.
  - exact Hctx.
  - unfold responses_counted. cbn. rewrite Z.sub_diag. reflexivity.
Qed.

(** What [req_handler] writes for a request of valid size, array by
    array. *)
Lemma req_handler_record_pointers rh (c : Ctx) :
  arrays_ok c -> 0 <= num_reqs_in_batch c < kAppMaxServerBatch ->
  valid_req rh = true ->
  exists c1,
    req_handler_record rh c = (Ok tt, c1) /\
    key_ptr_arr c1
      = <[Z.to_nat (num_reqs_in_batch c) := buf (req_msgbuf rh)]>
          (key_ptr_arr c) /\
    val_ptr_arr c1
      = <[Z.to_nat (num_reqs_in_batch c) := value_ptr rh]> (val_ptr_arr c) /\
    keyhash_arr c1
      = <[Z.to_nat (num_reqs_in_batch c) :=
            get_hash (hashmap c) (buf (req_msgbuf rh))]> (keyhash_arr c) /\
    hashmap c1 = hashmap c.
Proof.
  intros (Hl1 & Hl2 & Hl3 & Hl4 & Hl5) Hn Hv.
  unfold valid_req in Hv. unfold value_ptr, is_set_req.
  unfold PersistentKv.req_handler_record, bind, gets, modify, assert.
  repeat (rewrite PersistentKvFacts.store_in_run by (cbn; lia);
          cbv beta iota).
  destruct (data_size (req_msgbuf rh) =? sizeof_Key) eqn:Hget.
  - apply Z.eqb_eq in Hget.
    repeat (rewrite PersistentKvFacts.store_in_run by (cbn; lia);
            cbv beta iota).
    eexists. split; [reflexivity |]. cbn -[to_size_t].
    rewrite Hget. auto.
  - cbn in Hv. rewrite Hv.
    repeat (rewrite PersistentKvFacts.store_in_run by (cbn; lia);
            cbv beta iota).
    eexists. split; [reflexivity |]. cbn -[to_size_t]. auto.
Qed.

Lemma req_handler_record_consistent rh (c : Ctx) :
  arrays_ok c -> 0 <= num_reqs_in_batch c < kAppMaxServerBatch ->
  batch_consistent get_hash c -> valid_req rh = true ->
  batch_consistent get_hash (snd (req_handler_record rh c)).
Proof.
  intros Hok Hn Hcons Hv.
  destruct (req_handler_record_valid rh c Hok Hn Hv)
    as (c1 & Hrecord & Harr & Hset & Hn1).
  destruct (req_handler_record_pointers rh c Hok Hn Hv)
    as (c1' & Hrecord' & Hkey & Hval & Hhash & Hmap).
  rewrite Hrecord in Hrecord'. injection Hrecord' as <-.
  rewrite Hrecord. cbn [snd].
  destruct Hok as (Hl1 & Hl2 & Hl3 & Hl4 & Hl5).
  intros i Hi. rewrite Hn1 in Hi.
  unfold entry_consistent. rewrite Harr, Hset, Hkey, Hval, Hhash, Hmap.
  destruct (Nat.eq_dec i (Z.to_nat (num_reqs_in_batch c))) as [-> | Hne].
  - exists (recorded rh).
    rewrite !list_lookup_insert_eq by lia. auto 10.
  - destruct (Hcons i) as (rh' & H1 & H2 & H3 & H4 & H5); [lia |].
    exists rh'. rewrite !list_lookup_insert_ne by auto. auto 10.
Qed.

Lemma req_handler_consistent rh (c c' : Ctx) :
  ctx_ok c -> batch_consistent get_hash c -> valid_req rh = true ->
  req_handler rh c = (Ok tt, c') -> batch_consistent get_hash c'.
Proof.
  intros (Hok & Hn & _) Hcons Hv Hrun.
  pose proof (req_handler_record_consistent rh c Hok Hn Hcons Hv) as Hc1.
  destruct (PersistentKvFacts.req_handler_record_spec get_hash b rh c Hok Hn)
    as (o & c1 & Hrecord & Hok1 & _ & _ & _ & _ & Hcase).
  rewrite Hrecord in Hc1. cbn [snd] in Hc1.
  unfold PersistentKv.req_handler in Hrun.
  apply bind_Ok_inv in Hrun as ([] & c1' & Hrecord' & Hrun).
  rewrite Hrecord in Hrecord'. injection Hrecord' as -> <-.
  destruct Hcase as [(_ & Hn1 & _) | (Habs & _)]; [| discriminate].
  erewrite bind_Ok in Hrun by reflexivity.
  destruct (num_reqs_in_batch c1 =? kAppMaxServerBatch) eqn:Hfull.
  - apply Z.eqb_eq in Hfull.
    destruct (PersistentKvFacts.drain_batch_spec batch_op_drain_helper b c1
                Hok1) as (c2 & _ & Hdrain & _ & _ & _ & _ & Hn2 & _);
      [unfold kAppMaxServerBatch in *; lia |].
    rewrite Hrun in Hdrain. injection Hdrain as <-.
    intros i Hi. rewrite Hn2 in Hi. cbn in Hi. lia.
  - injection Hrun as <-. exact Hc1.
Qed.

Lemma loop_end_consistent s (c c' : Ctx) :
  ctx_ok c -> batch_consistent get_hash c ->
  loop_end s c = (Ok tt, c') -> batch_consistent get_hash c'.
Proof.
  intros (Hok & Hn & _) Hcons Hrun.
  destruct (PersistentKvFacts.loop_end_spec batch_op_drain_helper b s c Hok Hn)
    as (c2 & new & Hrun' & _ & _ & _ & Hc).
  rewrite Hrun in Hrun'. injection Hrun' as <-.
  destruct Hc as [(_ & _ & Hn' & _) | (_ & -> & _)]; [| exact Hcons].
  intros i Hi. rewrite Hn' in Hi. cbn in Hi. lia.
Qed.

Lemma for_each_invariant {A} (P : Ctx -> Prop) (body : A -> M Ctx unit)
    (good : A -> Prop) :
  (forall x c c', P c -> good x -> body x c = (Ok tt, c') -> P c') ->
  forall xs c c', P c -> Forall good xs ->
    for_each body xs c = (Ok tt, c') -> P c'.
Proof.
  intros Hbody. induction xs as [| x xs IH]; intros c c' Hc Hall Hrun.
  - injection Hrun as <-. exact Hc.
  - apply Forall_cons in Hall as [Hx Hall].
    cbn in Hrun. apply bind_Ok_inv in Hrun as ([] & c1 & Hrun1 & Hrest).
    eapply IH; [| exact Hall | exact Hrest].
    eapply Hbody; eassumption.
Qed.

Lemma server_loop_body_consistent arrivals (c c' : Ctx) :
  ctx_ok c /\ batch_consistent get_hash c ->
  Forall (fun rh => valid_req rh = true) arrivals ->
  server_loop_body arrivals c = (Ok tt, c') ->
  ctx_ok c' /\ batch_consistent get_hash c'.
Proof.
  intros [Hc Hcons] Hall Hrun.
  pose proof (server_loop_body_history arrivals c c' Hc Hrun) as [Hc' _].
  split; [exact Hc' |].
  rewrite PersistentKvFacts.server_loop_body_unfold in Hrun.
  apply bind_Ok_inv in Hrun as (s & c0 & Hs & Hrun).
  injection Hs as <- <-.
  apply bind_Ok_inv in Hrun as ([] & c1 & Hloop & Hend).
  apply (for_each_invariant
           (fun c => ctx_ok c /\ batch_consistent get_hash c) req_handler
           (fun rh => valid_req rh = true)) in Hloop;
    [| | split; assumption | exact Hall].
  - destruct Hloop as [Hc1 Hcons1].
    exact (loop_end_consistent _ c1 c' Hc1 Hcons1 Hend).
  - intros rh c2 c3 [Hc2 Hcons2] Hv Hrun2. split.
    + exact (proj1 (PersistentKvFacts.req_handler_ctx_ok get_hash
                      batch_op_drain_helper b rh c2 c3 Hc2 Hrun2)).
    + exact (req_handler_consistent rh c2 c3 Hc2 Hcons2 Hv Hrun2).
Qed.

(** X5: the five batch arrays stay together.  Between two steps of the server,
    and in the state in which [drain_batch] hands the batch to the hash
    table, each of the first [num_reqs_in_batch] entries of [is_set_arr],
    [key_ptr_arr], [val_ptr_arr] and [keyhash_arr] is the flag, the key
    pointer, the value pointer and the key hash of the request whose handle
    is at that index in [req_handle_arr]: a SET points to the value behind
    the key in the request, a GET to the response buffer of its handle, and
    the hash is that of the key in the table as it is now. *)
Theorem batch_entries_belong_together seconds (c c' : Ctx) :
  ctx_ok c -> batch_consistent get_hash c ->
  Forall (Forall (Forall (fun rh => valid_req rh = true))) seconds ->
  server_func seconds c = (Ok tt, c') ->
  batch_consistent get_hash c' /\
  forall rh, valid_req rh = true ->
    batch_consistent get_hash (snd (req_handler_record rh c')).
Proof.
  intros Hctx Hcons Hall Hrun.
  assert (Hinv : ctx_ok c' /\ batch_consistent get_hash c').
  { apply (for_each_invariant
             (fun c => ctx_ok c /\ batch_consistent get_hash c) server_second
             (Forall (Forall (fun rh => valid_req rh = true))) )
      with (xs := seconds) (c := c);
      [| split; assumption | exact Hall | exact Hrun].
    clear. intros its c c' [Hc Hcons] Hall Hrun.
    unfold PersistentKv.server_second in Hrun.
    apply bind_Ok_inv in Hrun as ([] & c0 & H0 & Hrun).
    injection H0 as <-.
    apply bind_Ok_inv in Hrun as ([] & c1 & Hiter & Hrun).
    injection Hrun as <-.
    apply (for_each_invariant
             (fun c => ctx_ok c /\ batch_consistent get_hash c)
             server_loop_body (Forall (fun rh => valid_req rh = true)))
      in Hiter; [| | split; assumption | exact Hall].
    - exact Hiter.
    - intros arrivals c2 c3. apply server_loop_body_consistent. }
  destruct Hinv as [(Hok' & Hn' & _) Hcons'].
  split; [exact Hcons' |].
  intros rh Hv. apply req_handler_record_consistent; assumption.
Qed.

End Server.

(** Three requests arrive in one iteration of the loop and none in the
    next: the server started on the example context runs to the end. *)
Lemma requests_answered_once_in_order_witness :
  ctx_ok example_context /\
  exists c',
    PersistentKv.server_func example_get_hash example_helper
      (mkBuild true true) [[map example_handle [1; 2; 3]; []]]
      example_context = (Ok tt, c').
Proof.
  split.
  - unfold ctx_ok, arrays_ok, kAppMaxServerBatch, size_t_mod. cbn.
    repeat split; lia.
  - apply (requests_answered_once_in_order example_get_hash example_helper
             (mkBuild true true) [[map example_handle [1; 2; 3]; []]]
             example_context).
    + unfold ctx_ok, arrays_ok, kAppMaxServerBatch, size_t_mod. cbn.
      repeat split; lia.
    + repeat constructor.
Defined.

(** The same run: the three answers are well formed. *)
Lemma server_responses_well_formed_witness :
  Forall well_formed_response
    (tx_responses
       (snd (PersistentKv.server_func example_get_hash example_helper
               (mkBuild true true) [[map example_handle [1; 2; 3]; []]]
               example_context))) /\
  batch_recorded
    (snd (PersistentKv.server_func example_get_hash example_helper
            (mkBuild true true) [[map example_handle [1; 2; 3]; []]]
            example_context)).
Proof.
  apply (server_responses_well_formed example_get_hash example_helper
           (mkBuild true true) [[map example_handle [1; 2; 3]; []]]
           example_context _).
  - unfold ctx_ok, arrays_ok, kAppMaxServerBatch, size_t_mod. cbn.
    repeat split; lia.
  - intros i Hi. cbn in Hi. lia.
  - constructor.
  - repeat constructor.
  - vm_compute. reflexivity.
Defined.

(** Seventeen requests in one iteration and none in the next: sixteen
    answers leave when the batch is full, the last one when the server is
    idle. *)
Lemma responses_of_a_second_counted_witness :
  stats_num_resps_tot
    (snd ((modify (set_stats_num_resps_tot 0) ;;
           for_each
             (PersistentKv.server_loop_body example_get_hash example_helper
                (mkBuild true true))
             [map example_handle (seqZ 1 17); []]) example_context))
  = to_size_t (17 - 0).
Proof.
  apply (responses_of_a_second_counted example_get_hash example_helper
           (mkBuild true true) [map example_handle (seqZ 1 17); []]
           example_context).
  - unfold ctx_ok, arrays_ok, kAppMaxServerBatch, size_t_mod. cbn.
    repeat split; lia.
  - vm_compute. reflexivity.
Defined.

(** The same run on the example context, whose batch is empty. *)
Lemma batch_entries_belong_together_witness :
  batch_consistent example_get_hash
    (snd (PersistentKv.server_func example_get_hash example_helper
            (mkBuild true true) [[map example_handle [1; 2; 3]]]
            example_context)).
Proof.
  apply (batch_entries_belong_together example_get_hash example_helper
           (mkBuild true true) [[map example_handle [1; 2; 3]]]
           example_context).
  - unfold ctx_ok, arrays_ok, kAppMaxServerBatch, size_t_mod. cbn.
    repeat split; lia.
  - intros i Hi. cbn in Hi. lia.
  - repeat constructor.
  - vm_compute. reflexivity.
Defined.


End ServerHistoryFacts.

(** ** The key-value client: the requests it sends and the responses it
    accepts (persistent_kv.cc) *)

Module KvClientFacts.
Import ERpc PersistentKv.

(** X6: [fastrange64] maps a 64-bit random number into the range: the result is
    the quotient of the product by 2^64, below [n] for every [n] but 0, and
    it grows with [rand]. *)
Theorem fastrange64_scales rand n :
  0 <= rand < size_t_mod -> 0 <= n < size_t_mod ->
  fastrange64 rand n = rand * n / 2 ^ 64 /\
  (0 < n -> 0 <= fastrange64 rand n < n) /\
  (n = 0 -> fastrange64 rand n = 0) /\
  (forall rand', rand <= rand' < size_t_mod ->
     fastrange64 rand n <= fastrange64 rand' n).
Proof.
  intros Hr Hn. unfold size_t_mod in *.
  assert (Heq : forall x, 0 <= x < 2 ^ 64 ->
                  fastrange64 x n = x * n / 2 ^ 64).
  { intros x Hx. unfold fastrange64.
    rewrite (Z.mod_small (x * n)) by nia.
    rewrite Z.shiftr_div_pow2 by lia.
    unfold to_size_t, size_t_mod. apply Z.mod_small.
    split; [apply Z.div_pos; nia |].
    apply Z.div_lt_upper_bound; nia. }
  split; [apply Heq; exact Hr |]. split; [| split].
  - intros Hpos. rewrite Heq by exact Hr.
    split; [apply Z.div_pos; nia |].
    apply Z.div_lt_upper_bound; nia.
  - intros ->. rewrite Heq by exact Hr. rewrite Z.mul_0_r. reflexivity.
  - intros rand' Hr'. rewrite !Heq by lia.
    apply Z.div_le_mono; nia.
Qed.

Lemma fastrange64_scales_witness :
  fastrange64 (2 ^ 63) 1000 = 2 ^ 63 * 1000 / 2 ^ 64 /\
  (0 < 1000 -> 0 <= fastrange64 (2 ^ 63) 1000 < 1000) /\
  (1000 = 0 -> fastrange64 (2 ^ 63) 1000 = 0) /\
  (forall rand', 2 ^ 63 <= rand' < size_t_mod ->
     fastrange64 (2 ^ 63) 1000 <= fastrange64 rand' 1000).
Proof.
  apply (fastrange64_scales (2 ^ 63) 1000); unfold size_t_mod; lia.
Defined.

Section Client.

Variable b : Build.
Variable cfg : Config.
Variable keys : Z.
Variable cont_id : nat.

Local Abbreviation send_req := (PersistentKv.send_req cfg keys cont_id).
Local Abbreviation app_cont_func :=
  (PersistentKv.app_cont_func b cfg keys cont_id).

(** The state of a computation that ends with a call on the endpoint. *)
Lemma snd_on_rpc {A} (m : M Rpc A) (c : ClientContext) :
  snd ((cl_on_rpc m ;; ret tt) c) = cl_set_rpc (snd (m (cl_rpc c))) c.
Proof.
  unfold bind, cl_on_rpc. destruct (m (cl_rpc c)) as [[] r]; reflexivity.
Qed.

(** [send_req] up to the call of [enqueue_request]: what it leaves in the
    window slot. *)
Lemma send_req_steps tid d ws_i (c : ClientContext) :
  window_slot_ok ws_i c ->
  exists c1 is_set req resp,
    send_req tid d ws_i c
    = (cl_on_rpc (enqueue_request cfg tid (rand_session_num d) kAppReqType
                    req resp cont_id ws_i) ;; ret tt) c1 /\
    is_set = match workload c with
             | kGets => false
             | kSets => true
             | k5050 => rand_is_set d mod 2 =? 0
             end /\
    cl_is_set_arr c1 = <[Z.to_nat ws_i := is_set]> (cl_is_set_arr c) /\
    key_arr c1
      = <[Z.to_nat ws_i := to_size_t (1 + fastrange64 (rand_key d) keys)]>
          (key_arr c) /\
    req_key c1
      = <[Z.to_nat ws_i := to_size_t (1 + fastrange64 (rand_key d) keys)]>
          (req_key c) /\
    cl_req_msgbuf c1 = <[Z.to_nat ws_i := req]> (cl_req_msgbuf c) /\
    (exists req0, cl_req_msgbuf c !! Z.to_nat ws_i = Some req0 /\
       req = resize_msg_buffer req0
               (if is_set then sizeof_Key + sizeof_Value else sizeof_Key)) /\
    cl_resp_msgbuf c !! Z.to_nat ws_i = Some resp /\
    cl_resp_msgbuf c1 = cl_resp_msgbuf c /\
    cl_rpc c1 = cl_rpc c /\ cl_released c1 = cl_released c /\
    cl_num_resps c1 = cl_num_resps c /\ workload c1 = workload c /\
    num_get_success c1 = num_get_success c /\
    num_set_success c1 = num_set_success c /\
    num_set_reqs c1
      = (if is_set then to_size_t (num_set_reqs c + 1) else num_set_reqs c) /\
    num_get_reqs c1
      = (if is_set then num_get_reqs c else to_size_t (num_get_reqs c + 1)).
Proof.
  intros (H0 & Hreq & Hresp & Hset & Hkey & Hrk).
  destruct (lookup_lt_is_Some_2 (cl_req_msgbuf c) (Z.to_nat ws_i))
    as [req Hreq']; [lia |].
  destruct (lookup_lt_is_Some_2 (cl_resp_msgbuf c) (Z.to_nat ws_i))
    as [resp Hresp']; [lia |].
  unfold PersistentKv.send_req.
  erewrite bind_Ok by reflexivity.
  erewrite bind_Ok by (apply index_lookup; eassumption).
  erewrite bind_Ok
    by (apply PersistentKvClientFacts.cl_store_in_run; lia).
  erewrite bind_Ok by reflexivity.
  erewrite bind_Ok
    by (apply PersistentKvClientFacts.cl_store_in_run;
        destruct (workload c); repeat case_match; cbn; lia).
  erewrite bind_Ok
    by (apply PersistentKvClientFacts.cl_store_in_run;
        destruct (workload c); repeat case_match; cbn; lia).
  erewrite bind_Ok
    by (apply PersistentKvClientFacts.cl_store_in_run;
        destruct (workload c); repeat case_match; cbn;
        rewrite ?length_insert; lia).
  erewrite bind_Ok by reflexivity.
  erewrite bind_Ok.
  2:{ apply index_lookup; [exact H0 |].
      destruct (workload c); repeat case_match; cbn; exact Hresp'. }
  eexists _, _, _, resp. split; [reflexivity |].
  split; [reflexivity |].
  repeat match goal with
         | |- _ /\ _ => split
         end;
    try exact Hresp';
    try (destruct (match workload c with
                   | kGets => false
                   | kSets => true
                   | k5050 => rand_is_set d mod 2 =? 0
                   end); reflexivity).
  exists req. split; [exact Hreq' | reflexivity].
Qed.

(** X7: every request that [send_req] forms is one the server takes: its
    payload has the size of a SET when [is_set_arr] marks the window slot as
    a SET and the size of a GET otherwise, and its key, which is also
    remembered in [key_arr], lies between 1 and the number of keys.  The
    Gets workload sends only GETs, the Sets workload only SETs; exactly one
    of the two request counters moves; the other window slots and the
    response buffers are not touched. *)
Theorem send_req_forms_request tid d ws_i (c : ClientContext) :
  window_slot_ok ws_i c ->
  0 < keys < size_t_mod -> 0 <= rand_key d < size_t_mod ->
  let c' := snd (send_req tid d ws_i c) in
  exists (is_set : bool) (key : Z) (req : MsgBuffer),
    cl_is_set_arr c' !! Z.to_nat ws_i = Some is_set /\
    key_arr c' !! Z.to_nat ws_i = Some key /\
    req_key c' !! Z.to_nat ws_i = Some key /\
    1 <= key <= keys /\
    cl_req_msgbuf c' !! Z.to_nat ws_i = Some req /\
    data_size req
      = (if is_set then sizeof_Key + sizeof_Value else sizeof_Key) /\
    (workload c = kGets -> is_set = false) /\
    (workload c = kSets -> is_set = true) /\
    num_set_reqs c'
      = (if is_set then to_size_t (num_set_reqs c + 1) else num_set_reqs c) /\
    num_get_reqs c'
      = (if is_set then num_get_reqs c else to_size_t (num_get_reqs c + 1)) /\
    cl_resp_msgbuf c' = cl_resp_msgbuf c /\
    window_slot_ok ws_i c' /\
    forall j, j <> Z.to_nat ws_i ->
      cl_is_set_arr c' !! j = cl_is_set_arr c !! j /\
      key_arr c' !! j = key_arr c !! j /\
      cl_req_msgbuf c' !! j = cl_req_msgbuf c !! j.
Proof.
  intros Hslot Hkeys Hrand c'.
  destruct (send_req_steps tid d ws_i c Hslot)
    as (c1 & is_set & req & resp & Hrun & His & Hsa & Hka & Hrk & Hrm &
        (req0 & Hreq0 & Hreq) & Hresp & Hrs & _ & _ & _ & _ & _ & _ &
        Hsr & Hgr).
  destruct Hslot as (H0 & Hl1 & Hl2 & Hl3 & Hl4 & Hl5).
  pose proof (PersistentKvClientFacts.fastrange64_range (rand_key d) keys
                Hrand Hkeys) as Hfr.
  assert (Hkey : to_size_t (1 + fastrange64 (rand_key d) keys)
                 = 1 + fastrange64 (rand_key d) keys)
    by (apply to_size_t_small; unfold size_t_mod in *; lia).
  assert (Hc' : c' = cl_set_rpc (cl_rpc c') c1).
  { unfold c'. rewrite Hrun, snd_on_rpc. reflexivity. }
  exists is_set, (1 + fastrange64 (rand_key d) keys), req.
  rewrite Hc'. cbn [cl_is_set_arr key_arr req_key cl_req_msgbuf cl_set_rpc
                    num_set_reqs num_get_reqs cl_resp_msgbuf].
  rewrite Hsa, Hka, Hrk, Hrm, Hkey.
  rewrite !list_lookup_insert_eq by lia.
  repeat match goal with
         | |- _ /\ _ => split
         end; try reflexivity; try lia; try assumption.
  - rewrite Hreq. cbn. reflexivity.
  - intros Hw. rewrite His, Hw. reflexivity.
  - intros Hw. rewrite His, Hw. reflexivity.
  - unfold window_slot_ok.
    cbn [cl_is_set_arr key_arr req_key cl_req_msgbuf cl_resp_msgbuf
         cl_set_rpc].
    rewrite Hsa, Hka, Hrk, Hrm, Hrs, !length_insert. auto 10.
  - intros j Hj. rewrite !list_lookup_insert_ne by auto. auto.
Qed.

(** X8: [app_cont_func] on the response of window slot [ws_i].  Where the
    assertions are compiled in, a response that they do not accept stops the
    client with nothing released, counted or sent.  In every other case the
    continuation releases the response handle, once, counts the response,
    counts a success for a SET answered by [kSetSuccess] and for a GET
    answered by a value, and sends the next request of the same window
    slot. *)
Theorem app_cont_func_checks_response tid d first_word resp_handle ws_i
    is_set key (c : ClientContext) :
  window_slot_ok ws_i c ->
  cl_is_set_arr c !! Z.to_nat ws_i = Some is_set ->
  key_arr c !! Z.to_nat ws_i = Some key ->
  let resp := rh_resp_msgbuf resp_handle in
  if kDatapathChecks b && negb (response_accepted is_set key first_word resp)
  then app_cont_func tid d first_word resp_handle ws_i c = (Abort, c)
  else
    exists c2,
      app_cont_func tid d first_word resp_handle ws_i c
      = send_req tid d ws_i c2 /\
      cl_released c2 = cl_released c ++ [resp_handle] /\
      cl_num_resps c2 = to_size_t (cl_num_resps c + 1) /\
      num_set_success c2
        = (if is_set && (first_word =? Result_word kSetSuccess)
           then to_size_t (num_set_success c + 1) else num_set_success c) /\
      num_get_success c2
        = (if negb is_set && (data_size resp =? sizeof_Value)
           then to_size_t (num_get_success c + 1) else num_get_success c) /\
      num_set_reqs c2 = num_set_reqs c /\ num_get_reqs c2 = num_get_reqs c /\
      cl_rpc c2 = cl_rpc c /\ workload c2 = workload c /\
      cl_is_set_arr c2 = cl_is_set_arr c /\ key_arr c2 = key_arr c /\
      req_key c2 = req_key c /\ cl_req_msgbuf c2 = cl_req_msgbuf c /\
      cl_resp_msgbuf c2 = cl_resp_msgbuf c.
Proof.
  intros (H0 & Hl1 & Hl2 & Hl3 & Hl4 & Hl5) His Hkey resp.
  unfold PersistentKv.app_cont_func, response_accepted.
  fold resp.
  erewrite bind_Ok by reflexivity.
  erewrite bind_Ok by (apply index_lookup; eassumption).
  assert (Hin : (0 <=? ws_i) && (ws_i <? Z.of_nat (length (key_arr c)))
                = true).
  { apply andb_true_iff. split; [apply Z.leb_le | apply Z.ltb_lt]; lia. }
  unfold assert, bind, modify, get, gets, cl_release_response, index.
  rewrite Hin, Hkey. unfold ret.
  destruct is_set, (kDatapathChecks b),
    (data_size resp =? sizeof_Result), (data_size resp =? sizeof_Value),
    (first_word =? Result_word kSetSuccess), (first_word =? key);
    cbn -[PersistentKv.send_req to_size_t];
    try reflexivity;
    (eexists; split; [reflexivity |]; cbn -[to_size_t]; auto 20).
Qed.

End Client.

(** Window slot 1 of the example client, which sends SETs over 1000 keys. *)
Lemma send_req_forms_request_witness :
  exists (is_set : bool) (key : Z) (req : MsgBuffer),
    cl_is_set_arr
      (snd (send_req example_config 1000 88 1 example_draw 1
              example_kv_client)) !! 1%nat = Some is_set /\
    1 <= key <= 1000 /\
    cl_req_msgbuf
      (snd (send_req example_config 1000 88 1 example_draw 1
              example_kv_client)) !! 1%nat = Some req /\
    data_size req
      = (if is_set then sizeof_Key + sizeof_Value else sizeof_Key).
Proof.
  destruct (send_req_forms_request example_config 1000 88 1 example_draw 1
              example_kv_client)
    as (is_set & key & req & H1 & _ & _ & H4 & H5 & H6 & _).
  - unfold window_slot_ok. cbn. lia.
  - unfold size_t_mod. lia.
  - unfold size_t_mod. cbn. lia.
  - exists is_set, key, req. auto.
Defined.

(** The example client has a GET outstanding in window slot 1, for key 0:
    the answer [kGetFail] is accepted and the handle released. *)
Lemma app_cont_func_checks_response_witness :
  exists c2,
    app_cont_func (mkBuild true true) example_config 1000 88 1 example_draw
      (Result_word kGetFail) (mkRespHandle 0 0 (mkMsgBuffer 12352 64 8)) 1
      example_kv_client
    = send_req example_config 1000 88 1 example_draw 1 c2 /\
    cl_released c2 = [mkRespHandle 0 0 (mkMsgBuffer 12352 64 8)] /\
    num_get_success c2 = 0.
Proof.
  destruct (app_cont_func_checks_response (mkBuild true true) example_config
              1000 88 1 example_draw (Result_word kGetFail)
              (mkRespHandle 0 0 (mkMsgBuffer 12352 64 8)) 1 false 0
              example_kv_client)
    as (c2 & H1 & H2 & _ & _ & H5 & _).
  - unfold window_slot_ok. cbn. lia.
  - reflexivity.
  - reflexivity.
  - exists c2. auto.
Defined.

End KvClientFacts.

(** ** The window of the key-value client (persistent_kv.cc) *)

Module ClientWindowFacts.
Import ERpc PersistentKv.

(** The modelled [enqueue_request] has no undefined behaviour of its
    own. *)
Lemma enqueue_request_defined cfg tid sn ty req resp cont tag r :
  fst (enqueue_request cfg tid sn ty req resp cont tag r) <> Undefined.
Proof.
  unfold enqueue_request, bind, gets, get, abort, ret, put_session, modify.
  repeat case_match; cbn; discriminate.
Qed.

Section Window.

Variable cfg : Config.
Variable keys : Z.
Variable FLAGS_window_size : Z.
Variable cont_id : nat.

Hypothesis keys_range : 0 < keys < size_t_mod.

Local Abbreviation send_req := (PersistentKv.send_req cfg keys cont_id).
Local Abbreviation round :=
  (PersistentKv.client_func_round cfg keys cont_id).

(** One round of the loop, for a window slot within the arrays. *)
Lemma window_round tid (draws : Z -> Draw) (addrs : Z -> Z * Z) i
    (c : ClientContext) :
  client_arrays_ok c -> 0 <= i < kAppMaxWindowSize ->
  0 <= rand_key (draws i) < size_t_mod ->
  fst (round tid draws addrs i c) <> Undefined /\
  client_arrays_ok (snd (round tid draws addrs i c)) /\
  slot_formed keys (Z.to_nat i) (snd (round tid draws addrs i c)) /\
  forall j, j <> Z.to_nat i -> slot_formed keys j c ->
    slot_formed keys j (snd (round tid draws addrs i c)).
Proof.
  intros (Hl1 & Hl2 & Hl3 & Hl4 & Hl5) Hi Hrand.
  unfold client_func_round.
  erewrite bind_Ok
    by (apply PersistentKvClientFacts.cl_store_in_run; lia).
  erewrite bind_Ok
    by (apply PersistentKvClientFacts.cl_store_in_run; cbn; lia).
  match goal with
  | |- context [PersistentKv.send_req _ _ _ _ _ _ ?c1] =>
      destruct (KvClientFacts.send_req_steps cfg keys cont_id tid (draws i)
                  i c1)
        as (c2 & is_set & req & resp & Hrun & _ & Hsa & Hka & Hrk & Hrm &
            (req0 & Hreq0 & Hreq) & _ & Hrs & _)
  end.
  { unfold window_slot_ok. cbn. rewrite !length_insert. lia. }
  cbn [cl_is_set_arr key_arr req_key cl_req_msgbuf cl_resp_msgbuf
       cl_set_req_msgbuf cl_set_resp_msgbuf] in *.
  rewrite list_lookup_insert_eq in Hreq0 by lia.
  injection Hreq0 as <-.
  pose proof (PersistentKvClientFacts.fastrange64_range _ keys Hrand
                keys_range) as Hfr.
  assert (Hkey : to_size_t (1 + fastrange64 (rand_key (draws i)) keys)
                 = 1 + fastrange64 (rand_key (draws i)) keys)
    by (apply to_size_t_small; unfold size_t_mod in *; lia).
  rewrite Hrun, KvClientFacts.snd_on_rpc.
  split; [| split; [| split]].
  - unfold bind, cl_on_rpc.
    match goal with
    | |- context [enqueue_request ?a ?b ?c ?d ?e ?f ?g ?h ?r] =>
        pose proof (enqueue_request_defined a b c d e f g h r) as Hdef;
        destruct (enqueue_request a b c d e f g h r) as [[ret_ | e0 | |] r']
    end; cbn in *; congruence.
  - unfold client_arrays_ok.
    cbn [cl_is_set_arr key_arr req_key cl_req_msgbuf cl_resp_msgbuf
         cl_set_rpc].
    rewrite Hsa, Hka, Hrk, Hrm, Hrs, !length_insert. auto.
  - exists is_set, (1 + fastrange64 (rand_key (draws i)) keys), req.
    cbn [cl_is_set_arr key_arr req_key cl_req_msgbuf cl_resp_msgbuf
         cl_set_rpc].
    rewrite Hsa, Hka, Hrm, Hkey, !list_lookup_insert_eq
      by (rewrite ?length_insert; lia).
    rewrite Hreq. cbn. repeat split; lia.
  - intros j Hj (is_set' & key' & req' & H1 & H2 & H3 & H4 & H5 & H6).
    exists is_set', key', req'.
    cbn [cl_is_set_arr key_arr req_key cl_req_msgbuf cl_resp_msgbuf
         cl_set_rpc].
    rewrite Hsa, Hka, Hrm, !list_lookup_insert_ne by auto.
    auto 10.
Qed.

(** The loop over the window slots from [a] on. *)
Lemma window_rounds tid draws addrs (n : nat) : forall a (c : ClientContext),
  client_arrays_ok c -> 0 <= a -> a + Z.of_nat n <= kAppMaxWindowSize ->
  (forall i, 0 <= rand_key (draws i) < size_t_mod) ->
  (forall i, 0 <= i < a -> slot_formed keys (Z.to_nat i) c) ->
  let r := for_each (round tid draws addrs) (seqZ a (Z.of_nat n)) c in
  fst r <> Undefined /\
  (fst r = Ok tt ->
   client_arrays_ok (snd r) /\
   forall i, 0 <= i < a + Z.of_nat n -> slot_formed keys (Z.to_nat i) (snd r)).
Proof.
  induction n as [| n IH]; intros a c Hok Ha Hmax Hrand Hbefore; cbv zeta.
  - cbn. split; [discriminate |]. intros _. split; [exact Hok |].
    intros i Hi. apply Hbefore. lia.
  - rewrite seqZ_cons by lia.
    replace (Z.pred (Z.of_nat (S n))) with (Z.of_nat n) by lia.
    cbn [for_each].
    destruct (window_round tid draws addrs a c Hok ltac:(lia) (Hrand a))
      as (Hdef & Hok1 & Hformed & Hothers).
    unfold bind.
    destruct (round tid draws addrs a c) as [[[] | e | |] c1];
      cbn [fst snd] in *;
      try (split; [discriminate | discriminate]);
      try contradiction.
    specialize (IH (Z.succ a) c1 Hok1 ltac:(lia) ltac:(lia) Hrand).
    cbv zeta in IH.
    replace (a + Z.of_nat (S n)) with (Z.succ a + Z.of_nat n) by lia.
    apply IH.
    intros i Hi. destruct (Z.eq_dec i a) as [-> | Hne]; [exact Hformed |].
    apply Hothers; [lia |]. apply Hbefore. lia.
Qed.

(** X9: the check of [main] that the window is not larger than
    [kAppMaxWindowSize] is what keeps [client_func] within the arrays of
    the context.  With a window of at most [kAppMaxWindowSize] slots, the
    loop that fills the window never steps outside an array and, when it
    returns, every slot of the window holds a request as [send_req] forms
    it, in a buffer of [sizeof(Key) + sizeof(Value)] bytes.  With a larger
    window the loop does not return: it writes past the arrays. *)
Theorem client_window_within_arrays tid draws addrs (c : ClientContext) :
  client_arrays_ok c ->
  (forall i, 0 <= rand_key (draws i) < size_t_mod) ->
  let r :=
    client_func_window cfg keys FLAGS_window_size cont_id tid draws addrs c in
  (FLAGS_window_size <= kAppMaxWindowSize ->
   fst r <> Undefined /\
   (fst r = Ok tt ->
    forall i, 0 <= i < FLAGS_window_size ->
      slot_formed keys (Z.to_nat i) (snd r))) /\
  (kAppMaxWindowSize < FLAGS_window_size -> fst r <> Ok tt).
Proof.
  intros Hok Hrand. cbv zeta. unfold client_func_window. split.
  - intros Hmax.
    destruct (Z_le_gt_dec 0 FLAGS_window_size) as [Hpos | Hneg].
    + pose proof (window_rounds tid draws addrs (Z.to_nat FLAGS_window_size)
                    0 c Hok ltac:(lia) ltac:(lia) Hrand
                    ltac:(intros i Hi; lia)) as Hloop.
      cbv zeta in Hloop. rewrite Z2Nat.id in Hloop by lia.
      destruct Hloop as [Hdef Hformed].
      split; [exact Hdef |]. intros Hrun. apply (Hformed Hrun).
    + rewrite seqZ_nil by lia. cbn.
      split; [discriminate |]. intros _ i Hi. lia.
  - intros Hbig.
    replace FLAGS_window_size
      with (kAppMaxWindowSize + (FLAGS_window_size - kAppMaxWindowSize))
      by lia.
    rewrite seqZ_app by (unfold kAppMaxWindowSize in *; lia).
    rewrite for_each_app.
    pose proof (window_rounds tid draws addrs (Z.to_nat kAppMaxWindowSize)
                  0 c Hok ltac:(lia) ltac:(reflexivity) Hrand
                  ltac:(intros i Hi; lia)) as Hloop.
    cbv zeta in Hloop.
    rewrite Z2Nat.id in Hloop by (unfold kAppMaxWindowSize; lia).
    destruct Hloop as [_ Hformed].
    unfold bind at 1.
    destruct (for_each _ (seqZ 0 kAppMaxWindowSize) c)
      as [[[] | e | |] c1]; cbn [fst snd] in *; try discriminate.
    destruct (Hformed eq_refl) as [(Hl1 & Hl2 & Hl3 & Hl4 & Hl5) _].
    rewrite seqZ_cons by lia. cbn [for_each].
    unfold client_func_round at 1, cl_store_in at 1, bind, get, store.
    replace ((0 <=? 0 + kAppMaxWindowSize)
             && (0 + kAppMaxWindowSize <? Z.of_nat (length (cl_req_msgbuf c1))))
      with false
      by (symmetry; apply andb_false_iff; right; apply Z.ltb_ge; lia).
    cbn. discriminate.
Qed.

End Window.

(** A window of four slots on the fresh example client. *)
Lemma client_window_within_arrays_witness :
  fst (client_func_window example_config 1000 4 88 1
         (fun i => mkDraw i (2 ^ 63) 0)
         (fun i => (8192 + 64 * i, 12288 + 64 * i)) example_fresh_client)
  <> Undefined.
Proof.
  apply (client_window_within_arrays example_config 1000 4 88
           ltac:(unfold size_t_mod; lia) 1
           (fun i => mkDraw i (2 ^ 63) 0)
           (fun i => (8192 + 64 * i, 12288 + 64 * i)) example_fresh_client).
  - unfold client_arrays_ok, kAppMaxWindowSize. cbn. repeat split; lia.
  - intros i. cbn. unfold size_t_mod. lia.
  - unfold kAppMaxWindowSize. lia.
Defined.

End ClientWindowFacts.

(** ** The key-value client and server together (persistent_kv.cc) *)

Module KvRoundTripFacts.
Import ERpc PersistentKv.

(** X10: the assertions of the client never fire on an answer of the server.
    Take any response that a run of [server_func] on requests of valid size
    has submitted, and a client that remembers in [is_set_arr] the kind of
    request it has sent for the window slot.  When the response arrives
    with the payload size that the server gave it and, for a GET answered
    by a value, the value starts with the key, [app_cont_func] passes its
    assertions in every build: it releases the handle and sends the next
    request of the window slot. *)
Theorem client_accepts_server_answers {HashMap : Type}
    (get_hash : HashMap -> Z -> Z) batch_op_drain_helper b seconds
    (cs cs' : @ServerContext HashMap) (resp : ReqHandle)
    cfg keys cont_id tid d first_word resp_handle ws_i key
    (c : ClientContext) :
  ctx_ok cs -> batch_recorded cs ->
  Forall well_formed_response (tx_responses cs) ->
  Forall (Forall (Forall (fun rh => valid_req rh = true))) seconds ->
  server_func get_hash batch_op_drain_helper b seconds cs = (Ok tt, cs') ->
  In resp (tx_responses cs') ->
  window_slot_ok ws_i c ->
  cl_is_set_arr c !! Z.to_nat ws_i = Some (is_set_req resp) ->
  key_arr c !! Z.to_nat ws_i = Some key ->
  data_size (rh_resp_msgbuf resp_handle) = data_size (pre_resp_msgbuf resp) ->
  (is_set_req resp = false ->
   data_size (pre_resp_msgbuf resp) = sizeof_Value -> first_word = key) ->
  response_accepted (is_set_req resp) key first_word
    (rh_resp_msgbuf resp_handle) = true /\
  exists c2,
    app_cont_func b cfg keys cont_id tid d first_word resp_handle ws_i c
    = send_req cfg keys cont_id tid d ws_i c2 /\
    cl_released c2 = cl_released c ++ [resp_handle] /\
    cl_num_resps c2 = to_size_t (cl_num_resps c + 1).
Proof.
  intros Hctx Hrec Hwf Hall Hrun Hin Hslot His Hkey Hsize Hval.
  destruct (ServerHistoryFacts.server_func_served get_hash
              batch_op_drain_helper b seconds cs cs')
    as (_ & _ & Hwf'); [split; [| split]; assumption | assumption
                        | assumption |].
  rewrite Forall_forall in Hwf'.
  apply list_elem_of_In in Hin.
  specialize (Hwf' resp Hin). destruct Hwf' as [_ Hformat].
  assert (Hacc : response_accepted (is_set_req resp) key first_word
                   (rh_resp_msgbuf resp_handle) = true).
  { unfold response_accepted. rewrite Hsize.
    destruct (is_set_req resp).
    - destruct Hformat as [-> _]. reflexivity.
    - destruct Hformat as [Hv | [Hr _]].
      + rewrite Hv. cbn. apply Z.eqb_eq. apply Hval; [reflexivity | exact Hv].
      + rewrite Hr. reflexivity. }
  split; [exact Hacc |].
  destruct Hslot as (H0 & Hl1 & Hl2 & Hl3 & Hl4 & Hl5).
  unfold response_accepted in Hacc.
  unfold PersistentKv.app_cont_func.
  erewrite bind_Ok by reflexivity.
  erewrite bind_Ok by (apply index_lookup; eassumption).
  assert (Hinb : (0 <=? ws_i) && (ws_i <? Z.of_nat (length (key_arr c)))
                 = true).
  { apply andb_true_iff. split; [apply Z.leb_le | apply Z.ltb_lt]; lia. }
  unfold assert, bind, modify, get, gets, cl_release_response, index.
  rewrite Hinb, Hkey. unfold ret.
  destruct (is_set_req resp), (kDatapathChecks b),
    (data_size (rh_resp_msgbuf resp_handle) =? sizeof_Result),
    (data_size (rh_resp_msgbuf resp_handle) =? sizeof_Value),
    (first_word =? Result_word kSetSuccess), (first_word =? key);
    try discriminate Hacc;
    cbn -[PersistentKv.send_req to_size_t];
    (eexists; split; [reflexivity |]; cbn -[to_size_t]; auto).
Qed.

(** The server on the example context answers the SET of handle 1; the
    example client has a SET outstanding in window slot 1 once it has sent
    its first request. *)
Lemma client_accepts_server_answers_witness :
  exists c2,
    app_cont_func (mkBuild true true) example_config 1000 88 1 example_draw
      (Result_word kSetSuccess) (mkRespHandle 0 0 (mkMsgBuffer 12352 64 8)) 1
      (snd (send_req example_config 1000 88 1 example_draw 1
              example_kv_client))
    = send_req example_config 1000 88 1 example_draw 1 c2.
Proof.
  destruct (client_accepts_server_answers example_get_hash example_helper
              (mkBuild true true) [[map example_handle [1; 2; 3]; []]]
              example_context
              (snd (server_func example_get_hash example_helper
                      (mkBuild true true)
                      [[map example_handle [1; 2; 3]; []]] example_context))
              (response_of true true (recorded (example_handle 1)))
              example_config 1000 88 1 example_draw
              (Result_word kSetSuccess)
              (mkRespHandle 0 0 (mkMsgBuffer 12352 64 8)) 1 501
              (snd (send_req example_config 1000 88 1 example_draw 1
                      example_kv_client)))
    as (_ & c2 & Hrun & _).
  - unfold ctx_ok, arrays_ok, kAppMaxServerBatch, size_t_mod. cbn.
    repeat split; lia.
  - intros i Hi. cbn in Hi. lia.
  - constructor.
  - repeat constructor.
  - vm_compute. reflexivity.
  - vm_compute. left. reflexivity.
  - vm_compute. repeat split; try reflexivity; discriminate.
  - vm_compute. reflexivity.
  - vm_compute. reflexivity.
  - vm_compute. reflexivity.
  - vm_compute. discriminate.
  - exists c2. exact Hrun.
Defined.

End KvRoundTripFacts.

(** ** The consensus client: the leader view, the keys and the latency
    samples (client.h) *)

Module ConsensusClientFacts.
Import ERpc Consensus.

Section Client.

Context {Sample : Type}.
Variable FLAGS_num_raft_servers : Z.
Variable kAppNumKeys : Z.
Variable kAppVerbose : bool.
Variable kClientReq : Z.
Variable client_cont_id : nat.
Variable node_id_of_machine : Z -> Z.
Variable b : Build.
Variable cfg : Config.

Local Abbreviation Ctx := (@AppContext Sample).
Local Abbreviation client_cont :=
  (@Consensus.client_cont Sample FLAGS_num_raft_servers kAppNumKeys
     kAppVerbose kClientReq client_cont_id node_id_of_machine b cfg).
Local Abbreviation send_req_one :=
  (@Consensus.send_req_one Sample kAppNumKeys kAppVerbose kClientReq
     client_cont_id b cfg).
Local Abbreviation change_leader_to_any :=
  (@Consensus.change_leader_to_any Sample FLAGS_num_raft_servers).
Local Abbreviation change_leader_to_node :=
  (@Consensus.change_leader_to_node Sample FLAGS_num_raft_servers
     node_id_of_machine).
Local Abbreviation next_connected :=
  (@Consensus.next_connected Sample FLAGS_num_raft_servers).
Local Abbreviation find_node :=
  (Consensus.find_node FLAGS_num_raft_servers node_id_of_machine).

Lemma ring_index cur k :
  0 <= cur < FLAGS_num_raft_servers ->
  0 <= (cur + k) mod FLAGS_num_raft_servers < FLAGS_num_raft_servers.
Proof. intros H. apply Z.mod_pos_bound. lia. Qed.

Lemma ring_step_moves cur k :
  0 <= cur < FLAGS_num_raft_servers -> 1 <= k < FLAGS_num_raft_servers ->
  (cur + k) mod FLAGS_num_raft_servers <> cur.
Proof.
  intros Hc Hk Heq.
  destruct (Z_lt_ge_dec (cur + k) FLAGS_num_raft_servers) as [Hlt | Hge].
  - rewrite Z.mod_small in Heq by lia. lia.
  - assert (H : (cur + k) mod FLAGS_num_raft_servers
                = cur + k - FLAGS_num_raft_servers).
    { symmetry. apply (Z.mod_unique_pos _ _ 1); lia. }
    lia.
Qed.

(** The loop of [change_leader_to_any] from step [i] on, in whatever state
    it runs. *)
Lemma next_connected_spec conns cur fuel : forall i,
  Z.of_nat (length conns) = FLAGS_num_raft_servers ->
  0 <= cur < FLAGS_num_raft_servers -> FLAGS_num_raft_servers <= 2 ^ 63 ->
  1 <= i -> (Z.to_nat (FLAGS_num_raft_servers - i) <= fuel)%nat ->
  (exists k,
     i <= k < FLAGS_num_raft_servers /\
     is_connected_to conns ((cur + k) mod FLAGS_num_raft_servers) /\
     (forall j, i <= j < k ->
        is_disconnected conns ((cur + j) mod FLAGS_num_raft_servers)) /\
     forall c : Ctx,
       next_connected conns cur i fuel c
       = (Ok (Some ((cur + k) mod FLAGS_num_raft_servers)), c))
  \/
  ((forall j, i <= j < FLAGS_num_raft_servers ->
      is_disconnected conns ((cur + j) mod FLAGS_num_raft_servers)) /\
   forall c : Ctx, next_connected conns cur i fuel c = (Ok None, c)).
Proof.
  induction fuel as [| fuel IH]; intros i Hlen Hcur Hmax Hi Hfuel.
  - right. split; [intros j Hj; lia | reflexivity].
  - cbn [Consensus.next_connected].
    destruct (i <? FLAGS_num_raft_servers) eqn:Hlt.
    2:{ apply Z.ltb_ge in Hlt. right.
        split; [intros j Hj; lia | reflexivity]. }
    apply Z.ltb_lt in Hlt.
    rewrite (to_size_t_small (cur + i)) by (unfold size_t_mod; lia).
    pose proof (ring_index cur i Hcur) as Hidx.
    destruct (lookup_lt_is_Some_2 conns
                (Z.to_nat ((cur + i) mod FLAGS_num_raft_servers)))
      as [conn Hconn]; [lia |].
    assert (Hindex : forall c : Ctx,
              index conns ((cur + i) mod FLAGS_num_raft_servers) c
              = (Ok conn, c))
      by (intros c; apply index_lookup; [lia | exact Hconn]).
    destruct (disconnected conn) eqn:Hd.
    + destruct (IH (i + 1) Hlen Hcur Hmax) as
        [(k & Hk & Hck & Hbefore & Hrun) | (Hall & Hrun)]; [lia | lia | |].
      * left. exists k. split; [lia |]. split; [exact Hck |]. split.
        -- intros j Hj. destruct (Z.eq_dec j i) as [-> | Hne].
           ++ exists conn. auto.
           ++ apply Hbefore. lia.
        -- intros c. erewrite bind_Ok by apply Hindex.
           rewrite Hd. apply Hrun.
      * right. split.
        -- intros j Hj. destruct (Z.eq_dec j i) as [-> | Hne].
           ++ exists conn. auto.
           ++ apply Hall. lia.
        -- intros c. erewrite bind_Ok by apply Hindex.
           rewrite Hd. apply Hrun.
    + left. exists i. split; [lia |]. split; [exists conn; auto |].
      split; [intros j Hj; lia |].
      intros c. erewrite bind_Ok by apply Hindex. rewrite Hd. reflexivity.
Qed.

(** [change_leader_to_any], given what its loop finds. *)
Lemma change_leader_to_any_run (c : Ctx) found :
  (forall s : Ctx,
     next_connected (conn_vec c) (leader_idx c) 1
       (Z.to_nat FLAGS_num_raft_servers) s = (Ok found, s)) ->
  change_leader_to_any c
  = match found with
    | Some i =>
        (Ok tt,
         mkAppContext (conn_vec c) (rpc c) i (last_key c)
           (num_resps c) (req_us_vec c) (req_msgbuf c) (req_key_value c)
           (resp_msgbuf c) (resp_payload c)
           (output c ++
              [PrintChangeLeaderToAny (leader_idx c);
               PrintChangedLeaderView i])
           (released c))
    | None =>
        (Abort,
         mkAppContext (conn_vec c) (rpc c) (leader_idx c) (last_key c)
           (num_resps c) (req_us_vec c) (req_msgbuf c) (req_key_value c)
           (resp_msgbuf c) (resp_payload c)
           (output c ++
              [PrintChangeLeaderToAny (leader_idx c);
               PrintFailedToChangeLeader])
           (released c))
    end.
Proof.
  intros Hrun.
  unfold Consensus.change_leader_to_any.
  erewrite bind_Ok by reflexivity.
  erewrite bind_Ok by reflexivity.
  erewrite bind_Ok by apply Hrun.
  destruct found as [i |];
    cbv [bind modify printf exit abort set_leader_idx];
    cbn [conn_vec rpc leader_idx last_key num_resps req_us_vec req_msgbuf
         req_key_value resp_msgbuf resp_payload output released];
    rewrite <- app_assoc; reflexivity.
Qed.

(** X11: [change_leader_to_any] moves the leader view to the first server after
    the current leader, in the order of the ring, whose connection is not
    marked as disconnected; the new leader is never the current one.  When
    every other server is disconnected the client says so and exits, with
    its leader view as it was.  Nothing but the leader view and the output
    changes. *)
Theorem change_leader_to_any_next_in_ring (c : Ctx) :
  0 < FLAGS_num_raft_servers <= 2 ^ 63 ->
  Z.of_nat (length (conn_vec c)) = FLAGS_num_raft_servers ->
  0 <= leader_idx c < FLAGS_num_raft_servers ->
  (exists k,
     1 <= k < FLAGS_num_raft_servers /\
     is_connected_to (conn_vec c)
       ((leader_idx c + k) mod FLAGS_num_raft_servers) /\
     (forall j, 1 <= j < k ->
        is_disconnected (conn_vec c)
          ((leader_idx c + j) mod FLAGS_num_raft_servers)) /\
     (leader_idx c + k) mod FLAGS_num_raft_servers <> leader_idx c /\
     change_leader_to_any c
     = (Ok tt,
        mkAppContext (conn_vec c) (rpc c)
          ((leader_idx c + k) mod FLAGS_num_raft_servers) (last_key c)
          (num_resps c) (req_us_vec c) (req_msgbuf c) (req_key_value c)
          (resp_msgbuf c) (resp_payload c)
          (output c ++
             [PrintChangeLeaderToAny (leader_idx c);
              PrintChangedLeaderView
                ((leader_idx c + k) mod FLAGS_num_raft_servers)])
          (released c)))
  \/
  ((forall j, 1 <= j < FLAGS_num_raft_servers ->
      is_disconnected (conn_vec c)
        ((leader_idx c + j) mod FLAGS_num_raft_servers)) /\
   change_leader_to_any c
   = (Abort,
      mkAppContext (conn_vec c) (rpc c) (leader_idx c) (last_key c)
        (num_resps c) (req_us_vec c) (req_msgbuf c) (req_key_value c)
        (resp_msgbuf c) (resp_payload c)
        (output c ++
           [PrintChangeLeaderToAny (leader_idx c);
            PrintFailedToChangeLeader])
        (released c))).
Proof.
  intros HN Hlen Hcur.
  destruct (next_connected_spec (conn_vec c) (leader_idx c)
              (Z.to_nat FLAGS_num_raft_servers) 1 Hlen Hcur
              ltac:(lia) ltac:(lia) ltac:(lia))
    as [(k & Hk & Hck & Hbefore & Hrun) | (Hall & Hrun)].
  - left. exists k. split; [exact Hk |]. split; [exact Hck |].
    split; [exact Hbefore |].
    split; [apply ring_step_moves; assumption |].
    exact (change_leader_to_any_run c _ Hrun).
  - right. split; [exact Hall |].
    exact (change_leader_to_any_run c _ Hrun).
Qed.

(** The loop of [change_leader_to_node] from machine [i] on. *)
Lemma find_node_spec node_id fuel : forall i,
  0 <= i -> (Z.to_nat (FLAGS_num_raft_servers - i) <= fuel)%nat ->
  match find_node node_id i fuel with
  | Some k =>
      i <= k < FLAGS_num_raft_servers /\ node_id_of_machine k = node_id /\
      forall j, i <= j < k -> node_id_of_machine j <> node_id
  | None =>
      forall j, i <= j < FLAGS_num_raft_servers ->
        node_id_of_machine j <> node_id
  end.
Proof.
  induction fuel as [| fuel IH]; intros i Hi Hfuel.
  - cbn. intros j Hj. lia.
  - cbn [Consensus.find_node].
    destruct (i <? FLAGS_num_raft_servers) eqn:Hlt.
    2:{ apply Z.ltb_ge in Hlt. intros j Hj. lia. }
    apply Z.ltb_lt in Hlt.
    destruct (node_id_of_machine i =? node_id) eqn:Hid.
    + apply Z.eqb_eq in Hid. split; [lia |]. split; [exact Hid |].
      intros j Hj. lia.
    + apply Z.eqb_neq in Hid.
      specialize (IH (i + 1) ltac:(lia) ltac:(lia)).
      destruct (Consensus.find_node _ _ node_id (i + 1) fuel) as [k |].
      * destruct IH as (Hk & Hnode & Hbefore).
        split; [lia |]. split; [exact Hnode |].
        intros j Hj. destruct (Z.eq_dec j i) as [-> | Hne];
          [exact Hid | apply Hbefore; lia].
      * intros j Hj. destruct (Z.eq_dec j i) as [-> | Hne];
          [exact Hid | apply IH; lia].
Qed.

(** [change_leader_to_node], given what its loop finds. *)
Lemma change_leader_to_node_run node_id (c : Ctx) :
  change_leader_to_node node_id c
  = match find_node node_id 0 (Z.to_nat FLAGS_num_raft_servers) with
    | Some i =>
        match (if (0 <=? i) && (i <? Z.of_nat (length (conn_vec c)))
               then conn_vec c !! Z.to_nat i else None) with
        | Some conn =>
            if disconnected conn then (Ok false, c)
            else (Ok true, set_leader_idx i c)
        | None => (Undefined, c)
        end
    | None =>
        (Abort,
         mkAppContext (conn_vec c) (rpc c) (leader_idx c) (last_key c)
           (num_resps c) (req_us_vec c) (req_msgbuf c) (req_key_value c)
           (resp_msgbuf c) (resp_payload c)
           (output c ++ [PrintCouldNotFindNode node_id]) (released c))
    end.
Proof.
  unfold Consensus.change_leader_to_node.
  erewrite bind_Ok by reflexivity.
  destruct (Consensus.find_node _ _ node_id 0 _) as [i |]; [| reflexivity].
  unfold bind, index.
  destruct ((0 <=? i) && (i <? Z.of_nat (length (conn_vec c))));
    [| reflexivity].
  destruct (conn_vec c !! Z.to_nat i) as [conn |]; [| reflexivity].
  cbv [ret]. cbv beta iota zeta.
  destruct (disconnected conn); reflexivity.
Qed.

(** X12: [change_leader_to_node] looks for the first machine with the given Raft
    node id.  When its connection is not marked as disconnected the leader
    view moves to it and the result is [true]; when it is, the result is
    [false] and nothing changes.  When no machine has the node id the
    client says so and exits. *)
Theorem change_leader_to_node_first_match node_id (c : Ctx) :
  Z.of_nat (length (conn_vec c)) = FLAGS_num_raft_servers ->
  (exists i conn,
     0 <= i < FLAGS_num_raft_servers /\
     node_id_of_machine i = node_id /\
     (forall j, 0 <= j < i -> node_id_of_machine j <> node_id) /\
     conn_vec c !! Z.to_nat i = Some conn /\
     change_leader_to_node node_id c
     = if disconnected conn then (Ok false, c)
       else (Ok true, set_leader_idx i c))
  \/
  ((forall j, 0 <= j < FLAGS_num_raft_servers ->
      node_id_of_machine j <> node_id) /\
   change_leader_to_node node_id c
   = (Abort,
      mkAppContext (conn_vec c) (rpc c) (leader_idx c) (last_key c)
        (num_resps c) (req_us_vec c) (req_msgbuf c) (req_key_value c)
        (resp_msgbuf c) (resp_payload c)
        (output c ++ [PrintCouldNotFindNode node_id]) (released c))).
Proof.
  intros Hlen.
  pose proof (find_node_spec node_id (Z.to_nat FLAGS_num_raft_servers) 0
                ltac:(lia) ltac:(lia)) as Hfind.
  rewrite change_leader_to_node_run.
  destruct (Consensus.find_node _ _ node_id 0 _) as [i |].
  - destruct Hfind as (Hi & Hnode & Hbefore).
    destruct (lookup_lt_is_Some_2 (conn_vec c) (Z.to_nat i))
      as [conn Hconn]; [lia |].
    left. exists i, conn. repeat (split; [assumption || lia |]).
    replace ((0 <=? i) && (i <? Z.of_nat (length (conn_vec c)))) with true
      by (symmetry; apply andb_true_iff;
          split; [apply Z.leb_le | apply Z.ltb_lt]; lia).
    rewrite Hconn. reflexivity.
  - right. split; [exact Hfind |]. reflexivity.
Qed.

Ltac ctx_simpl :=
  cbn [conn_vec rpc leader_idx last_key num_resps req_us_vec req_msgbuf
       req_key_value resp_msgbuf resp_payload output released
       set_leader_idx set_rpc set_last_key set_stats set_req_key_value
       set_response fst snd].

Ltac ctx_simpl_in H :=
  cbn [conn_vec rpc leader_idx last_key num_resps req_us_vec req_msgbuf
       req_key_value resp_msgbuf resp_payload output released
       set_leader_idx set_rpc set_last_key set_stats set_req_key_value
       set_response fst snd] in H.

(** X13: [send_req_one] sends the key that [last_key] holds, as key and as
    value, and moves [last_key] one step round the cycle of the
    [kAppNumKeys] keys.  The request goes to the session of the current
    leader, with the client's two buffers, the continuation [client_cont]
    and the tag 0; the leader view, the latency samples and the released
    handles stay as they are.  With the checks compiled in the function
    returns only when the endpoint has accepted the request. *)
Theorem send_req_one_cycles_keys tid (c : Ctx) conn :
  0 < kAppNumKeys < size_t_mod -> 0 <= last_key c < kAppNumKeys ->
  0 <= leader_idx c -> conn_vec c !! Z.to_nat (leader_idx c) = Some conn ->
  let enq :=
    enqueue_request cfg tid (session_num conn) kClientReq (req_msgbuf c)
      (resp_msgbuf c) client_cont_id 0 (rpc c) in
  let r := send_req_one tid c in
  req_key_value (snd r) = last_key c /\
  last_key (snd r) = (last_key c + 1) mod kAppNumKeys /\
  0 <= last_key (snd r) < kAppNumKeys /\
  rpc (snd r) = snd enq /\
  leader_idx (snd r) = leader_idx c /\ conn_vec (snd r) = conn_vec c /\
  num_resps (snd r) = num_resps c /\ req_us_vec (snd r) = req_us_vec c /\
  released (snd r) = released c /\
  req_msgbuf (snd r) = req_msgbuf c /\ resp_msgbuf (snd r) = resp_msgbuf c /\
  output (snd r)
    = output c ++
      (if kAppVerbose then [PrintSendingRequest (leader_idx c)] else []) /\
  (fst r = Ok tt ->
     exists ret_,
       fst enq = Ok ret_ /\ (kDatapathChecks b = true -> ret_ = 0)) /\
  (fst enq = Ok 0 -> fst r = Ok tt).
Proof.
  intros HK Hlk Hl0 Hconn. cbv zeta.
  destruct (enqueue_request cfg tid (session_num conn) kClientReq
              (req_msgbuf c) (resp_msgbuf c) client_cont_id 0 (rpc c))
    as [o r'] eqn:Henq.
  assert (Hmod : (last_key c + 1) mod kAppNumKeys
                 = if last_key c + 1 =? kAppNumKeys then 0
                   else last_key c + 1).
  { destruct (last_key c + 1 =? kAppNumKeys) eqn:Hk.
    - apply Z.eqb_eq in Hk. rewrite Hk. apply Z_mod_same_full.
    - apply Z.eqb_neq in Hk. apply Z.mod_small. lia. }
  rewrite Hmod.
  unfold Consensus.send_req_one.
  erewrite bind_Ok by reflexivity.
  erewrite bind_Ok by reflexivity.
  erewrite bind_Ok by reflexivity.
  ctx_simpl.
  rewrite (to_size_t_small (last_key c + 1)) by (unfold size_t_mod in *; lia).
  destruct (last_key c + 1 =? kAppNumKeys) eqn:Hk;
    [apply Z.eqb_eq in Hk | apply Z.eqb_neq in Hk];
    (erewrite bind_Ok by reflexivity);
    (erewrite bind_Ok by reflexivity);
    ctx_simpl;
    destruct kAppVerbose;
    (erewrite bind_Ok by reflexivity);
    (erewrite bind_Ok by (apply index_lookup; [exact Hl0 | exact Hconn]));
    unfold bind, on_rpc, modify, printf; ctx_simpl; rewrite Henq;
    unfold assert;
    destruct o as [ret_ | e | |]; ctx_simpl;
    try (destruct (kDatapathChecks b) eqn:Hchk;
         [destruct (ret_ =? 0) eqn:Hret |]);
    cbv [ret abort]; ctx_simpl;
    rewrite ?app_nil_r;
    repeat match goal with
           | |- _ /\ _ => split
           end;
    try reflexivity; try lia; try discriminate;
    try (intros _; exists ret_; split; [reflexivity |];
         first [intros _; apply Z.eqb_eq; assumption | discriminate]);
    try (intros [= ->]; discriminate).
Qed.

Lemma keeps_on_rpc {A X} (f : Ctx -> X) (m : M Rpc A) :
  (forall r c, f (set_rpc r c) = f c) -> preserves f (on_rpc m).
Proof.
  intros H c. unfold on_rpc. destruct (m (rpc c)) as [o r]. apply H.
Qed.

Ltac keeps_step :=
  lazymatch goal with
  | |- preserves _ (bind _ _) =>
      apply ExchangeFacts.preserves_bind; [| intros ?]
  | |- preserves _ (if _ then _ else _) => apply ExchangeFacts.preserves_if
  | |- preserves _ (match ?x with _ => _ end) => destruct x
  | |- preserves _ (ret _) => apply ExchangeFacts.preserves_ret
  | |- preserves _ (index _ _) => apply ExchangeFacts.preserves_index
  | |- preserves _ (assert _ _) => apply ExchangeFacts.preserves_assert
  | |- preserves _ (on_rpc _) => apply keeps_on_rpc; intros ? ?; reflexivity
  | |- preserves _ get => intros ?; reflexivity
  | |- preserves _ exit => intros ?; reflexivity
  | |- preserves _ (printf _) => intros ?; reflexivity
  | |- preserves _ (usleep _) => intros ?; reflexivity
  | |- preserves _ (release_response _) => intros ?; reflexivity
  | |- preserves _ (modify _) => intros ?; reflexivity
  end.

Lemma next_connected_keeps {X} (f : Ctx -> X) conns cur fuel : forall i,
  preserves f (next_connected conns cur i fuel).
Proof.
  induction fuel as [| fuel IH]; intros i; cbn [Consensus.next_connected];
    repeat keeps_step.
  apply IH.
Qed.

(** Neither changing the leader nor sending a request touches the latency
    statistics or the released handles. *)
Lemma change_leader_to_any_keeps {X} (f : Ctx -> X) :
  (forall v c, f (set_leader_idx v c) = f c) ->
  (forall o c, f (snd (printf o c)) = f c) ->
  preserves f change_leader_to_any.
Proof.
  intros Hl Hp. unfold Consensus.change_leader_to_any.
  apply ExchangeFacts.preserves_bind; [intros ?; reflexivity | intros c].
  apply ExchangeFacts.preserves_bind; [intros ?; apply Hp | intros _].
  apply ExchangeFacts.preserves_bind;
    [apply next_connected_keeps | intros [i |]].
  - apply ExchangeFacts.preserves_bind; [intros ?; apply Hl | intros _].
    intros ?; apply Hp.
  - apply ExchangeFacts.preserves_bind; [intros ?; apply Hp | intros _].
    intros ?; reflexivity.
Qed.

Lemma change_leader_to_node_keeps {X} (f : Ctx -> X) node_id :
  (forall v c, f (set_leader_idx v c) = f c) ->
  (forall o c, f (snd (printf o c)) = f c) ->
  preserves f (change_leader_to_node node_id).
Proof.
  intros Hl Hp. unfold Consensus.change_leader_to_node.
  apply ExchangeFacts.preserves_bind; [intros ?; reflexivity | intros c].
  destruct (Consensus.find_node _ _ _ _ _) as [i |].
  - apply ExchangeFacts.preserves_bind;
      [apply ExchangeFacts.preserves_index | intros conn].
    apply ExchangeFacts.preserves_if; [apply ExchangeFacts.preserves_ret |].
    apply ExchangeFacts.preserves_bind; [intros ?; apply Hl | intros _].
    apply ExchangeFacts.preserves_ret.
  - apply ExchangeFacts.preserves_bind; [intros ?; apply Hp | intros _].
    intros ?; reflexivity.
Qed.

Lemma send_req_one_keeps {X} (f : Ctx -> X) tid :
  (forall v c, f (set_req_key_value v c) = f c) ->
  (forall v c, f (set_last_key v c) = f c) ->
  (forall r c, f (set_rpc r c) = f c) ->
  (forall o c, f (snd (printf o c)) = f c) ->
  preserves f (send_req_one tid).
Proof.
  intros Hkv Hlk Hr Hp. unfold Consensus.send_req_one.
  apply ExchangeFacts.preserves_bind; [intros ?; apply Hkv | intros _].
  apply ExchangeFacts.preserves_bind; [intros ?; apply Hlk | intros _].
  apply ExchangeFacts.preserves_bind; [intros ?; reflexivity | intros c].
  apply ExchangeFacts.preserves_bind.
  { apply ExchangeFacts.preserves_if;
      [intros ?; apply Hlk | apply ExchangeFacts.preserves_ret]. }
  intros _.
  apply ExchangeFacts.preserves_bind; [intros ?; reflexivity | intros c'].
  apply ExchangeFacts.preserves_bind.
  { apply ExchangeFacts.preserves_if;
      [intros ?; apply Hp | apply ExchangeFacts.preserves_ret]. }
  intros _.
  apply ExchangeFacts.preserves_bind;
    [apply ExchangeFacts.preserves_index | intros conn].
  apply ExchangeFacts.preserves_bind; [apply keeps_on_rpc; exact Hr | intros r].
  apply ExchangeFacts.preserves_assert.
Qed.

Ltac keeps_all :=
  repeat first
    [ keeps_step
    | apply change_leader_to_any_keeps; intros ? ?; reflexivity
    | apply change_leader_to_node_keeps; intros ? ?; reflexivity
    | apply send_req_one_keeps; intros ? ?; reflexivity ].

(** X14: the latency samples of [client_cont]: [num_resps] counts the samples in
    [req_us_vec] and stays below 10000; the sample of this response is
    added, and with the 10000th sample the statistics are printed and both
    are reset.  Nothing that the continuation does afterwards (changing the
    leader, releasing the response, sending the next request) touches
    them. *)
Theorem client_cont_latency_window tid latency_us resp_handle tag (c : Ctx) :
  0 <= num_resps c < 10000 ->
  Z.of_nat (length (req_us_vec c)) = num_resps c ->
  let c' := snd (client_cont tid latency_us resp_handle tag c) in
  0 <= num_resps c' < 10000 /\
  Z.of_nat (length (req_us_vec c')) = num_resps c' /\
  (if num_resps c =? 9999
   then num_resps c' = 0 /\ req_us_vec c' = []
   else num_resps c' = num_resps c + 1 /\
        req_us_vec c' = req_us_vec c ++ [latency_us]).
Proof.
  intros Hn Hlen. cbv zeta.
  unfold Consensus.client_cont.
  erewrite bind_Ok by reflexivity.
  erewrite bind_Ok by reflexivity.
  erewrite bind_Ok by reflexivity.
  ctx_simpl.
  rewrite (to_size_t_small (num_resps c + 1)) by (unfold size_t_mod; lia).
  destruct (num_resps c =? 9999) eqn:Hlast.
  - apply Z.eqb_eq in Hlast.
    replace (num_resps c + 1 =? 10000) with true
      by (symmetry; apply Z.eqb_eq; lia).
    erewrite bind_Ok by reflexivity.
    match goal with
    | |- context [snd (?m ?s)] =>
        assert (Hp : preserves (fun c : Ctx => (num_resps c, req_us_vec c)) m)
          by keeps_all;
        specialize (Hp s); set (c' := snd (m s)) in *;
        assert (Hp1 : num_resps c' = num_resps s)
          by exact (f_equal fst Hp);
        assert (Hp2 : req_us_vec c' = req_us_vec s)
          by exact (f_equal snd Hp);
        clearbody c'
    end.
    rewrite Hp1, Hp2. cbn. repeat split; try lia.
  - apply Z.eqb_neq in Hlast.
    replace (num_resps c + 1 =? 10000) with false
      by (symmetry; apply Z.eqb_neq; lia).
    erewrite bind_Ok by reflexivity.
    match goal with
    | |- context [snd (?m ?s)] =>
        assert (Hp : preserves (fun c : Ctx => (num_resps c, req_us_vec c)) m)
          by keeps_all;
        specialize (Hp s); set (c' := snd (m s)) in *;
        assert (Hp1 : num_resps c' = num_resps s)
          by exact (f_equal fst Hp);
        assert (Hp2 : req_us_vec c' = req_us_vec s)
          by exact (f_equal snd Hp);
        clearbody c'
    end.
    rewrite Hp1, Hp2. ctx_simpl. rewrite length_app. cbn [length].
    repeat split; try lia.
Qed.

(** X15: the leader view changes only on a redirect or on a failure: after a
    response that is neither, that is [kSuccess] or [kFailTryAgain],
    [client_cont] leaves [leader_idx] as it was, and the next request goes
    to the same server. *)
Theorem client_cont_keeps_leader tid latency_us resp_handle tag (c : Ctx) :
  0 < data_size (resp_msgbuf c) ->
  resp_type (resp_payload c) <> kFailRedirect ->
  leader_idx (snd (client_cont tid latency_us resp_handle tag c))
  = leader_idx c.
Proof.
  intros Hpos Hty. apply Z.ltb_lt in Hpos.
  unfold Consensus.client_cont.
  erewrite bind_Ok by reflexivity.
  erewrite bind_Ok by reflexivity.
  erewrite bind_Ok by reflexivity.
  ctx_simpl.
  destruct (to_size_t (num_resps c + 1) =? 10000);
    (erewrite bind_Ok by reflexivity);
    (erewrite bind_Ok by reflexivity);
    ctx_simpl; rewrite Hpos;
    (destruct (resp_type (resp_payload c)); [| contradiction |]);
    match goal with
    | |- context [snd (?m ?s)] =>
        assert (Hp : preserves (fun c : Ctx => leader_idx c) m)
          by keeps_all;
        exact (Hp s)
    end.
Qed.

(** X16: [client_cont] releases the response handle it was given, once, and no
    other: when it returns, and whenever it gets as far as sending the next
    request, [resp_handle] has been added to the released handles; when the
    client exits before that, nothing has been released. *)
Theorem client_cont_releases_once tid latency_us resp_handle tag (c : Ctx) :
  let r := client_cont tid latency_us resp_handle tag c in
  (released (snd r) = released c \/
   released (snd r) = released c ++ [resp_handle]) /\
  (fst r = Ok tt -> released (snd r) = released c ++ [resp_handle]).
Proof.
  cbv zeta.
  unfold Consensus.client_cont.
  erewrite bind_Ok by reflexivity.
  erewrite bind_Ok by reflexivity.
  erewrite bind_Ok by reflexivity.
  ctx_simpl.
  assert (Hgoal : forall (branch : M Ctx unit) (s : Ctx),
            preserves (fun c : Ctx => released c) branch ->
            released s = released c ->
            let r := (branch ;; release_response resp_handle ;;
                      send_req_one tid) s in
            (released (snd r) = released c \/
             released (snd r) = released c ++ [resp_handle]) /\
            (fst r = Ok tt -> released (snd r) = released c ++ [resp_handle])).
  { intros branch s Hbranch Hs. cbv zeta.
    specialize (Hbranch s). cbv beta in Hbranch.
    unfold bind.
    destruct (branch s) as [[[] | e | |] s1]; cbn [snd fst] in *;
      try (split; [left; congruence | discriminate]).
    cbv [release_response modify].
    assert (Hp : preserves (fun c : Ctx => released c) (send_req_one tid))
      by keeps_all.
    match goal with
    | |- context [snd (?m ?s2)] => specialize (Hp s2); cbv beta in Hp
    end.
    rewrite Hp. cbn [released]. rewrite Hbranch, Hs.
    split; [right | intros _]; reflexivity. }
  destruct (to_size_t (num_resps c + 1) =? 10000);
    (erewrite bind_Ok by reflexivity);
    (erewrite bind_Ok by reflexivity);
    ctx_simpl;
    (apply Hgoal; [keeps_all | reflexivity]).
Qed.

(** X17: after a failed RPC the client retries elsewhere: when [client_cont]
    finds the response buffer empty, the leader view moves to the next
    server in the ring that is not marked as disconnected, which is never
    the old leader, the handle is released and the next request is sent
    from that state.  When every other server is disconnected the client
    exits, with the handle not released. *)
Theorem client_cont_fails_over tid latency_us resp_handle tag (c : Ctx) :
  0 < FLAGS_num_raft_servers <= 2 ^ 63 ->
  Z.of_nat (length (conn_vec c)) = FLAGS_num_raft_servers ->
  0 <= leader_idx c < FLAGS_num_raft_servers ->
  data_size (resp_msgbuf c) <= 0 ->
  let r := client_cont tid latency_us resp_handle tag c in
  (exists k s,
     1 <= k < FLAGS_num_raft_servers /\
     is_connected_to (conn_vec c)
       ((leader_idx c + k) mod FLAGS_num_raft_servers) /\
     (forall j, 1 <= j < k ->
        is_disconnected (conn_vec c)
          ((leader_idx c + j) mod FLAGS_num_raft_servers)) /\
     r = send_req_one tid s /\
     leader_idx s = (leader_idx c + k) mod FLAGS_num_raft_servers /\
     leader_idx (snd r) = (leader_idx c + k) mod FLAGS_num_raft_servers /\
     leader_idx (snd r) <> leader_idx c /\
     released (snd r) = released c ++ [resp_handle] /\
     conn_vec (snd r) = conn_vec c)
  \/
  ((forall j, 1 <= j < FLAGS_num_raft_servers ->
      is_disconnected (conn_vec c)
        ((leader_idx c + j) mod FLAGS_num_raft_servers)) /\
   fst r = Abort /\
   leader_idx (snd r) = leader_idx c /\ released (snd r) = released c).
Proof.
  intros HN Hlen Hcur Hempty. cbv zeta.
  assert (Hneg : (0 <? data_size (resp_msgbuf c)) = false)
    by (apply Z.ltb_ge; exact Hempty).
  assert (Hkeep : forall s : Ctx,
            (leader_idx (snd (send_req_one tid s)),
             released (snd (send_req_one tid s)),
             conn_vec (snd (send_req_one tid s)))
            = (leader_idx s, released s, conn_vec s)).
  { intros s.
    assert (Hp : preserves
                   (fun c : Ctx => (leader_idx c, released c, conn_vec c))
                   (send_req_one tid)) by keeps_all.
    apply Hp. }
  destruct (next_connected_spec (conn_vec c) (leader_idx c)
              (Z.to_nat FLAGS_num_raft_servers) 1 Hlen Hcur
              ltac:(lia) ltac:(lia) ltac:(lia))
    as [(k & Hk & Hck & Hbefore & Hrun) | (Hall & Hrun)];
    [left; exists k | right];
    unfold Consensus.client_cont;
    (erewrite bind_Ok by reflexivity);
    (erewrite bind_Ok by reflexivity);
    (erewrite bind_Ok by reflexivity);
    ctx_simpl;
    destruct (to_size_t (num_resps c + 1) =? 10000);
    (erewrite bind_Ok by reflexivity);
    (erewrite bind_Ok by reflexivity);
    ctx_simpl; rewrite Hneg; rewrite bind_assoc;
    (erewrite bind_Ok by reflexivity).
  1,2: match goal with
       | |- context [bind (Consensus.change_leader_to_any _) _ ?s1] =>
           erewrite (bind_Ok _ _ s1)
             by exact (change_leader_to_any_run s1
                         (Some ((leader_idx c + k)
                                mod FLAGS_num_raft_servers)) Hrun)
       end;
       (erewrite bind_Ok by reflexivity);
       eexists; split; [exact Hk |]; split; [exact Hck |];
       split; [exact Hbefore |]; split; [reflexivity |];
       split; [reflexivity |];
       match goal with
       | |- leader_idx (snd (?f ?s)) = _ /\ _ =>
           pose proof (Hkeep s) as Hs;
           generalize dependent (snd (f s))
       end;
       intros s' Hs; injection Hs as -> -> ->;
       ctx_simpl;
       repeat split; apply ring_step_moves; assumption.
  1,2: match goal with
       | |- context [bind (Consensus.change_leader_to_any _) _ ?s1] =>
           erewrite (bind_Abort _ _ s1)
             by exact (change_leader_to_any_run s1 None Hrun)
       end;
       split; [exact Hall |]; repeat split.
Qed.


(** The keys of [send_req_one], however the call ends. *)
Lemma send_req_one_keys tid (s : Ctx) :
  0 < kAppNumKeys < size_t_mod -> 0 <= last_key s < kAppNumKeys ->
  req_key_value (snd (send_req_one tid s)) = last_key s /\
  last_key (snd (send_req_one tid s)) = (last_key s + 1) mod kAppNumKeys.
Proof.
  intros HK Hlk.
  assert (Hmod : (last_key s + 1) mod kAppNumKeys
                 = if last_key s + 1 =? kAppNumKeys then 0
                   else last_key s + 1).
  { destruct (last_key s + 1 =? kAppNumKeys) eqn:Hk.
    - apply Z.eqb_eq in Hk. rewrite Hk. apply Z_mod_same_full.
    - apply Z.eqb_neq in Hk. apply Z.mod_small. lia. }
  rewrite Hmod.
  unfold Consensus.send_req_one.
  erewrite bind_Ok by reflexivity.
  erewrite bind_Ok by reflexivity.
  erewrite bind_Ok by reflexivity.
  ctx_simpl.
  rewrite (to_size_t_small (last_key s + 1)) by (unfold size_t_mod in *; lia).
  destruct (last_key s + 1 =? kAppNumKeys);
    (erewrite bind_Ok by reflexivity);
    match goal with
    | |- context [snd (?m ?s1)] =>
        assert (Hp : preserves
                       (fun c : Ctx => (req_key_value c, last_key c)) m)
          by keeps_all;
        specialize (Hp s1); set (s' := snd (m s1)) in *;
        assert (Hp1 : req_key_value s' = req_key_value s1)
          by exact (f_equal fst Hp);
        assert (Hp2 : last_key s' = last_key s1)
          by exact (f_equal snd Hp);
        clearbody s'
    end;
    rewrite Hp1, Hp2; split; reflexivity.
Qed.

(** X19: a request is never sent again: whatever the response was (a success,
    a redirect, "try again" or no response at all), when [client_cont]
    returns, the request it has sent carries the key that [last_key] held,
    the next one in the cycle after the key of the request just answered,
    and [last_key] has moved on.  Before the next request is sent the keys
    are not touched. *)
Theorem client_cont_moves_to_next_key tid latency_us resp_handle tag
    (c : Ctx) :
  0 < kAppNumKeys < size_t_mod -> 0 <= last_key c < kAppNumKeys ->
  let r := client_cont tid latency_us resp_handle tag c in
  (fst r = Ok tt ->
   req_key_value (snd r) = last_key c /\
   last_key (snd r) = (last_key c + 1) mod kAppNumKeys) /\
  (req_key_value (snd r) = req_key_value c /\ last_key (snd r) = last_key c
   \/
   req_key_value (snd r) = last_key c /\
   last_key (snd r) = (last_key c + 1) mod kAppNumKeys).
Proof.
  intros HK Hlk. cbv zeta.
  unfold Consensus.client_cont.
  erewrite bind_Ok by reflexivity.
  erewrite bind_Ok by reflexivity.
  erewrite bind_Ok by reflexivity.
  ctx_simpl.
  assert (Hgoal : forall (branch : M Ctx unit) (s : Ctx),
            preserves (fun c : Ctx => (req_key_value c, last_key c)) branch ->
            (req_key_value s, last_key s) = (req_key_value c, last_key c) ->
            let r := (branch ;; release_response resp_handle ;;
                      send_req_one tid) s in
            (fst r = Ok tt ->
             req_key_value (snd r) = last_key c /\
             last_key (snd r) = (last_key c + 1) mod kAppNumKeys) /\
            (req_key_value (snd r) = req_key_value c /\
             last_key (snd r) = last_key c
             \/
             req_key_value (snd r) = last_key c /\
             last_key (snd r) = (last_key c + 1) mod kAppNumKeys)).
  { intros branch s Hbranch Hs. cbv zeta.
    specialize (Hbranch s). cbv beta in Hbranch.
    unfold bind.
    destruct (branch s) as [[[] | e | |] s1]; cbn [snd fst] in *;
      try (split; [discriminate | left; split; congruence]).
    cbv [release_response modify].
    match goal with
    | |- context [snd (?m ?s2)] =>
        destruct (send_req_one_keys tid s2 HK) as [Hkv Hlast];
          [| set (rr := m s2) in *; clearbody rr]
    end.
    { ctx_simpl. replace (last_key s1) with (last_key c) by congruence.
      exact Hlk. }
    ctx_simpl_in Hkv. ctx_simpl_in Hlast.
    replace (last_key s1) with (last_key c) in Hkv, Hlast by congruence.
    split; [intros _ | right]; split; assumption. }
  destruct (to_size_t (num_resps c + 1) =? 10000);
    (erewrite bind_Ok by reflexivity);
    (erewrite bind_Ok by reflexivity);
    ctx_simpl;
    (apply Hgoal; [keeps_all | reflexivity]).
Qed.

End Client.

(** The example client of three servers, with server 0 as its leader. *)
Lemma change_leader_to_any_next_in_ring_witness :
  fst (change_leader_to_any 3 example_client) = Ok tt \/
  fst (change_leader_to_any 3 example_client) = Abort.
Proof.
  destruct (change_leader_to_any_next_in_ring 3 example_client)
    as [(k & _ & _ & _ & _ & Hrun) | (_ & Hrun)].
  - lia.
  - reflexivity.
  - cbn. lia.
  - left. rewrite Hrun. reflexivity.
  - right. rewrite Hrun. reflexivity.
Defined.

(** The same client, redirected to the node of machine 2, when machine [i]
    has the node id [i + 10]. *)
Lemma change_leader_to_node_first_match_witness :
  (exists i,
     0 <= i < 3 /\ i + 10 = 12 /\
     (fst (change_leader_to_node 3 (fun i => i + 10) 12 example_client)
        = Ok true \/
      fst (change_leader_to_node 3 (fun i => i + 10) 12 example_client)
        = Ok false)) \/
  fst (change_leader_to_node 3 (fun i => i + 10) 12 example_client) = Abort.
Proof.
  destruct (change_leader_to_node_first_match 3 (fun i => i + 10) 12
              example_client)
    as [(i & conn & Hi & Hnode & _ & _ & Hrun) | (_ & Hrun)].
  - reflexivity.
  - left. exists i. split; [exact Hi |]. split; [exact Hnode |].
    rewrite Hrun. destruct (disconnected conn); [right | left]; reflexivity.
  - right. rewrite Hrun. reflexivity.
Defined.

(** The example client holds key 5 of 8 keys: it sends 5 and goes on to
    6. *)
Lemma send_req_one_cycles_keys_witness :
  req_key_value
    (snd (send_req_one 8 false 1 77 (mkBuild true true) example_config 1
            example_client)) = 5 /\
  last_key
    (snd (send_req_one 8 false 1 77 (mkBuild true true) example_config 1
            example_client)) = (5 + 1) mod 8.
Proof.
  destruct (send_req_one_cycles_keys 8 false 1 77 (mkBuild true true)
              example_config 1 example_client (mkConnection false 0))
    as (H1 & H2 & _).
  - unfold size_t_mod. lia.
  - cbn. lia.
  - cbn. lia.
  - reflexivity.
  - split; [exact H1 | exact H2].
Defined.

(** The first response of the example client. *)
Lemma client_cont_latency_window_witness :
  num_resps
    (snd (client_cont 3 8 false 1 77 (fun i => i + 10) (mkBuild true true)
            example_config 1 250 (mkRespHandle 0 0 example_resp) 0
            example_client)) = 1.
Proof.
  destruct (client_cont_latency_window 3 8 false 1 77 (fun i => i + 10)
              (mkBuild true true) example_config 1 250
              (mkRespHandle 0 0 example_resp) 0 example_client)
    as (_ & _ & H & _).
  - cbn. lia.
  - reflexivity.
  - exact H.
Defined.

(** The response in the buffer of the example client is a [kSuccess]. *)
Lemma client_cont_keeps_leader_witness :
  leader_idx
    (snd (client_cont 3 8 false 1 77 (fun i => i + 10) (mkBuild true true)
            example_config 1 250 (mkRespHandle 0 0 example_resp) 0
            example_client)) = 0.
Proof.
  apply (client_cont_keeps_leader 3 8 false 1 77 (fun i => i + 10)
           (mkBuild true true) example_config 1 250
           (mkRespHandle 0 0 example_resp) 0 example_client).
  - cbn. lia.
  - cbn. discriminate.
Defined.

(** The example client with an empty response buffer: the RPC to server 0
    has failed. *)
Lemma client_cont_fails_over_witness :
  leader_idx
    (snd (client_cont 3 8 false 1 77 (fun i => i + 10) (mkBuild true true)
            example_config 1 250 (mkRespHandle 0 0 (mkMsgBuffer 12288 64 0))
            0
            (set_response (mkMsgBuffer 12288 64 0) (mkClientResp kSuccess 0)
               example_client))) <> 0 \/
  fst (client_cont 3 8 false 1 77 (fun i => i + 10) (mkBuild true true)
         example_config 1 250 (mkRespHandle 0 0 (mkMsgBuffer 12288 64 0)) 0
         (set_response (mkMsgBuffer 12288 64 0) (mkClientResp kSuccess 0)
            example_client)) = Abort.
Proof.
  destruct (client_cont_fails_over 3 8 false 1 77 (fun i => i + 10)
              (mkBuild true true) example_config 1 250
              (mkRespHandle 0 0 (mkMsgBuffer 12288 64 0)) 0
              (set_response (mkMsgBuffer 12288 64 0)
                 (mkClientResp kSuccess 0) example_client))
    as [(k & s & _ & _ & _ & _ & _ & _ & Hne & _) | (_ & Habort & _)].
  - lia.
  - reflexivity.
  - cbn. lia.
  - cbn. lia.
  - left. exact Hne.
  - right. exact Habort.
Defined.


(** The example client holds key 5 of 8 keys and has sent key 4. *)
Lemma client_cont_moves_to_next_key_witness :
  req_key_value
    (snd (client_cont 3 8 false 1 77 (fun i => i + 10) (mkBuild true true)
            example_config 1 250 (mkRespHandle 0 0 example_resp) 0
            example_client)) = 4 /\
  last_key
    (snd (client_cont 3 8 false 1 77 (fun i => i + 10) (mkBuild true true)
            example_config 1 250 (mkRespHandle 0 0 example_resp) 0
            example_client)) = 5
  \/
  req_key_value
    (snd (client_cont 3 8 false 1 77 (fun i => i + 10) (mkBuild true true)
            example_config 1 250 (mkRespHandle 0 0 example_resp) 0
            example_client)) = 5 /\
  last_key
    (snd (client_cont 3 8 false 1 77 (fun i => i + 10) (mkBuild true true)
            example_config 1 250 (mkRespHandle 0 0 example_resp) 0
            example_client)) = (5 + 1) mod 8.
Proof.
  destruct (client_cont_moves_to_next_key 3 8 false 1 77 (fun i => i + 10)
              (mkBuild true true) example_config 1 250
              (mkRespHandle 0 0 example_resp) 0 example_client)
    as [_ Hkeys].
  - unfold size_t_mod. lia.
  - cbn. lia.
  - exact Hkeys.
Defined.

End ConsensusClientFacts.

(** ** Fault injection: what the operations leave alone, and the build
    without the checks (rpc_fault_inject.cc) *)

Module FaultInjectMoreFacts.
Import ERpc.

Lemma check_ok_cases b tid r :
  (kFaultInjection b = true /\ in_creator tid r = true /\
   fault_inject_check_ok b tid r = (Ok tt, r)) \/
  exists e, fault_inject_check_ok b tid r = (Throw e, r).
Proof.
  unfold fault_inject_check_ok, bind, gets.
  destruct (kFaultInjection b); cbn; [| right; eauto].
  destruct (in_creator tid r); cbn; [left; auto | right; eauto].
Qed.

Ltac rpc_keeps_step :=
  lazymatch goal with
  | |- preserves _ (bind _ _) =>
      apply ExchangeFacts.preserves_bind; [| intros ?]
  | |- preserves _ (if _ then _ else _) => apply ExchangeFacts.preserves_if
  | |- preserves _ (ret _) => apply ExchangeFacts.preserves_ret
  | |- preserves _ (gets _) => apply ExchangeFacts.preserves_gets
  | |- preserves _ (throw _) => apply ExchangeFacts.preserves_throw
  | |- preserves _ (index _ _) => apply ExchangeFacts.preserves_index
  | |- preserves _ (deref _) => apply ExchangeFacts.preserves_deref
  | |- preserves _ (assert _ _) => apply ExchangeFacts.preserves_assert
  | |- preserves _ (enqueue_sm_req_st _ _ _) => intros ?; reflexivity
  end.

(** The two operations on a remote peer leave the local fault state and
    the session table as they are, however they end. *)
Lemma session_op_keeps b tid sn chk ty n :
  preserves (fun r => (faults r, session_vec r))
    (session_op b tid sn chk (fun s => enqueue_sm_req_st s ty n)).
Proof.
  unfold session_op, fault_inject_check_ok. repeat rpc_keeps_step.
Qed.

(** X20: no fault-injection operation disarms a fault: whichever of the four
    operations is called, with whatever arguments and however the call
    ends, a fault flag that was set is still set afterwards, and the
    session table is as it was. *)
Theorem faults_stay_armed b tid session_num pkt_countdown r :
  Forall
    (fun r' =>
       (resolve_server_rinfo (faults r) = true ->
        resolve_server_rinfo (faults r') = true) /\
       (drop_tx_local (faults r) = true -> drop_tx_local (faults r') = true) /\
       session_vec r' = session_vec r)
    [snd (fault_inject_resolve_server_rinfo_st b tid r);
     snd (fault_inject_drop_tx_local_st b tid pkt_countdown r);
     snd (fault_inject_drop_tx_remote_st b tid session_num pkt_countdown r);
     snd (fault_inject_reset_remote_epeer_st b tid session_num r)].
Proof.
  assert (Hremote : forall r', (faults r', session_vec r')
                               = (faults r, session_vec r) ->
            (resolve_server_rinfo (faults r) = true ->
             resolve_server_rinfo (faults r') = true) /\
            (drop_tx_local (faults r) = true ->
             drop_tx_local (faults r') = true) /\
            session_vec r' = session_vec r).
  { intros r' [= -> ->]. auto. }
  constructor; [| constructor; [| constructor; [| constructor;
                                                   [| constructor]]]].
  - unfold fault_inject_resolve_server_rinfo_st, bind.
    destruct (check_ok_cases b tid r) as [(_ & _ & ->) | (e & ->)];
      cbn; auto.
  - unfold fault_inject_drop_tx_local_st, bind.
    destruct (check_ok_cases b tid r) as [(_ & _ & ->) | (e & ->)];
      cbn; auto.
  - apply Hremote.
    rewrite FaultInjectFacts.drop_tx_remote_session_op.
    apply (session_op_keeps b tid session_num).
  - apply Hremote.
    rewrite FaultInjectFacts.reset_remote_epeer_session_op.
    apply (session_op_keeps b tid session_num).
Qed.

(** X21: the two local faults, from the creator thread of a build with fault
    injection: each call only arms its flag (and sets the countdown); no
    session-management message is sent and no session is touched.  The two
    can be armed in either order, arming twice is the same as arming once,
    and of two countdowns the last one stays. *)
Theorem local_faults_compose b tid n m r :
  kFaultInjection b = true -> in_creator tid r = true ->
  fault_inject_resolve_server_rinfo_st b tid r
  = (Ok tt,
     set_faults (mkFaults true (drop_tx_local (faults r))
                   (drop_tx_local_countdown (faults r))) r) /\
  fault_inject_drop_tx_local_st b tid n r
  = (Ok tt,
     set_faults (mkFaults (resolve_server_rinfo (faults r)) true n) r) /\
  (fault_inject_resolve_server_rinfo_st b tid ;;
   fault_inject_drop_tx_local_st b tid n) r
  = (fault_inject_drop_tx_local_st b tid n ;;
     fault_inject_resolve_server_rinfo_st b tid) r /\
  (fault_inject_drop_tx_local_st b tid n ;;
   fault_inject_drop_tx_local_st b tid m) r
  = fault_inject_drop_tx_local_st b tid m r /\
  (fault_inject_resolve_server_rinfo_st b tid ;;
   fault_inject_resolve_server_rinfo_st b tid) r
  = fault_inject_resolve_server_rinfo_st b tid r.
Proof.
  intros Hf Hc.
  assert (Hchk : forall x, fault_inject_check_ok b tid (set_faults x r)
                           = (Ok tt, set_faults x r)).
  { intros x. apply FaultInjectFacts.check_ok_pass; [exact Hf | exact Hc]. }
  pose proof (FaultInjectFacts.check_ok_pass b tid r Hf Hc) as Hchk0.
  assert (H1 : fault_inject_resolve_server_rinfo_st b tid r
               = (Ok tt,
                  set_faults (mkFaults true (drop_tx_local (faults r))
                                (drop_tx_local_countdown (faults r))) r)).
  { unfold fault_inject_resolve_server_rinfo_st, bind. rewrite Hchk0.
    reflexivity. }
  assert (H2 : forall k, fault_inject_drop_tx_local_st b tid k r
               = (Ok tt,
                  set_faults (mkFaults (resolve_server_rinfo (faults r))
                                true k) r)).
  { intros k. unfold fault_inject_drop_tx_local_st, bind. rewrite Hchk0.
    reflexivity. }
  split; [exact H1 |]. split; [apply H2 |].
  split; [| split].
  - erewrite bind_Ok by exact H1. erewrite bind_Ok by apply H2.
    unfold fault_inject_drop_tx_local_st, fault_inject_resolve_server_rinfo_st,
      bind.
    rewrite !Hchk. reflexivity.
  - erewrite bind_Ok by apply H2. rewrite H2.
    unfold fault_inject_drop_tx_local_st, bind. rewrite Hchk. reflexivity.
  - erewrite bind_Ok by exact H1. rewrite H1.
    unfold fault_inject_resolve_server_rinfo_st, bind. rewrite Hchk.
    reflexivity.
Qed.

(** X22: in a build without the checks the assertions on the session argument
    are gone.  A session number that is negative or beyond the session
    table, or whose entry is null, makes both operations on a remote peer
    undefined; for any other number the fault message is sent, whatever the
    state and the role of the session. *)
Theorem session_faults_unchecked b tid session_num pkt_countdown r :
  kFaultInjection b = true -> in_creator tid r = true ->
  kDatapathChecks b = false ->
  INT_MIN <= session_num <= INT_MAX ->
  Z.of_nat (length (session_vec r)) <= INT_MAX ->
  match (if 0 <=? session_num
         then session_vec r !! Z.to_nat session_num else None) with
  | Some (Some s) =>
      fault_inject_drop_tx_remote_st b tid session_num pkt_countdown r
      = (Ok tt,
         set_sm_tx_list
           (sm_tx_list r ++
              [mkSmPkt kFaultDropTxRemote kNoError pkt_countdown
                 (client s) (server s)]) r) /\
      fault_inject_reset_remote_epeer_st b tid session_num r
      = (Ok tt,
         set_sm_tx_list
           (sm_tx_list r ++
              [mkSmPkt kFaultResetPeerReq kNoError 0 (client s) (server s)])
           r)
  | _ =>
      fault_inject_drop_tx_remote_st b tid session_num pkt_countdown r
      = (Undefined, r) /\
      fault_inject_reset_remote_epeer_st b tid session_num r = (Undefined, r)
  end.
Proof.
  intros Hf Hc Hk Hint Hlen.
  pose proof (FaultInjectFacts.check_ok_pass b tid r Hf Hc) as Hchk.
  unfold fault_inject_drop_tx_remote_st, fault_inject_reset_remote_epeer_st,
    bind, gets, assert, index, deref.
  rewrite Hchk, Hk. unfold ret. cbv beta iota zeta.
  unfold INT_MIN, INT_MAX in *.
  destruct (0 <=? session_num) eqn:H0.
  - pose proof H0 as H0'. apply Z.leb_le in H0'.
    rewrite (to_size_t_small session_num) by (unfold size_t_mod; lia).
    rewrite ?H0. cbn [andb].
    destruct (session_num <? Z.of_nat (length (session_vec r))) eqn:Hlt.
    + apply Z.ltb_lt in Hlt.
      destruct (lookup_lt_is_Some_2 (session_vec r) (Z.to_nat session_num))
        as [entry Hentry]; [lia |].
      rewrite Hentry. destruct entry as [s |]; split; reflexivity.
    + apply Z.ltb_ge in Hlt.
      rewrite (lookup_ge_None_2 (session_vec r) (Z.to_nat session_num))
        by lia.
      split; reflexivity.
  - apply Z.leb_gt in H0.
    assert (Hbig : to_size_t session_num = session_num + 2 ^ 64).
    { unfold to_size_t, size_t_mod. symmetry.
      apply (Z.mod_unique_pos _ _ (-1)); lia. }
    rewrite Hbig.
    replace (session_num + 2 ^ 64 <? Z.of_nat (length (session_vec r)))
      with false by (symmetry; apply Z.ltb_ge; lia).
    rewrite andb_false_r. split; reflexivity.
Qed.

Lemma local_faults_compose_witness :
  fault_inject_drop_tx_local_st (mkBuild true true) 1 5 example_rpc
  = (Ok tt, set_faults (mkFaults false true 5) example_rpc).
Proof.
  apply (local_faults_compose (mkBuild true true) 1 5 7 example_rpc);
    reflexivity.
Defined.

(** On the example endpoint in a build without the checks: entry 1 of the
    session table is null. *)
Lemma session_faults_unchecked_witness :
  fault_inject_drop_tx_remote_st (mkBuild true false) 1 1 3 example_rpc
  = (Undefined, example_rpc) /\
  fault_inject_reset_remote_epeer_st (mkBuild true false) 1 1 example_rpc
  = (Undefined, example_rpc).
Proof.
  apply (session_faults_unchecked (mkBuild true false) 1 1 3 example_rpc);
    try reflexivity; unfold INT_MIN, INT_MAX; cbn; lia.
Defined.

End FaultInjectMoreFacts.

(** ** The handler and the continuation of the restrictions test, in every
    build (test_api_restrictions.cc) *)

Module TestHandlerFacts.
Import ERpc TestApiRestrictions.



End TestHandlerFacts.

(** ** Populating the table of the key-value server (persistent_kv.cc) *)

Module PopulateFacts.
Import PersistentKv.

Section Populate.

Context {HashMap : Type}.
Variable kMaxBatchSize : Z.
Variable round_up : Z -> Z.
Variable batch_op_drain :
  HashMap -> list bool -> list Z -> list Z -> Z -> HashMap * (Z -> bool).
Variable FLAGS_keys_per_server_thread : Z.

Local Abbreviation populate_loop :=
  (PersistentKv.populate_loop kMaxBatchSize batch_op_drain).
Local Abbreviation populate :=
  (PersistentKv.populate kMaxBatchSize round_up batch_op_drain
     FLAGS_keys_per_server_thread).

(** The counting loop over [len] outcomes from index [a] on: it returns at
    the first failure, with the successes before it counted. *)
Lemma count_successes_spec success_arr : forall (len : nat) a s,
  0 <= s -> s + Z.of_nat len < size_t_mod ->
  match count_successes success_arr (seqZ a (Z.of_nat len)) s with
  | Return r =>
      exists d, 0 <= d < Z.of_nat len /\ r = s + d /\
                (forall j, a <= j < a + d -> success_arr j = true) /\
                success_arr (a + d) = false
  | Continue r =>
      r = s + Z.of_nat len /\
      forall j, a <= j < a + Z.of_nat len -> success_arr j = true
  end.
Proof.
  induction len as [| len IH]; intros a s Hs Hmax.
  - cbn. split; [lia | intros j Hj; lia].
  - rewrite seqZ_cons by lia.
    replace (Z.pred (Z.of_nat (S len))) with (Z.of_nat len) by lia.
    cbn [count_successes].
    destruct (success_arr a) eqn:Ha; cbn [negb Z.b2z].
    + rewrite (to_size_t_small (s + 1)) by lia.
      specialize (IH (Z.succ a) (s + 1) ltac:(lia) ltac:(lia)).
      destruct (count_successes success_arr _ (s + 1)) as [r | r].
      * destruct IH as (d & Hd & Hr & Hbefore & Hfail).
        exists (d + 1). split; [lia |]. split; [lia |]. split.
        -- intros j Hj. destruct (Z.eq_dec j a) as [-> | Hne];
             [exact Ha | apply Hbefore; lia].
        -- replace (a + (d + 1)) with (Z.succ a + d) by lia. exact Hfail.
      * destruct IH as (Hr & Hall). split; [lia |].
        intros j Hj. destruct (Z.eq_dec j a) as [-> | Hne];
          [exact Ha | apply Hall; lia].
    + rewrite (to_size_t_small (s + 0)) by lia.
      exists 0. split; [lia |]. split; [lia |].
      split; [intros j Hj; lia |].
      rewrite Z.add_0_r. exact Ha.
Qed.

Section Outcomes.

(** The outcome of a SET depends on the key only: [ok k] tells whether the
    table takes key [k]. *)
Variable ok : Z -> bool.
Hypothesis drain_ok :
  forall h is_set_arr keys vals j k,
    0 <= j -> keys !! Z.to_nat j = Some k ->
    snd (batch_op_drain h is_set_arr keys vals kMaxBatchSize) j = ok k.

Variable n : Z.
Hypothesis batch_pos : 0 < kMaxBatchSize.
Hypothesis n_batches : n mod kMaxBatchSize = 0.
Hypothesis n_range : 0 <= n /\ n + kMaxBatchSize < size_t_mod.

(** The loop at the start of batch [m]: the keys of the batches before it
    have all been taken and counted. *)
Lemma populate_loop_spec : forall fuel m lim h out,
  0 <= m -> m * kMaxBatchSize <= n ->
  (Z.to_nat (n / kMaxBatchSize - m) < fuel)%nat ->
  (forall k, 1 <= k <= m * kMaxBatchSize -> ok k = true) ->
  exists ret_ h' out',
    populate_loop n fuel (1 + m * kMaxBatchSize) (m * kMaxBatchSize) lim h out
    = Some (ret_, h', out') /\
    0 <= ret_ <= n /\
    (forall k, 1 <= k <= ret_ -> ok k = true) /\
    (ret_ < n -> ok (ret_ + 1) = false).
Proof.
  assert (Hn : n = kMaxBatchSize * (n / kMaxBatchSize)).
  { pose proof (Z.div_mod n kMaxBatchSize ltac:(lia)). lia. }
  induction fuel as [| fuel IH]; intros m lim h out Hm Hle Hfuel Hbefore;
    [lia |].
  cbn [PersistentKv.populate_loop].
  destruct (1 + m * kMaxBatchSize <=? n) eqn:Hi.
  2:{ apply Z.leb_gt in Hi. exists n, h, out.
      split; [reflexivity |]. split; [lia |].
      split; [intros k Hk; apply Hbefore; lia | lia]. }
  apply Z.leb_le in Hi.
  assert (Hlt : m < n / kMaxBatchSize) by nia.
  assert (Hnext : (m + 1) * kMaxBatchSize <= n) by nia.
  destruct (batch_op_drain h _ _ _ kMaxBatchSize) as [h' success_arr] eqn:Hd.
  assert (Hsucc : forall j, 0 <= j < kMaxBatchSize ->
            success_arr j = ok (1 + m * kMaxBatchSize + j)).
  { intros j Hj.
    change success_arr with (snd (h', success_arr)). rewrite <- Hd.
    apply drain_ok; [lia |].
    rewrite list_lookup_fmap.
    assert (Hl : seqZ 0 kMaxBatchSize !! Z.to_nat j = Some j).
    { apply lookup_seqZ. lia. }
    rewrite Hl. cbn. f_equal. apply to_size_t_small. lia. }
  destruct (if lim <=? 1 + m * kMaxBatchSize then _ else _)
    as [out' lim'].
  pose proof (count_successes_spec success_arr (Z.to_nat kMaxBatchSize) 0
                (m * kMaxBatchSize) ltac:(nia) ltac:(lia)) as Hcount.
  rewrite Z2Nat.id in Hcount by lia.
  destruct (count_successes success_arr _ _) as [r | r].
  - destruct Hcount as (d & Hd' & -> & Hgood & Hbad).
    exists (m * kMaxBatchSize + d), h', out'.
    split; [reflexivity |]. split; [lia |]. split.
    + intros k Hk.
      destruct (Z_le_gt_dec k (m * kMaxBatchSize)) as [Hold | Hnew];
        [apply Hbefore; lia |].
      replace k with (1 + m * kMaxBatchSize + (k - 1 - m * kMaxBatchSize))
        by lia.
      rewrite <- Hsucc by lia. apply Hgood. lia.
    + intros _.
      replace (m * kMaxBatchSize + d + 1)
        with (1 + m * kMaxBatchSize + d) by lia.
      rewrite <- Hsucc by lia. exact Hbad.
  - destruct Hcount as (-> & Hgood).
    rewrite (to_size_t_small (1 + m * kMaxBatchSize + kMaxBatchSize))
      by lia.
    replace (1 + m * kMaxBatchSize + kMaxBatchSize)
      with (1 + (m + 1) * kMaxBatchSize) by lia.
    replace (m * kMaxBatchSize + kMaxBatchSize)
      with ((m + 1) * kMaxBatchSize) by lia.
    apply IH; [lia | exact Hnext | lia |].
    intros k Hk.
    destruct (Z_le_gt_dec k (m * kMaxBatchSize)) as [Hold | Hnew];
      [apply Hbefore; lia |].
    replace k with (1 + m * kMaxBatchSize + (k - 1 - m * kMaxBatchSize))
      by lia.
    rewrite <- Hsucc by lia. apply Hgood. lia.
Qed.

End Outcomes.

(** X25: [populate] returns the number of keys that the table took before the
    first one it refused: with [n] the number of keys rounded up to whole
    batches, and a table whose answer depends on the key only, the result
    [r] is such that the keys 1 to [r] were all taken and either [r] is [n]
    (all keys were added) or key [r + 1] was refused.  The keys that the
    table took after the first refusal, in the rest of that batch, are not
    counted.  The loop needs one round for each batch. *)
Theorem populate_counts_leading_keys ok fuel h :
  0 < kMaxBatchSize ->
  round_up FLAGS_keys_per_server_thread mod kMaxBatchSize = 0 ->
  0 <= round_up FLAGS_keys_per_server_thread ->
  round_up FLAGS_keys_per_server_thread + kMaxBatchSize < size_t_mod ->
  (Z.to_nat (round_up FLAGS_keys_per_server_thread / kMaxBatchSize)
   < fuel)%nat ->
  (forall h is_set_arr keys vals j k,
     0 <= j -> keys !! Z.to_nat j = Some k ->
     snd (batch_op_drain h is_set_arr keys vals kMaxBatchSize) j = ok k) ->
  exists ret_ h' out,
    populate fuel h = Some (ret_, h', out) /\
    0 <= ret_ <= round_up FLAGS_keys_per_server_thread /\
    (forall k, 1 <= k <= ret_ -> ok k = true) /\
    (ret_ < round_up FLAGS_keys_per_server_thread -> ok (ret_ + 1) = false).
Proof.
  intros HB Hmod H0 Hmax Hfuel Hdrain.
  unfold PersistentKv.populate.
  pose proof (populate_loop_spec ok Hdrain
                (round_up FLAGS_keys_per_server_thread) HB Hmod
                (conj H0 Hmax) fuel 0
                (round_up FLAGS_keys_per_server_thread / 10) h []) as Hloop.
  rewrite Z.mul_0_l, Z.add_0_r in Hloop.
  apply Hloop; [lia | lia | lia | intros k Hk; lia].
Qed.

End Populate.

(** Batches of 4, 10 keys rounded up to 12, and a table with room for the
    keys up to 6: six keys are counted. *)
Lemma populate_counts_leading_keys_witness :
  exists ret_ h' out,
    PersistentKv.populate 4 (fun x => (x + 3) / 4 * 4)
      (example_batch_op_drain 6) 10 5%nat [] = Some (ret_, h', out) /\
    0 <= ret_ <= 12 /\
    (forall k, 1 <= k <= ret_ -> (k <=? 6) = true) /\
    (ret_ < 12 -> (ret_ + 1 <=? 6) = false).
Proof.
  apply (populate_counts_leading_keys 4 (fun x => (x + 3) / 4 * 4)
           (example_batch_op_drain 6) 10 (fun k => k <=? 6) 5%nat []).
  - lia.
  - reflexivity.
  - vm_compute. discriminate.
  - reflexivity.
  - vm_compute. lia.
  - intros h is_set_arr keys vals j k Hj Hk. cbn. rewrite Hk. reflexivity.
Defined.

Example populate_stops_at_seven :
  PersistentKv.populate 4 (fun x => (x + 3) / 4 * 4)
    (example_batch_op_drain 6) 10 5%nat []
  = Some (6, [1; 2; 3; 4; 5; 6], [1; 5]).
Proof. vm_compute. reflexivity. Qed.

End PopulateFacts.

(** ** Comparing keys (persistent_kv.cc) *)

Module KeyFacts.
Import PersistentKv.

Lemma length_bytes_of n : forall z, length (bytes_of n z) = n.
Proof. induction n as [| n IH]; intros z; cbn; [| rewrite IH]; reflexivity. Qed.

(** The bytes determine the number. *)
Lemma bytes_of_inj n : forall x y,
  0 <= x < 256 ^ Z.of_nat n -> 0 <= y < 256 ^ Z.of_nat n ->
  bytes_of n x = bytes_of n y -> x = y.
Proof.
  induction n as [| n IH]; intros x y Hx Hy Heq.
  - cbn in Hx, Hy. lia.
  - cbn [bytes_of] in Heq. injection Heq as Hlow Hhigh.
    rewrite Nat2Z.inj_succ, Z.pow_succ_r in Hx, Hy by lia.
    assert (Hdiv : x / 256 = y / 256).
    { apply IH; [| | exact Hhigh];
        (split; [apply Z.div_pos; lia | apply Z.div_lt_upper_bound; lia]). }
    rewrite (Z.div_mod x 256), (Z.div_mod y 256) by lia.
    rewrite Hlow, Hdiv. reflexivity.
Qed.

(** [memcmp] gives 0 exactly on equal bytes. *)
Lemma memcmp_zero n : forall xs ys,
  length xs = n -> length ys = n ->
  (memcmp xs ys n =? 0) = true <-> xs = ys.
Proof.
  induction n as [| n IH]; intros xs ys Hx Hy.
  - destruct xs, ys; try discriminate. cbn. split; reflexivity.
  - destruct xs as [| x xs], ys as [| y ys]; try discriminate.
    cbn [memcmp]. injection Hx as Hx. injection Hy as Hy.
    destruct (x =? y) eqn:Hxy.
    + apply Z.eqb_eq in Hxy. subst y.
      rewrite (IH xs ys Hx Hy). split; [intros ->; reflexivity |].
      intros [= ->]. reflexivity.
    + apply Z.eqb_neq in Hxy. split.
      * intros H. apply Z.eqb_eq in H. lia.
      * intros [= -> _]. contradiction.
Qed.

(** X26: two keys compare equal with [operator==] exactly when their two
    fragments are equal, and [operator!=] is its negation; a key fresh
    from the constructor equals another fresh key. *)
Theorem Key_eq_compares_fragments (k rhs : Key) :
  0 <= key_frag0 k < size_t_mod -> 0 <= key_frag1 k < size_t_mod ->
  0 <= key_frag0 rhs < size_t_mod -> 0 <= key_frag1 rhs < size_t_mod ->
  (Key_eq k rhs = true <-> k = rhs) /\
  Key_ne k rhs = negb (Key_eq k rhs) /\
  Key_eq Key_new Key_new = true.
Proof.
  intros H0 H1 H0' H1'. split; [| split; reflexivity].
  unfold Key_eq.
  rewrite (memcmp_zero (Z.to_nat sizeof_Key)).
  2,3: unfold Key_bytes; rewrite length_app, !length_bytes_of; reflexivity.
  unfold Key_bytes. split.
  - intros Heq. apply app_inj_1 in Heq as [Ha Hb];
      [| rewrite !length_bytes_of; reflexivity].
    apply (bytes_of_inj 8) in Ha; [| exact H0 | exact H0'].
    apply (bytes_of_inj 8) in Hb; [| exact H1 | exact H1'].
    destruct k, rhs. cbn in *. subst. reflexivity.
  - intros ->. reflexivity.
Qed.

Lemma Key_eq_compares_fragments_witness :
  Key_eq (mkKey 501 0) (mkKey 501 0) = true <-> mkKey 501 0 = mkKey 501 0.
Proof.
  apply (Key_eq_compares_fragments (mkKey 501 0) (mkKey 501 0));
    unfold size_t_mod; cbn; lia.
Defined.

Example keys_differing_in_a_high_byte :
  Key_eq (mkKey 1 (2 ^ 56)) (mkKey 1 0) = false /\
  Key_ne (mkKey 1 (2 ^ 56)) (mkKey 1 0) = true.
Proof. split; vm_compute; reflexivity. Qed.

End KeyFacts.
